(** * A shallow embedding of the webcrypto provider layer

    The development follows [src/build/webcrypto.es.js] (and the registry
    source it was bundled from): the key registry, the symmetric and
    asymmetric engines, AES-CMAC, RSA-OAEP unpadding, the ECDSA signature
    codec, HKDF, PBKDF2 and HMAC key creation.  JavaScript numbers that go
    through a bit operator are modelled as [Z] with the 32-bit wrap-around
    written out; byte buffers are [list Z] with every store reduced modulo
    256; objects that are shared and mutated live in an explicit store. *)

From Stdlib Require Import ZArith List Ascii String Lia Bool.
From stdpp Require Import base option list gmap strings.
Import ListNotations.

Local Open Scope string_scope.
Local Open Scope list_scope.
Local Open Scope Z_scope.

(** ** Exceptions and results *)

Inductive Exception : Type :=
| OperationError (message : string)
| CryptoError (message : string)
| TypeError (message : string)
| RangeError (message : string)
| Error (message : string)
| EngineError (message : string).

Inductive Result (A : Type) : Type :=
| Ok (a : A)
| Throw (e : Exception).
Arguments Ok {A} a.
Arguments Throw {A} e.

Definition exception_message (e : Exception) : string :=
  match e with
  | OperationError m | CryptoError m | TypeError m | RangeError m | Error m
  | EngineError m => m
  end.

(** ** JavaScript integer and buffer operations *)

Module JS.

(** [ToInt32]: the value an operand of [<<], [>>], [&], [^] is read as. *)
Definition toInt32 (x : Z) : Z := (x + 2 ^ 31) mod 2 ^ 32 - 2 ^ 31.

(** [ToUint32]: the value the left operand of [>>>] is read as. *)
Definition toUint32 (x : Z) : Z := x mod 2 ^ 32.

(** [a << n] *)
Definition shl (a n : Z) : Z := toInt32 (Z.shiftl (toInt32 a) (n mod 32)).

(** [a >> n] *)
Definition shr (a n : Z) : Z := Z.shiftr (toInt32 a) (n mod 32).

(** [a >>> n] *)
Definition ushr (a n : Z) : Z := Z.shiftr (toUint32 a) (n mod 32).

(** [a & b] *)
Definition band (a b : Z) : Z := Z.land (toInt32 a) (toInt32 b).

(** [a ^ b] *)
Definition bxor (a b : Z) : Z := Z.lxor (toInt32 a) (toInt32 b).

(** The value kept by a store into a [Uint8Array] or [Buffer] cell. *)
Definition toUint8 (x : Z) : Z := x mod 256.

(** [Math.ceil(a / b)] for integers [a] and [b > 0]. *)
Definition ceil_div (a b : Z) : Z := - ((- a) / b).

(** [Buffer.alloc(n)] / [new Uint8Array(n)] for [n >= 0] *)
Definition alloc (n : Z) : list Z := replicate (Z.to_nat n) 0.

(** [buf.length] *)
Definition len (buf : list Z) : Z := Z.of_nat (length buf).

(** [buf[i]] as a value: [None] is [undefined]. *)
Definition at_ (buf : list Z) (i : Z) : option Z :=
  if i <? 0 then None else buf !! Z.to_nat i.

(** [buf[i]] used as an operand of a bit operator: [undefined] reads as 0. *)
Definition get (buf : list Z) (i : Z) : Z := default 0 (at_ buf i).

(** [buf[i] = v]: the store wraps to a byte; out of range nothing happens. *)
Definition set (buf : list Z) (i : Z) (v : Z) : list Z :=
  if i <? 0 then buf else <[ Z.to_nat i := toUint8 v ]> buf.

(** [buf.slice(a, b)] and [buf.subarray(a, b)] for [0 <= a], [0 <= b]:
    both ends are clamped to the length. *)
Definition slice (buf : list Z) (a b : Z) : list Z :=
  take (Z.to_nat b - Z.to_nat a) (drop (Z.to_nat a) buf).

(** [buf.slice(a)] and [buf.subarray(a)] for [0 <= a] *)
Definition slice_from (buf : list Z) (a : Z) : list Z := drop (Z.to_nat a) buf.

(** [target.set(source, offset)] for a source that fits. *)
Definition set_at (target source : list Z) (offset : Z) : list Z :=
  take (Z.to_nat offset) target ++ source
    ++ drop (Z.to_nat offset + length source) target.

(** [for (let i = lo; i < hi; i++) s = body(i, s)] *)
Definition for_loop {St : Type} (lo hi : Z) (body : Z -> St -> St) (s : St) : St :=
  fold_left (fun acc i => body i acc) (seqZ lo (hi - lo)) s.

(** [for] loops whose state records whether the body has thrown. *)
Definition for_loopR {St : Type} (lo hi : Z) (body : Z -> St -> Result St) (s : St)
  : Result St :=
  fold_left (fun acc i => match acc with Ok s => body i s | Throw e => Throw e end)
            (seqZ lo (hi - lo)) (Ok s).

(** [source.copy(target, 0, start, end)] for [0 <= start] and [0 <= end]:
    the bytes [start, end) of the source, as many as fit, overwrite the
    head of the target; a start beyond the source is refused. *)
Definition copy (source target : list Z) (start end_ : Z) : Result (list Z) :=
  if len source <? start then Throw (RangeError "The value of sourceStart is out of range")
  else
    let chunk := take (length target) (slice source start end_) in
    Ok (chunk ++ drop (length chunk) target).

End JS.

(** ** Key model *)

Inductive KeyType : Type := secret | public | private.

(** The concrete class an internal key is an instance of. *)
Inductive KeyClass : Type :=
| AesCryptoKey | DesCryptoKey
| RsaPrivateKey | RsaPublicKey
| EcPrivateKey | EcPublicKey
| EdPrivateKey | EdPublicKey
| PbkdfCryptoKey | HmacCryptoKey | HkdfCryptoKey.

(** An algorithm descriptor: [name] and the members the providers read or
    write. *)
Record Algorithm : Type := mkAlgorithm {
  alg_name : string;
  alg_length : option Z;
  alg_hash : option string;
  alg_namedCurve : option string;
  alg_publicExponent : option (list Z);
  alg_modulusLength : option Z
}.

Definition algorithm_named (n : string) : Algorithm :=
  mkAlgorithm n None None None None None.

(** Internal key material ([CryptoKey] of keys.ts and its subclasses). *)
Record InternalCryptoKey : Type := mkKey {
  key_class : KeyClass;
  key_data : list Z;
  key_algorithm : option Algorithm;
  key_extractable : bool;
  key_type : KeyType;
  key_usages : list string;
  key_pem : option string
}.

(** References to key-material objects. *)
Abbreviation ref := positive.

(** Modelled from the spec: the public handle, whose class
    [core.CryptoKey] is declared in webcrypto-core, outside this
    repository; a handle is {algorithm descriptor, key class, extractable,
    usages}.  [__value] is
    the own property that [setCryptoKey] adds before freezing the handle;
    [handle_id] is the object identity the WeakMap is keyed by. *)
Record Handle : Type := mkHandle {
  handle_id : positive;
  handle_algorithm : option Algorithm;
  handle_type : KeyType;
  handle_extractable : bool;
  handle_usages : list string;
  __value : option ref
}.

(** ** The object store

    Key-material objects are mutable and shared: the registry entry, the
    [__value] property of a handle and the variable a provider holds all
    name the same object.  [heap] maps a reference to the object's current
    fields, [keyStorage] is the WeakMap from handle identity to material
    reference, [next_id] is the next unused object identity and [entropy]
    counts the calls made to the random generator. *)

Record Store : Type := mkStore {
  heap : gmap positive InternalCryptoKey;
  keyStorage : gmap positive positive;
  next_id : positive;
  entropy : nat
}.

Definition empty_store : Store := mkStore ∅ ∅ 1%positive 0%nat.

(** Computations that read and write the store and may throw. *)
Definition M (A : Type) : Type := Store -> Result A * Store.

Definition ret {A} (a : A) : M A := fun st => (Ok a, st).
Definition throw {A} (e : Exception) : M A := fun st => (Throw e, st).
Definition bind {A B} (m : M A) (k : A -> M B) : M B :=
  fun st => match m st with
            | (Ok a, st') => k a st'
            | (Throw e, st') => (Throw e, st')
            end.

Notation "x <- m ;; k" := (bind m (fun x => k))
  (at level 100, m at next level, right associativity).

(** [new C()] followed by the field assignments of the caller. *)
Definition new_key (k : InternalCryptoKey) : M ref :=
  fun st =>
    let r := next_id st in
    (Ok r, mkStore (<[ r := k ]> (heap st)) (keyStorage st) (Pos.succ r) (entropy st)).

(** The current fields of the object a reference names. *)
Definition deref (value : ref) : M InternalCryptoKey :=
  fun st =>
    match heap st !! value with
    | Some v => (Ok v, st)
    | None => (Throw (TypeError "Cannot read properties of undefined"), st)
    end.

(** ** Key registry (storage.ts) *)

(** Modelled from the spec: [core.CryptoKey.create(algorithm, type,
    extractable, usages)] of webcrypto-core, which builds a handle from the
    four descriptor fields; [id] is the identity of the new object. *)
Definition CryptoKey_create (id : positive) (algorithm : option Algorithm)
    (type : KeyType) (extractable : bool) (usages : list string) : Handle :=
  mkHandle id algorithm type extractable usages None.

(** [key.__value = value] *)
Definition set___value (key : Handle) (value : ref) : Handle :=
  mkHandle (handle_id key) (handle_algorithm key) (handle_type key)
           (handle_extractable key) (handle_usages key) (Some value).

Definition setCryptoKey (value : ref) : M Handle :=
  fun st =>
    match heap st !! value with
    | None => (Throw (TypeError "Cannot read properties of undefined"), st)
    | Some v =>
        let key := CryptoKey_create (next_id st) (key_algorithm v) (key_type v)
                     (key_extractable v) (key_usages v) in
        let key := set___value key value in
        (Ok key,
         mkStore (heap st) (<[ handle_id key := value ]> (keyStorage st))
                 (Pos.succ (next_id st)) (entropy st))
    end.

(** [res.algorithm = key.algorithm], on the object [res] names. *)
Definition backfill_algorithm (res : ref) (key : Handle) (h : gmap positive InternalCryptoKey)
  : gmap positive InternalCryptoKey :=
  match h !! res with
  | Some v =>
      match key_algorithm v, handle_algorithm key with
      | None, Some a =>
          <[ res := mkKey (key_class v) (key_data v) (Some a) (key_extractable v)
                          (key_type v) (key_usages v) (key_pem v) ]> h
      | _, _ => h
      end
  | None => h
  end.

Definition getCryptoKey (key : Handle) : M ref :=
  fun st =>
    (* let res = keyStorage.get(key); *)
    let res := keyStorage st !! handle_id key in
    (* if (!res && key.__value) { keyStorage.set(key, key.__value); res = keyStorage.get(key); } *)
    let '(ks, res) :=
      match res, __value key with
      | None, Some v =>
          let ks := <[ handle_id key := v ]> (keyStorage st) in
          (ks, ks !! handle_id key)
      | _, _ => (keyStorage st, res)
      end in
    (* if (res && !res.algorithm && key.algorithm) res.algorithm = key.algorithm; *)
    let hp := match res with
              | Some r => backfill_algorithm r key (heap st)
              | None => heap st
              end in
    let st' := mkStore hp ks (next_id st) (entropy st) in
    (* if (!res) throw ...; return res; *)
    match res with
    | None => (Throw (OperationError "Cannot get CryptoKey from secure storage"), st')
    | Some r => (Ok r, st')
    end.

(** Pure code that may throw. *)
Definition rbind {A B} (m : Result A) (k : A -> Result B) : Result B :=
  match m with
  | Ok a => k a
  | Throw e => Throw e
  end.

Notation "x <~ m ;; k" := (rbind m (fun x => k))
  (at level 100, m at next level, right associativity).

(** A pure result used inside a store computation. *)
Definition lift {A} (m : Result A) : M A := fun st => (m, st).

(** ** Strings *)

Definition lower_ascii (c : ascii) : ascii :=
  let n := nat_of_ascii c in
  if ((65 <=? n) && (n <=? 90))%nat then ascii_of_nat (n + 32) else c.

Definition upper_ascii (c : ascii) : ascii :=
  let n := nat_of_ascii c in
  if ((97 <=? n) && (n <=? 122))%nat then ascii_of_nat (n - 32) else c.

(** [s.toLowerCase()] and [s.toUpperCase()] on ASCII text. *)
Fixpoint toLowerCase (s : string) : string :=
  match s with
  | EmptyString => EmptyString
  | String c s' => String (lower_ascii c) (toLowerCase s')
  end.

Fixpoint toUpperCase (s : string) : string :=
  match s with
  | EmptyString => EmptyString
  | String c s' => String (upper_ascii c) (toUpperCase s')
  end.

(** [s.replace("-", "")]: the first dash is removed. *)
Fixpoint replace_dash (s : string) : string :=
  match s with
  | EmptyString => EmptyString
  | String c s' => if Ascii.eqb c "-"%char then s' else String c (replace_dash s')
  end.

Definition newline : string := String (ascii_of_nat 10) EmptyString.

(** [list.indexOf(x) !== -1] *)
Definition includes (x : string) (l : list string) : bool :=
  existsb (String.eqb x) l.

(** ** Key data handed to importKey *)

(** The members of a JSON Web Key that the engines look at before the JSON
    parser takes over. *)
Record JsonWebKey : Type := mkJwk {
  jwk_kty : option string;
  jwk_crv : option string;
  jwk_k : option string;
  jwk_d : option string;
  jwk_x : option string
}.

Inductive KeyData : Type :=
| BufferSource (bytes : list Z)
| Jwk (jwk : JsonWebKey).

(** ** The primitive engine and the other external collaborators

    Node's [crypto] module, the JSON and ASN.1 codecs and the base classes
    of webcrypto-core are outside the provider layer.  Each entry stands for
    the call named in its comment; what a theorem needs to know about an
    entry is stated as a hypothesis of that theorem. *)

Record Engine : Type := mkEngine {
  (** [JsonParser.fromJSON(keyData, { targetSchema })]: the [data] member
      of the parsed key. *)
  JsonParser_fromJSON : KeyClass -> KeyData -> Result (list Z);
  (** [crypto.createCipheriv(`aes${bits}`, key, zero).update(message)]:
      AES-CBC under a zero IV; on one block this is the block encryption. *)
  AES_encrypt : Z -> list Z -> list Z -> Result (list Z);
  (** [crypto.createHash(name).update(data).digest()] *)
  createHash : string -> list Z -> list Z;
  (** [crypto.createHmac(name, key).update(data).digest()] *)
  createHmac : string -> list Z -> list Z -> list Z;
  (** byte [i] of the [n]-th call to the random generator *)
  random_byte : nat -> nat -> Z;
  (** [key.data.toString("base64")] *)
  toBase64 : list Z -> string;
  (** [crypto.privateDecrypt({ key: pem, padding: RSA_NO_PADDING }, data)] *)
  privateDecrypt_no_padding : string -> list Z -> Result (list Z);
  (** [crypto.publicEncrypt({ key: pem, padding: RSA_NO_PADDING }, data)] *)
  publicEncrypt_no_padding : string -> list Z -> Result (list Z);
  (** [AsnSerializer.serialize(ecSignature)] for an [EcDsaSignature] with
      the given [r] and [s] *)
  serialize_EcDsaSignature : list Z -> list Z -> list Z;
  (** [crypto.createVerify(name)]: an unknown digest name is refused *)
  createVerify : string -> Result unit;
  (** [signer.update(data); signer.verify({ key: pem }, signature)] on the
      verifier made for [name] *)
  verifier_verify : string -> list Z -> string -> list Z -> Result bool;
  (** [crypto.generateKeyPairSync("rsa", { modulusLength, publicExponent, ... })]:
      the DER private (pkcs8) and public (spki) keys *)
  generateKeyPairSync_rsa : nat -> Z -> Z -> Result (list Z * list Z);
  (** [crypto.generateKeyPairSync("ec", { namedCurve, ... })] *)
  generateKeyPairSync_ec : nat -> string -> Result (list Z * list Z);
  (** [crypto.generateKeyPairSync(type, ...)] for the Edwards and Montgomery
      curves *)
  generateKeyPairSync_ed : nat -> string -> Result (list Z * list Z);
  (** [getDefaultLength(hashName)] of [core.HmacProvider] *)
  getDefaultLength : string -> Result Z;
  (** the message of the RangeError that [Buffer.alloc(size)] raises for a
      negative [size]; the text is Node's own and differs between its
      versions *)
  Buffer_alloc_message : Z -> string
}.

(** [crypto.randomBytes(size)]: a size outside [0, 2^31 - 1] is refused. *)
Definition randomBytes (E : Engine) (size : Z) : M (list Z) :=
  fun st =>
    if (0 <=? size) && (size <=? 2 ^ 31 - 1) then
      (Ok (map (fun i => JS.toUint8 (random_byte E (entropy st) i))
               (seq 0 (Z.to_nat size))),
       mkStore (heap st) (keyStorage st) (next_id st) (S (entropy st)))
    else (Throw (RangeError "The value of size is out of range"), st).

(** [Buffer.from(keyData)] *)
Definition Buffer_from (keyData : KeyData) : Result (list Z) :=
  match keyData with
  | BufferSource bytes => Ok bytes
  | Jwk _ => Throw (TypeError "The first argument must be a buffer or an array")
  end.

(** [algorithm.length = v] *)
Definition set_alg_length (a : Algorithm) (v : Z) : Algorithm :=
  mkAlgorithm (alg_name a) (Some v) (alg_hash a) (alg_namedCurve a)
              (alg_publicExponent a) (alg_modulusLength a).

(** [{ ...algorithm, name }] *)
Definition set_alg_name (a : Algorithm) (n : string) : Algorithm :=
  mkAlgorithm n (alg_length a) (alg_hash a) (alg_namedCurve a)
              (alg_publicExponent a) (alg_modulusLength a).

(** ** AES and DES key import

    A key object built by an engine function is a value until the provider
    registers it: the object is allocated in the store when the engine
    function returns, which no caller can tell from allocation at [new]. *)

Definition AesCrypto_importKey (E : Engine) (format : string) (keyData : KeyData)
    (algorithm : Algorithm) (extractable : bool) (keyUsages : list string)
  : Result InternalCryptoKey :=
  data <~ (if toLowerCase format =? "jwk" then JsonParser_fromJSON E AesCryptoKey keyData
           else if toLowerCase format =? "raw" then Buffer_from keyData
           else Throw (OperationError "format: Must be 'jwk' or 'raw'"))%string ;;
  (* key.algorithm = algorithm; key.algorithm.length = key.data.length << 3; *)
  let algorithm := set_alg_length algorithm (JS.shl (JS.len data) 3) in
  let key := mkKey AesCryptoKey data (Some algorithm) extractable secret keyUsages None in
  match alg_length algorithm with
  | Some 128 | Some 192 | Some 256 => Ok key
  | _ => Throw (OperationError "keyData: Is wrong key length")
  end.

(** [onImportKey] of AesCbcProvider, AesCmacProvider, AesCtrProvider,
    AesGcmProvider, AesKwProvider and AesEcbProvider: the six bodies are
    the same text. *)
Definition AesProvider_onImportKey (E : Engine) (format : string) (keyData : KeyData)
    (algorithm : Algorithm) (extractable : bool) (keyUsages : list string) : M Handle :=
  key <- lift (AesCrypto_importKey E format keyData
                 (algorithm_named (alg_name algorithm)) extractable keyUsages) ;;
  value <- new_key key ;;
  setCryptoKey value.

Definition DesCrypto_importKey (E : Engine) (format : string) (keyData : KeyData)
    (algorithm : Algorithm) (extractable : bool) (keyUsages : list string)
  : Result InternalCryptoKey :=
  data <~ (if toLowerCase format =? "jwk" then JsonParser_fromJSON E DesCryptoKey keyData
           else if toLowerCase format =? "raw" then Buffer_from keyData
           else Throw (OperationError "format: Must be 'jwk' or 'raw'"))%string ;;
  Ok (mkKey DesCryptoKey data (Some algorithm) extractable secret keyUsages None).

(** The fields the two DES provider constructors set. *)
Record DesProvider : Type := mkDesProvider {
  keySizeBits : Z;
  ivSize : Z;
  des_name : string
}.

Definition DesCbcProvider : DesProvider := mkDesProvider 64 8 "DES-CBC".

(** [onImportKey] of DesCbcProvider and DesEde3CbcProvider. *)
Definition DesProvider_onImportKey (E : Engine) (this : DesProvider) (format : string)
    (keyData : KeyData) (algorithm : Algorithm) (extractable : bool)
    (keyUsages : list string) : M Handle :=
  key <- lift (DesCrypto_importKey E format keyData
                 (set_alg_length (algorithm_named (des_name this)) (keySizeBits this))
                 extractable keyUsages) ;;
  if negb (JS.len (key_data key) =? JS.shr (keySizeBits this) 3)
  then throw (OperationError "keyData: Wrong key size")
  else value <- new_key key ;; setCryptoKey value.

(** ** PBKDF2 key import *)

(** Modelled from the spec: [this.name] of the two providers, which the
    base classes in webcrypto-core set; the spec names the algorithms
    PBKDF2 and HMAC. *)
Definition Pbkdf2Provider_name : string := "PBKDF2".
Definition HmacProvider_name : string := "HMAC".

Definition Pbkdf2Provider_onImportKey (E : Engine) (format : string) (keyData : KeyData)
    (algorithm : Algorithm) (extractable : bool) (keyUsages : list string) : M Handle :=
  if (format =? "raw")%string then
    data <- lift (Buffer_from keyData) ;;
    (* key.extractable = false; *)
    let key := mkKey PbkdfCryptoKey data (Some (algorithm_named Pbkdf2Provider_name))
                     false secret keyUsages None in
    value <- new_key key ;;
    setCryptoKey value
  else throw (OperationError "format: Must be 'raw'").

(** ** HMAC key generation *)

Definition HmacProvider_onGenerateKey (E : Engine) (algorithm : Algorithm)
    (extractable : bool) (keyUsages : list string) : M Handle :=
  (* algorithm.length || this.getDefaultLength(algorithm.hash.name) *)
  requested <- lift (match alg_length algorithm with
                     | Some l => if l =? 0 then
                                   match alg_hash algorithm with
                                   | Some h => getDefaultLength E h
                                   | None => Throw (TypeError "Cannot read properties of undefined")
                                   end
                                 else Ok l
                     | None => match alg_hash algorithm with
                               | Some h => getDefaultLength E h
                               | None => Throw (TypeError "Cannot read properties of undefined")
                               end
                     end) ;;
  let length := JS.shl (JS.shr requested 3) 3 in
  data <- randomBytes E (JS.shr length 3) ;;
  let key := mkKey HmacCryptoKey data
                   (Some (set_alg_name (set_alg_length algorithm length) HmacProvider_name))
                   extractable secret keyUsages None in
  value <- new_key key ;;
  setCryptoKey value.

(** ** Asymmetric key generation *)

(** The unsigned big-endian value of a byte string. *)
Definition be_to_Z (bytes : list Z) : Z :=
  fold_left (fun acc b => acc * 256 + b) bytes 0.

(** [buf.readInt32BE(0)] on a buffer of four bytes *)
Definition readInt32BE (buf : list Z) : Z := JS.toInt32 (be_to_Z (take 4 buf)).

(** [keyUsages.filter((usage) => allowed.indexOf(usage) !== -1)] *)
Definition filter_usages (allowed keyUsages : list string) : list string :=
  List.filter (fun usage => includes usage allowed) keyUsages.

Record InternalKeyPair : Type := mkInternalKeyPair {
  pair_privateKey : InternalCryptoKey;
  pair_publicKey : InternalCryptoKey
}.

Record CryptoKeyPair : Type := mkCryptoKeyPair {
  privateKey : Handle;
  publicKey : Handle
}.

(** A call into the engine's key-pair generator: it draws from the random
    generator. *)
Definition with_entropy {A} (f : nat -> Result A) : M A :=
  fun st => (f (entropy st),
             mkStore (heap st) (keyStorage st) (next_id st) (S (entropy st))).

Definition RsaCrypto_publicKeyUsages : list string := ["verify"; "encrypt"; "wrapKey"].
Definition RsaCrypto_privateKeyUsages : list string := ["sign"; "decrypt"; "unwrapKey"].

Definition RsaCrypto_generateKey (E : Engine) (algorithm : Algorithm)
    (extractable : bool) (keyUsages : list string) : M InternalKeyPair :=
  let privateUsages := filter_usages RsaCrypto_privateKeyUsages keyUsages in
  (* publicKey.extractable = true; *)
  let publicUsages := filter_usages RsaCrypto_publicKeyUsages keyUsages in
  exponentBytes <- lift (match alg_publicExponent algorithm with
                         | None => Throw (TypeError "Cannot read properties of undefined")
                         | Some e =>
                             if 4 - JS.len e <? 0
                             then Throw (RangeError (Buffer_alloc_message E (4 - JS.len e)))
                             else Ok (JS.alloc (4 - JS.len e) ++ e)
                         end) ;;
  let publicExponent := readInt32BE exponentBytes in
  keys <- with_entropy (fun n =>
            match alg_modulusLength algorithm with
            | Some modulusLength => generateKeyPairSync_rsa E n modulusLength publicExponent
            | None => Throw (TypeError "The modulusLength option is required")
            end) ;;
  ret (mkInternalKeyPair
         (mkKey RsaPrivateKey (fst keys) (Some algorithm) extractable private privateUsages None)
         (mkKey RsaPublicKey (snd keys) (Some algorithm) true public publicUsages None)).

(** [onGenerateKey] of RsaSsaProvider, RsaPssProvider, RsaOaepProvider and
    RsaEsProvider, which differ in [this.name] only. *)
Definition RsaProvider_onGenerateKey (E : Engine) (this_name : string)
    (algorithm : Algorithm) (extractable : bool) (keyUsages : list string)
  : M CryptoKeyPair :=
  keys <- RsaCrypto_generateKey E (set_alg_name algorithm this_name) extractable keyUsages ;;
  privateValue <- new_key (pair_privateKey keys) ;;
  publicValue <- new_key (pair_publicKey keys) ;;
  privateHandle <- setCryptoKey privateValue ;;
  publicHandle <- setCryptoKey publicValue ;;
  ret (mkCryptoKeyPair privateHandle publicHandle).

Definition RsaSsaProvider_onGenerateKey E := RsaProvider_onGenerateKey E "RSASSA-PKCS1-v1_5".
Definition RsaPssProvider_onGenerateKey E := RsaProvider_onGenerateKey E "RSA-PSS".
Definition RsaOaepProvider_onGenerateKey E := RsaProvider_onGenerateKey E "RSA-OAEP".
Definition RsaEsProvider_onGenerateKey E := RsaProvider_onGenerateKey E "RSAES-PKCS1-v1_5".

Definition EcCrypto_publicKeyUsages : list string := ["verify"].
Definition EcCrypto_privateKeyUsages : list string := ["sign"; "deriveKey"; "deriveBits"].

Definition EcCrypto_getOpenSSLNamedCurve (curve : string) : Result string :=
  let upper := toUpperCase curve in
  if (upper =? "P-256")%string then Ok "prime256v1"
  else if (upper =? "K-256")%string then Ok "secp256k1"
  else if (upper =? "P-384")%string then Ok "secp384r1"
  else if (upper =? "P-521")%string then Ok "secp521r1"
  else Throw (OperationError
                ("Cannot convert WebCrypto named curve to NodeJs. Unknown name '"
                 ++ curve ++ "'")%string).

Definition EcCrypto_generateKey (E : Engine) (algorithm : Algorithm)
    (extractable : bool) (keyUsages : list string) : M InternalKeyPair :=
  let privateUsages := filter_usages EcCrypto_privateKeyUsages keyUsages in
  let publicUsages := filter_usages EcCrypto_publicKeyUsages keyUsages in
  namedCurve <- lift (match alg_namedCurve algorithm with
                      | None => Throw (TypeError "Cannot read properties of undefined")
                      | Some c => EcCrypto_getOpenSSLNamedCurve c
                      end) ;;
  keys <- with_entropy (fun n => generateKeyPairSync_ec E n namedCurve) ;;
  ret (mkInternalKeyPair
         (mkKey EcPrivateKey (fst keys) (Some algorithm) extractable private privateUsages None)
         (mkKey EcPublicKey (snd keys) (Some algorithm) true public publicUsages None)).

(** [onGenerateKey] of EcdsaProvider and EcdhProvider. *)
Definition EcProvider_onGenerateKey (E : Engine) (this_name : string)
    (algorithm : Algorithm) (extractable : bool) (keyUsages : list string)
  : M CryptoKeyPair :=
  keys <- EcCrypto_generateKey E (set_alg_name algorithm this_name) extractable keyUsages ;;
  privateValue <- new_key (pair_privateKey keys) ;;
  publicValue <- new_key (pair_publicKey keys) ;;
  privateHandle <- setCryptoKey privateValue ;;
  publicHandle <- setCryptoKey publicValue ;;
  ret (mkCryptoKeyPair privateHandle publicHandle).

Definition EcdsaProvider_onGenerateKey E := EcProvider_onGenerateKey E "ECDSA".
Definition EcdhProvider_onGenerateKey E := EcProvider_onGenerateKey E "ECDH".

Definition EdCrypto_publicKeyUsages : list string := ["verify"].
Definition EdCrypto_privateKeyUsages : list string := ["sign"; "deriveKey"; "deriveBits"].

Definition EdCrypto_generateKey (E : Engine) (algorithm : Algorithm)
    (extractable : bool) (keyUsages : list string) : M InternalKeyPair :=
  let privateUsages := filter_usages EdCrypto_privateKeyUsages keyUsages in
  let publicUsages := filter_usages EdCrypto_publicKeyUsages keyUsages in
  type <- lift (match alg_namedCurve algorithm with
                | None => Throw (TypeError "Cannot read properties of undefined")
                | Some c => Ok (toLowerCase c)
                end) ;;
  keys <- with_entropy (fun n => generateKeyPairSync_ed E n type) ;;
  ret (mkInternalKeyPair
         (mkKey EdPrivateKey (fst keys) (Some algorithm) extractable private privateUsages None)
         (mkKey EdPublicKey (snd keys) (Some algorithm) true public publicUsages None)).

(** [namedCurve.replace(/^ed/i, "Ed")] *)
Definition replace_ed_prefix (s : string) : string :=
  match s with
  | String c1 (String c2 rest) =>
      if Ascii.eqb (lower_ascii c1) "e"%char && Ascii.eqb (lower_ascii c2) "d"%char
      then String "E"%char (String "d"%char rest) else s
  | _ => s
  end.

(** [onGenerateKey] of EdDsaProvider ([curve] is [replace_ed_prefix]) and
    of EcdhEsProvider ([curve] is [toUpperCase]); the algorithm handed to
    the engine is [{ name: this.name, namedCurve }]. *)
Definition EdProvider_onGenerateKey (E : Engine) (this_name : string)
    (curve : string -> string) (algorithm : Algorithm) (extractable : bool)
    (keyUsages : list string) : M CryptoKeyPair :=
  namedCurve <- lift (match alg_namedCurve algorithm with
                      | None => Throw (TypeError "Cannot read properties of undefined")
                      | Some c => Ok (curve c)
                      end) ;;
  keys <- EdCrypto_generateKey E
            (mkAlgorithm this_name None None (Some namedCurve) None None)
            extractable keyUsages ;;
  privateValue <- new_key (pair_privateKey keys) ;;
  publicValue <- new_key (pair_publicKey keys) ;;
  privateHandle <- setCryptoKey privateValue ;;
  publicHandle <- setCryptoKey publicValue ;;
  ret (mkCryptoKeyPair privateHandle publicHandle).

Definition EdDsaProvider_onGenerateKey E := EdProvider_onGenerateKey E "EdDSA" replace_ed_prefix.
Definition EcdhEsProvider_onGenerateKey E := EdProvider_onGenerateKey E "ECDH-ES" toUpperCase.

(** ** AES-CMAC (aes-cmac.ts) *)

Definition zero : list Z := [0; 0; 0; 0; 0; 0; 0; 0; 0; 0; 0; 0; 0; 0; 0; 0].
Definition rb : list Z := [0; 0; 0; 0; 0; 0; 0; 0; 0; 0; 0; 0; 0; 0; 0; 135].
Definition blockSize : Z := 16.

Definition bitShiftLeft (buffer : list Z) : list Z :=
  let shifted := JS.alloc (JS.len buffer) in
  let last := JS.len buffer - 1 in
  let shifted :=
    JS.for_loop 0 last
      (fun index shifted =>
         let shifted := JS.set shifted index (JS.shl (JS.get buffer index) 1) in
         if JS.band (JS.get buffer (index + 1)) 128 =? 0 then shifted
         else JS.set shifted index (JS.get shifted index + 1))
      shifted in
  JS.set shifted last (JS.shl (JS.get buffer last) 1).

Definition xor (a b : list Z) : list Z :=
  let length := Z.min (JS.len a) (JS.len b) in
  JS.for_loop 0 length
    (fun index output => JS.set output index (JS.bxor (JS.get a index) (JS.get b index)))
    (JS.alloc length).

Definition aes (E : Engine) (key message : list Z) : Result (list Z) :=
  AES_encrypt E (JS.shl (JS.len key) 3) key message.

Definition getMessageBlock (message : list Z) (blockIndex : Z) : Result (list Z) :=
  let block := JS.alloc blockSize in
  let start := blockIndex * blockSize in
  let end_ := start + blockSize in
  JS.copy message block start end_.

Definition getPaddedMessageBlock (message : list Z) (blockIndex : Z) : Result (list Z) :=
  let block := JS.alloc blockSize in
  let start := blockIndex * blockSize in
  let end_ := JS.len message in
  block <~ JS.copy message block start end_ ;;
  Ok (JS.set block (end_ - start) 128).

Definition generateSubkeys (E : Engine) (key : list Z) : Result (list Z * list Z) :=
  l <~ aes E key zero ;;
  let subkey1 := bitShiftLeft l in
  let subkey1 := if JS.band (JS.get l 0) 128 =? 0 then subkey1 else xor subkey1 rb in
  let subkey2 := bitShiftLeft subkey1 in
  let subkey2 := if JS.band (JS.get subkey1 0) 128 =? 0 then subkey2 else xor subkey2 rb in
  Ok (subkey1, subkey2).

Definition aesCmac (E : Engine) (key message : list Z) : Result (list Z) :=
  subkeys <~ generateSubkeys E key ;;
  let blockCount := JS.ceil_div (JS.len message) blockSize in
  let '(blockCount, lastBlockCompleteFlag) :=
    if blockCount =? 0 then (1, false)
    else (blockCount, JS.len message mod blockSize =? 0) in
  let lastBlockIndex := blockCount - 1 in
  lastBlock <~ (if lastBlockCompleteFlag : bool
                then block <~ getMessageBlock message lastBlockIndex ;;
                     Ok (xor block (fst subkeys))
                else block <~ getPaddedMessageBlock message lastBlockIndex ;;
                     Ok (xor block (snd subkeys))) ;;
  x <~ JS.for_loopR 0 lastBlockIndex
         (fun index x =>
            block <~ getMessageBlock message index ;;
            let y := xor x block in
            aes E key y)
         zero ;;
  let y := xor lastBlock x in
  aes E key y.

Definition AesCmacProvider_onSign (E : Engine) (algorithm : Algorithm) (key : Handle)
    (data : list Z) : M (list Z) :=
  value <- getCryptoKey key ;;
  v <- deref value ;;
  lift (aesCmac E (key_data v) data).

(** ** AES-CMAC as RFC 4493 words it

    The reference the code is compared with: subkeys by a one-bit left
    shift of the 128-bit value and a conditional XOR with 0x87, the message
    cut into 16-byte blocks, the final block masked, and a CBC chain from a
    zero IV.  The reference asks the engine's cipher for its block
    encryptions itself; it uses none of the functions of the code above. *)

Module RFC4493.

(** The [n] big-endian bytes of [v]. *)
Fixpoint Z_to_be (n : nat) (v : Z) : list Z :=
  match n with
  | O => []
  | S k => (v / 256 ^ Z.of_nat k) mod 256 :: Z_to_be k v
  end.

(** [leftshift1(L)], xor-ed with 0x...87 when the top bit of [L] is set. *)
Definition subkey (L : list Z) : list Z :=
  let v := be_to_Z L in
  let shifted := (v * 2) mod 2 ^ 128 in
  Z_to_be 16 (if Z.testbit v 127 then Z.lxor shifted 135 else shifted).

Definition xor_block (a b : list Z) : list Z := zip_with Z.lxor a b.

(** The message in 16-byte blocks; the last one may be short. *)
Fixpoint chunks (fuel : nat) (m : list Z) : list (list Z) :=
  match fuel with
  | O => []
  | S fuel' =>
      match m with
      | [] => []
      | _ => take 16 m :: chunks fuel' (drop 16 m)
      end
  end.

(** An empty message counts as one (empty) block. *)
Definition blocks (m : list Z) : list (list Z) :=
  match m with
  | [] => [[]]
  | _ => chunks (length m) m
  end.

(** A single 0x80 byte, then zeros up to the block size. *)
Definition pad (block : list Z) : list Z :=
  block ++ [128] ++ replicate (15 - length block) 0.

(** [AES(K, M)]: the block [M] encrypted under [K] by the engine's
    cipher, with the key size in bits that the length of [K] gives. *)
Definition AES (E : Engine) (K M : list Z) : Result (list Z) :=
  AES_encrypt E (8 * Z.of_nat (length K)) K M.

(** CBC chaining from the running value [x]; the result is the last
    ciphertext block. *)
Fixpoint cbc (E : Engine) (key x : list Z) (bs : list (list Z)) : Result (list Z) :=
  match bs with
  | [] => Ok x
  | b :: bs' => c <~ AES E key (xor_block x b) ;; cbc E key c bs'
  end.

Definition cmac (E : Engine) (key message : list Z) : Result (list Z) :=
  L <~ AES E key (replicate 16 0) ;;
  let subkey1 := subkey L in
  let subkey2 := subkey subkey1 in
  let bs := blocks message in
  let final := List.last bs [] in
  let masked :=
    if (length final =? 16)%nat then xor_block final subkey1
    else xor_block (pad final) subkey2 in
  cbc E key (replicate 16 0) (removelast bs ++ [masked]).

End RFC4493.

(** ** Byte strings *)

(** A value that a buffer cell can hold. *)
Definition byte (b : Z) : Prop := 0 <= b < 256.

(** The primitive engine's AES: for a key of 16, 24 or 32 bytes a block of
    16 bytes is encrypted to a block of 16 bytes. *)
Definition aes_engine_ok (E : Engine) : Prop :=
  forall key m,
    In (JS.len key) [16; 24; 32] -> length m = 16%nat -> Forall byte m ->
    exists c, AES_encrypt E (8 * JS.len key) key m = Ok c /\
              length c = 16%nat /\ Forall byte c.

(** [bitShiftLeft] cell by cell: each byte doubled modulo 256, plus the top
    bit of the byte that follows it. *)
Fixpoint shift_bytes (l : list Z) : list Z :=
  match l with
  | [] => []
  | b :: rest => (2 * b) mod 256 + default 0 (head rest) / 128 :: shift_bytes rest
  end.

(** ** RSA-OAEP decryption *)

Definition ShaCrypto_size (name : string) : Result Z :=
  let upper := toUpperCase name in
  if (upper =? "SHA-1")%string then Ok 160
  else if (upper =? "SHA-256")%string then Ok 256
  else if (upper =? "SHA-384")%string then Ok 384
  else if (upper =? "SHA-512")%string then Ok 512
  else Throw (Error "Unrecognized name").

(** [mgf1(algorithm, seed, length)] with [algorithm = { name }]. *)
Definition mgf1 (E : Engine) (name : string) (seed : list Z) (length : Z)
  : Result (list Z) :=
  size <~ ShaCrypto_size name ;;
  let hashSize := JS.shr size 3 in
  let mask := JS.alloc length in
  let counter := JS.alloc 4 in
  let chunks := JS.ceil_div length hashSize in
  Ok (fst (JS.for_loop 0 chunks
             (fun i '(mask, counter) =>
                let counter := JS.set counter 0 (JS.ushr i 24) in
                let counter := JS.set counter 1 (JS.band (JS.ushr i 16) 255) in
                let counter := JS.set counter 2 (JS.band (JS.ushr i 8) 255) in
                let counter := JS.set counter 3 (JS.band i 255) in
                let submask := JS.slice_from mask (i * hashSize) in
                let chunk := createHash E (replace_dash name) (seed ++ counter) in
                let chunk := if JS.len submask <? JS.len chunk
                             then JS.slice chunk 0 (JS.len submask) else chunk in
                (JS.set_at mask chunk (i * hashSize), counter))
             (mask, counter))).

(** [for (let i = 0; i < a.length; i++) a[i] ^= mask[i]] *)
Definition xor_in_place (a mask : list Z) : list Z :=
  JS.for_loop 0 (JS.len a)
    (fun i a => JS.set a i (JS.bxor (JS.get a i) (JS.get mask i))) a.

(** The two unmasking steps of [onDecrypt]: the seed and the data block
    recovered from the decrypted block. *)
Definition oaep_unmask (E : Engine) (hashName : string) (hashSize : Z) (pkcs0 : list Z)
  : Result (list Z * list Z) :=
  let seed := JS.slice pkcs0 1 (hashSize + 1) in
  let dataBlock := JS.slice_from pkcs0 (hashSize + 1) in
  seedMask <~ mgf1 E hashName dataBlock (JS.len seed) ;;
  let seed := xor_in_place seed seedMask in
  dataBlockMask <~ mgf1 E hashName seed (JS.len dataBlock) ;;
  let dataBlock := xor_in_place dataBlock dataBlockMask in
  Ok (seed, dataBlock).

(** [labelHash[i] !== dataBlock[i]] for some [i < hashSize] *)
Definition label_mismatch (labelHash dataBlock : list Z) (hashSize : Z) : bool :=
  existsb (fun i => negb (bool_decide (JS.at_ labelHash i = JS.at_ dataBlock i)))
          (seqZ 0 hashSize).

(** One turn of the scan for the 0x01 delimiter.  The loop state is [None]
    while the scan runs, [Some (Ok psEnd)] after the [break] and
    [Some (Throw _)] after the [throw]. *)
Definition scan_step (dataBlock : list Z) (state : option (Result Z)) (psEnd : Z)
  : option (Result Z) :=
  match state with
  | Some r => Some r
  | None =>
      match JS.at_ dataBlock psEnd with
      | Some 1 => Some (Ok psEnd)
      | Some 0 => None
      | _ => Some (Throw (Error "Decryption failed"))
      end
  end.

(** [for (; psEnd < dataBlock.length; psEnd++) { ... }] from
    [psEnd = hashSize]; the result is the final [psEnd]. *)
Definition scan_delimiter (dataBlock : list Z) (hashSize : Z) : Result Z :=
  match JS.for_loop hashSize (JS.len dataBlock)
          (fun psEnd state => scan_step dataBlock state psEnd) None with
  | Some r => r
  | None => Ok (Z.max hashSize (JS.len dataBlock))
  end.

(** Lines 1140-1176 of [onDecrypt]: everything after the private-key
    operation. *)
Definition oaep_unpad (E : Engine) (hashName : string) (hashSize : Z)
    (label : option (list Z)) (pkcs0 : list Z) : Result (list Z) :=
  let z := JS.at_ pkcs0 0 in
  if negb (bool_decide (z = Some 0)) then Throw (Error "Decryption failed")
  else
    unmasked <~ oaep_unmask E hashName hashSize pkcs0 ;;
    let dataBlock := snd unmasked in
    let labelHash := createHash E (replace_dash hashName) (default [] label) in
    if label_mismatch labelHash dataBlock hashSize then Throw (Error "Decryption failed")
    else
      psEnd <~ scan_delimiter dataBlock hashSize ;;
      if psEnd =? JS.len dataBlock then Throw (Error "Decryption failed")
      else Ok (JS.slice_from dataBlock (psEnd + 1)).

(** [if (!internalKey.pem) internalKey.pem = ...], on the shared object. *)
Definition cache_pem (E : Engine) (kind : string) (value : ref) : M string :=
  fun st =>
    match heap st !! value with
    | None => (Throw (TypeError "Cannot read properties of undefined"), st)
    | Some v =>
        if negb (default "" (key_pem v) =? "")%string
        then (Ok (default "" (key_pem v)), st)
        else
          let pem := ("-----BEGIN " ++ kind ++ " KEY-----" ++ newline
                      ++ toBase64 E (key_data v) ++ newline
                      ++ "-----END " ++ kind ++ " KEY-----")%string in
          (Ok pem,
           mkStore (<[ value := mkKey (key_class v) (key_data v) (key_algorithm v)
                                      (key_extractable v) (key_type v) (key_usages v)
                                      (Some pem) ]> (heap st))
                   (keyStorage st) (next_id st) (entropy st))
    end.

(** The parameters of the RSA-OAEP operations: [{ label }]. *)
Record RsaOaepParams : Type := mkRsaOaepParams {
  oaep_label : option (list Z)
}.

(** [crypto.randomFillSync(seed)] *)
Definition randomFillSync (E : Engine) (seed : list Z) : M (list Z) :=
  fun st =>
    (Ok (map (fun i => JS.toUint8 (random_byte E (entropy st) i)) (seq 0 (length seed))),
     mkStore (heap st) (keyStorage st) (next_id st) (S (entropy st))).

Definition RsaOaepProvider_onEncrypt (E : Engine) (algorithm : RsaOaepParams)
    (key : Handle) (data : list Z) : M (list Z) :=
  internalKey <- getCryptoKey key ;;
  v <- deref internalKey ;;
  keyAlgorithm <- lift (match key_algorithm v with
                        | Some a => Ok a
                        | None => Throw (TypeError "Cannot read properties of undefined")
                        end) ;;
  let keySize := JS.shr (default 0 (alg_modulusLength keyAlgorithm)) 3 in
  hashName <- lift (match alg_hash keyAlgorithm with
                    | Some h => Ok h
                    | None => Throw (TypeError "Cannot read properties of undefined")
                    end) ;;
  size <- lift (ShaCrypto_size hashName) ;;
  let hashSize := JS.shr size 3 in
  let dataLength := JS.len data in
  let psLength := keySize - dataLength - 2 * hashSize - 2 in
  if keySize - 2 * hashSize - 2 <? dataLength then throw (Error "Data too large")
  else
    (* message = 0x00 | seed | dataBlock, the last two being views on it *)
    let message := JS.alloc keySize in
    let seed := JS.slice message 1 (hashSize + 1) in
    let dataBlock := JS.slice_from message (hashSize + 1) in
    let dataBlock := JS.set_at dataBlock data (hashSize + psLength + 1) in
    let labelHash := createHash E (replace_dash hashName)
                       (default [] (oaep_label algorithm)) in
    let dataBlock := JS.set_at dataBlock labelHash 0 in
    let dataBlock := JS.set dataBlock (hashSize + psLength) 1 in
    seed <- randomFillSync E seed ;;
    dataBlockMask <- lift (mgf1 E hashName seed (JS.len dataBlock)) ;;
    let dataBlock := xor_in_place dataBlock dataBlockMask in
    seedMask <- lift (mgf1 E hashName dataBlock (JS.len seed)) ;;
    let seed := xor_in_place seed seedMask in
    pem <- cache_pem E "PUBLIC" internalKey ;;
    lift (publicEncrypt_no_padding E pem (JS.slice message 0 1 ++ seed ++ dataBlock)).

Definition RsaOaepProvider_onDecrypt (E : Engine) (algorithm : RsaOaepParams)
    (key : Handle) (data : list Z) : M (list Z) :=
  internalKey <- getCryptoKey key ;;
  v <- deref internalKey ;;
  keyAlgorithm <- lift (match key_algorithm v with
                        | Some a => Ok a
                        | None => Throw (TypeError "Cannot read properties of undefined")
                        end) ;;
  (* Math.ceil(internalKey.algorithm.modulusLength >> 3) *)
  let keySize := JS.shr (default 0 (alg_modulusLength keyAlgorithm)) 3 in
  hashName <- lift (match alg_hash keyAlgorithm with
                    | Some h => Ok h
                    | None => Throw (TypeError "Cannot read properties of undefined")
                    end) ;;
  size <- lift (ShaCrypto_size hashName) ;;
  let hashSize := JS.shr size 3 in
  let dataLength := JS.len data in
  if negb (dataLength =? keySize) then throw (Error "Bad data")
  else
    pem <- cache_pem E "PRIVATE" internalKey ;;
    pkcs0 <- lift (privateDecrypt_no_padding E pem data) ;;
    lift (oaep_unpad E hashName hashSize (oaep_label algorithm) pkcs0).

(** ** ECDSA verification *)

Definition EcCrypto_getPointSize (namedCurve : option string) : Result Z :=
  let name := default "undefined" namedCurve in
  if (name =? "P-256")%string || (name =? "K-256")%string then Ok 32
  else if (name =? "P-384")%string then Ok 48
  else if (name =? "P-521")%string then Ok 66
  else Throw (Error ("Cannot get size for the named curve '" ++ name ++ "'")%string).

(** [removePadding(bytes)] for a [Uint8Array], which is what [verify]
    passes ([signature.slice(..)] of a [Uint8Array]): the loop skips zero
    bytes, [bytes.slice(i)] copies the rest from the first non-zero byte on
    and [.buffer] is that copy.  ([EcCrypto_removePadding_view] below is
    the function on any byte view, a Node [Buffer] included.) *)
Fixpoint EcCrypto_removePadding (bytes : list Z) : list Z :=
  match bytes with
  | [] => []
  | b :: rest => if b =? 0 then EcCrypto_removePadding rest else bytes
  end.

(** The parameters of sign and verify: [{ hash: { name } }]. *)
Record EcdsaParams : Type := mkEcdsaParams {
  ecdsa_hash : option string
}.

Definition EcCrypto_verify (E : Engine) (algorithm : EcdsaParams) (key : ref)
    (signature data : list Z) : M bool :=
  cryptoAlg <- lift (match ecdsa_hash algorithm with
                     | Some h => Ok (replace_dash h)
                     | None => Throw (TypeError "Cannot read properties of undefined")
                     end) ;;
  _ <- lift (createVerify E cryptoAlg) ;;
  pem <- cache_pem E "PUBLIC" key ;;
  v <- deref key ;;
  keyAlgorithm <- lift (match key_algorithm v with
                        | Some a => Ok a
                        | None => Throw (TypeError "Cannot read properties of undefined")
                        end) ;;
  pointSize <- lift (EcCrypto_getPointSize (alg_namedCurve keyAlgorithm)) ;;
  let r := EcCrypto_removePadding (JS.slice signature 0 pointSize) in
  let s := EcCrypto_removePadding (JS.slice signature pointSize (pointSize + pointSize)) in
  let ecSignatureRaw := serialize_EcDsaSignature E r s in
  lift (verifier_verify E cryptoAlg data pem ecSignatureRaw).

Definition EcdsaProvider_onVerify (E : Engine) (algorithm : EcdsaParams) (key : Handle)
    (signature data : list Z) : M bool :=
  value <- getCryptoKey key ;;
  EcCrypto_verify E algorithm value signature data.

(** ** HKDF *)

(** The parameters of deriveBits: [{ hash: { name }, salt, info }]. *)
Record HkdfParams : Type := mkHkdfParams {
  hkdf_hash : string;
  hkdf_salt : list Z;
  hkdf_info : list Z
}.

(** [length] is the requested number of bits.  [byteLength = length / 8]
    is a JavaScript number; [Math.ceil(byteLength / hashLength)] is
    computed here as the ceiling of [length / (8 * hashLength)] and the end
    of the [slice] as the integer part of [length / 8]. *)
Definition HkdfProvider_onDeriveBits (E : Engine) (params : HkdfParams)
    (baseKey : Handle) (length : Z) : M (list Z) :=
  let hash := replace_dash (hkdf_hash params) in
  let hashLength := JS.len (createHash E hash []) in
  let info := hkdf_info params in
  value <- getCryptoKey baseKey ;;
  v <- deref value ;;
  let PRK := createHmac E hash (hkdf_salt params) (key_data v) in
  let blocks := [JS.alloc 0] in
  let blockCount := JS.ceil_div length (8 * hashLength) + 1 in
  let blocks :=
    JS.for_loop 1 blockCount
      (fun i (blocks : list (list Z)) =>
         blocks ++ [createHmac E hash PRK
                      (default [] (blocks !! Z.to_nat (i - 1)) ++ info ++ [JS.toUint8 i])])
      blocks in
  ret (JS.slice (concat blocks) 0 (length / 8)).

(** ** HKDF as RFC 5869 words it *)

Module RFC5869.

(** [byte(i)]: the counter as one octet. *)
Definition byte (i : nat) : Z := Z.of_nat i mod 256.

(** [T(0) = empty], [T(i) = HMAC(PRK, T(i-1) ‖ info ‖ byte(i))]. *)
Fixpoint T (E : Engine) (hash : string) (PRK info : list Z) (i : nat) : list Z :=
  match i with
  | O => []
  | S j => createHmac E hash PRK (T E hash PRK info j ++ info ++ [byte i])
  end.

(** [T(1) ‖ T(2) ‖ ... ‖ T(n)] for [n = ⌈byteLength / hashLen⌉], cut to
    [byteLength] bytes. *)
Definition hkdf (E : Engine) (hash : string) (salt secret info : list Z)
    (byteLength hashLen : nat) : list Z :=
  let PRK := createHmac E hash salt secret in
  let n := ((byteLength + hashLen - 1) / hashLen)%nat in
  take byteLength (concat (map (T E hash PRK info) (seq 1 n))).

End RFC5869.

(** ** What the spec asks of a generated key pair *)

Definition private_legal_usages : list string :=
  ["sign"; "decrypt"; "unwrapKey"; "deriveKey"; "deriveBits"].
Definition public_legal_usages : list string := ["verify"; "encrypt"; "wrapKey"].

(** The public key is extractable and each key's usages are the requested
    usages that lie in the key's legal set, itself within the sets the
    spec names. *)
Definition generated_pair_ok (privateUsages publicUsages requested : list string)
    (keys : CryptoKeyPair) : Prop :=
  handle_extractable (publicKey keys) = true /\
  (forall u, In u (handle_usages (privateKey keys)) <-> In u requested /\ In u privateUsages) /\
  (forall u, In u (handle_usages (publicKey keys)) <-> In u requested /\ In u publicUsages) /\
  incl privateUsages private_legal_usages /\
  incl publicUsages public_legal_usages.

(** ** A small engine to run the definitions on

    The functions below are stand-ins with the shapes of the primitives (a
    16-byte block function for key sizes 128, 192 and 256, digests of the
    usual lengths, a verifier that accepts one fixed signature); they are
    used to evaluate the embedding on concrete inputs. *)

Module TestEngine.

Definition block (key message : list Z) : list Z :=
  take 16 (map (fun b => (b * 7 + 3 + JS.len key + default 0 (head key)) mod 256) message
           ++ replicate 16 0).

Definition aes_encrypt (bits : Z) (key message : list Z) : Result (list Z) :=
  if (bits =? 128) || (bits =? 192) || (bits =? 256) then Ok (block key message)
  else Throw (EngineError "Unknown cipher").

Definition digest_length (name : string) : nat :=
  if (name =? "SHA1")%string then 20
  else if (name =? "SHA256")%string then 32
  else if (name =? "SHA384")%string then 48
  else if (name =? "SHA512")%string then 64
  else 4.

Definition hash (name : string) (data : list Z) : list Z :=
  map (fun i => (fold_left Z.add data 0 * 31 + Z.of_nat i * 17 + 5) mod 256)
      (seq 0 (digest_length (toUpperCase name))).

Definition hmac (name : string) (key data : list Z) : list Z :=
  hash name (key ++ [JS.len key] ++ data).

(** The DER form is stood in for by [r], a separator and [s]. *)
Definition serialize (r s : list Z) : list Z := r ++ [256] ++ s.

(** Accepts exactly the signature with [r = [1]] and [s = [2]]. *)
Definition verify (name : string) (data : list Z) (pem : string) (sig : list Z)
  : Result bool :=
  Ok (bool_decide (sig = [1; 256; 2])).

Definition engine : Engine :=
  mkEngine
    (fun _ keyData => match keyData with
                      | Jwk _ => Ok [1; 2; 3; 4; 5; 6; 7; 8]
                      | BufferSource _ => Throw (Error "JSON does not match the schema")
                      end)
    aes_encrypt
    hash
    hmac
    (fun n i => Z.of_nat (n * 13 + i * 7))
    (fun _ => "AA==")
    (fun _ data => Ok data)
    (fun _ data => Ok data)
    serialize
    (fun _ => Ok tt)
    verify
    (fun _ _ _ => Ok ([48; 1], [48; 2]))
    (fun _ _ => Ok ([48; 3], [48; 4]))
    (fun _ _ => Ok ([48; 5], [48; 6]))
    (fun _ => Ok 512)
    (fun _ => "The argument 'size' is invalid").

End TestEngine.

Definition key16 : list Z := [43; 126; 21; 22; 40; 174; 210; 166; 171; 247; 21; 136; 9; 207; 79; 60].

(** ** Concrete inputs used by the examples *)

Definition hkdf_material : InternalCryptoKey :=
  mkKey HkdfCryptoKey [1; 2; 3] (Some (algorithm_named "HKDF")) false secret
        ["deriveBits"] None.

(** A store holding one key-material object that no handle names yet. *)
Definition store_with_material : Store := snd (new_key hkdf_material empty_store).

(** A handle that lost its registry entry and carries no copy. *)
Definition orphan_handle : Handle :=
  mkHandle 5 (Some (algorithm_named "HKDF")) secret false ["deriveBits"] None.

(** A handle restored from persistence: unknown to the registry, with the
    material object it was saved with. *)
Definition restored_handle : Handle :=
  mkHandle 7 (Some (algorithm_named "HKDF")) secret false ["deriveBits"] (Some 1%positive).

Definition rsa_request : Algorithm :=
  mkAlgorithm "RSA-OAEP" None (Some "SHA-256") None (Some [1; 0; 1]) (Some 2048).
Definition ec_request : Algorithm :=
  mkAlgorithm "ECDSA" None None (Some "P-256") None None.
Definition ed_request : Algorithm :=
  mkAlgorithm "EdDSA" None None (Some "ed25519") None None.
Definition requested_usages : list string :=
  ["sign"; "verify"; "encrypt"; "decrypt"; "deriveBits"].

(** An RSA-OAEP private key with a 512-bit modulus and SHA-1, registered
    under a handle. *)
Definition rsa_private_material : InternalCryptoKey :=
  mkKey RsaPrivateKey [48; 130; 1; 34]
        (Some (mkAlgorithm "RSA-OAEP" None (Some "SHA-1") None (Some [1; 0; 1]) (Some 512)))
        false private ["decrypt"] None.

Definition rsa_store : Store := mkStore {[ 1%positive := rsa_private_material ]}
                                        {[ 2%positive := 1%positive ]} 3%positive 0%nat.

Definition rsa_private_handle : Handle :=
  mkHandle 2 (key_algorithm rsa_private_material) private false ["decrypt"]
           (Some 1%positive).

(** An ECDSA P-256 public key, registered under a handle. *)
Definition ec_public_material : InternalCryptoKey :=
  mkKey EcPublicKey [48; 89; 48; 19]
        (Some (mkAlgorithm "ECDSA" None None (Some "P-256") None None))
        true public ["verify"] None.

Definition ec_store : Store := mkStore {[ 1%positive := ec_public_material ]}
                                       {[ 2%positive := 1%positive ]} 3%positive 0%nat.

Definition ec_public_handle : Handle :=
  mkHandle 2 (key_algorithm ec_public_material) public true ["verify"] (Some 1%positive).

(** The 64 bytes [r ‖ s] with [r = 1] and [s = 2], and the same followed by
    one more byte. *)
Definition raw_signature : list Z := replicate 31 0 ++ [1] ++ replicate 31 0 ++ [2].
Definition long_signature : list Z := raw_signature ++ [99].

Definition hkdf_request : HkdfParams := mkHkdfParams "SHA-1" [9; 9] [7; 7].

(** An AES-CMAC key of 128 bits, registered under a handle, and a message
    of two blocks and a half. *)
Definition aes_material : InternalCryptoKey :=
  mkKey AesCryptoKey key16
        (Some (mkAlgorithm "AES-CMAC" (Some 128) None None None None))
        true secret ["sign"; "verify"] None.

Definition aes_store : Store := mkStore {[ 1%positive := aes_material ]}
                                        {[ 2%positive := 1%positive ]} 3%positive 0%nat.

Definition aes_handle : Handle :=
  mkHandle 2 (key_algorithm aes_material) secret true ["sign"; "verify"] (Some 1%positive).

Definition cmac_message : list Z := map Z.of_nat (seq 0 40).

(** The public half of the RSA-OAEP key above, registered in the same
    store under its own handle. *)
Definition rsa_public_material : InternalCryptoKey :=
  mkKey RsaPublicKey [48; 92; 48; 13]
        (Some (mkAlgorithm "RSA-OAEP" None (Some "SHA-1") None (Some [1; 0; 1]) (Some 512)))
        true public ["encrypt"] None.

Definition rsa_pair_store : Store :=
  mkStore {[ 1%positive := rsa_private_material; 3%positive := rsa_public_material ]}
          {[ 2%positive := 1%positive; 4%positive := 3%positive ]} 5%positive 0%nat.

Definition rsa_public_handle : Handle :=
  mkHandle 4 (key_algorithm rsa_public_material) public true ["encrypt"]
           (Some 3%positive).

(** * Further functions of the provider layer *)

(** ** Key export *)

(** What [exportKey] hands back: the raw bytes or a JSON Web Key. *)
Inductive Exported : Type :=
| ExportedBuffer (bytes : list Z)
| ExportedJwk (jwk : JsonWebKey).

(** [JsonSerializer.toJSON(key)] of @peculiar/json-schema, an external
    collaborator like the entries of [Engine]. *)
Record Serializer : Type := mkSerializer {
  JsonSerializer_toJSON : InternalCryptoKey -> Result JsonWebKey
}.

Definition AesCrypto_exportKey (J : Serializer) (format : string) (key : InternalCryptoKey)
  : Result Exported :=
  match key_class key with
  | AesCryptoKey =>
      if (toLowerCase format =? "jwk")%string then
        jwk <~ JsonSerializer_toJSON J key ;; Ok (ExportedJwk jwk)
      else if (toLowerCase format =? "raw")%string then Ok (ExportedBuffer (key_data key))
      else Throw (OperationError "format: Must be 'jwk' or 'raw'")
  | _ => Throw (Error "key: Is not AesCryptoKey")
  end.

(** [onExportKey] of the six AES providers. *)
Definition AesProvider_onExportKey (J : Serializer) (format : string) (key : Handle)
  : M Exported :=
  value <- getCryptoKey key ;;
  v <- deref value ;;
  lift (AesCrypto_exportKey J format v).

Definition DesCrypto_exportKey (J : Serializer) (format : string) (key : InternalCryptoKey)
  : Result Exported :=
  if (toLowerCase format =? "jwk")%string then
    jwk <~ JsonSerializer_toJSON J key ;; Ok (ExportedJwk jwk)
  else if (toLowerCase format =? "raw")%string then Ok (ExportedBuffer (key_data key))
  else Throw (OperationError "format: Must be 'jwk' or 'raw'").

(** [onExportKey] of DesCbcProvider and DesEde3CbcProvider. *)
Definition DesProvider_onExportKey (J : Serializer) (format : string) (key : Handle)
  : M Exported :=
  value <- getCryptoKey key ;;
  v <- deref value ;;
  lift (DesCrypto_exportKey J format v).

(** [HmacProvider.onExportKey]: the registry is consulted inside the two
    cases, not before the switch. *)
Definition HmacProvider_onExportKey (J : Serializer) (format : string) (key : Handle)
  : M Exported :=
  if (toLowerCase format =? "jwk")%string then
    value <- getCryptoKey key ;;
    v <- deref value ;;
    lift (jwk <~ JsonSerializer_toJSON J v ;; Ok (ExportedJwk jwk))
  else if (toLowerCase format =? "raw")%string then
    value <- getCryptoKey key ;;
    v <- deref value ;;
    ret (ExportedBuffer (key_data v))
  else throw (OperationError "format: Must be 'jwk' or 'raw'").

(** ** Symmetric key generation and the remaining imports *)





Definition HmacProvider_onImportKey (E : Engine) (format : string) (keyData : KeyData)
    (algorithm : Algorithm) (extractable : bool) (keyUsages : list string) : M Handle :=
  data <- lift (if toLowerCase format =? "jwk" then JsonParser_fromJSON E HmacCryptoKey keyData
                else if toLowerCase format =? "raw" then Buffer_from keyData
                else Throw (OperationError "format: Must be 'jwk' or 'raw'"))%string ;;
  hashName <- lift (match alg_hash algorithm with
                    | Some h => Ok h
                    | None => Throw (TypeError "Cannot read properties of undefined")
                    end) ;;
  let key := mkKey HmacCryptoKey data
                   (Some (mkAlgorithm HmacProvider_name (Some (JS.shl (JS.len data) 3))
                                      (Some hashName) None None None))
                   extractable secret keyUsages None in
  value <- new_key key ;;
  setCryptoKey value.

(** Modelled from the spec: [this.name] of HkdfProvider, which the base
    class in webcrypto-core sets; the spec names the algorithm HKDF. *)
Definition HkdfProvider_name : string := "HKDF".

Definition HkdfProvider_onImportKey (E : Engine) (format : string) (keyData : KeyData)
    (algorithm : Algorithm) (extractable : bool) (keyUsages : list string) : M Handle :=
  if negb (toLowerCase format =? "raw")%string
  then throw (OperationError "Operation not supported")
  else
    data <- lift (Buffer_from keyData) ;;
    let key := mkKey HkdfCryptoKey data (Some (algorithm_named HkdfProvider_name))
                     extractable secret keyUsages None in
    value <- new_key key ;;
    setCryptoKey value.

(** A toy serializer for the examples: an octet key whose [k] member is
    the engine's base64 text of the bytes. *)
Definition test_serializer : Serializer :=
  mkSerializer (fun k => Ok (mkJwk (Some "oct") None
                                   (Some (toBase64 TestEngine.engine (key_data k)))
                                   None None)).

(** ** RSA-OAEP encoding as RFC 8017 words it

    The reference [mgf1] and [onEncrypt] are compared with: the mask
    generation function MGF1 of appendix B.2.1 and the EME-OAEP encoding of
    section 7.1.1, for a hash function [Hash] with [hLen]-byte digests. *)

Module RFC8017.

(** I2OSP(x, 4): the four big-endian bytes of [x]. *)
Definition I2OSP4 (x : Z) : list Z :=
  [x / 2 ^ 24 mod 256; x / 2 ^ 16 mod 256; x / 2 ^ 8 mod 256; x mod 256].

(** [T = Hash(seed ‖ C(0)) ‖ ... ‖ Hash(seed ‖ C(⌈maskLen / hLen⌉ - 1))],
    cut to the leading [maskLen] bytes. *)
Definition MGF1 (Hash : list Z -> list Z) (hLen : nat) (mgfSeed : list Z) (maskLen : nat)
  : list Z :=
  take maskLen
       (concat (map (fun counter => Hash (mgfSeed ++ I2OSP4 (Z.of_nat counter)))
                    (seq 0 ((maskLen + hLen - 1) / hLen)))).

(** [EM = 0x00 ‖ maskedSeed ‖ maskedDB] for a [k]-byte modulus, label [L],
    message [M] and the random [seed]. *)
Definition EME_OAEP_encode (Hash : list Z -> list Z) (hLen k : nat) (L M seed : list Z)
  : list Z :=
  let lHash := Hash L in
  let PS := replicate (k - length M - 2 * hLen - 2) 0 in
  let DB := lHash ++ PS ++ [1] ++ M in
  let dbMask := MGF1 Hash hLen seed (k - hLen - 1) in
  let maskedDB := zip_with Z.lxor DB dbMask in
  let seedMask := MGF1 Hash hLen maskedDB hLen in
  let maskedSeed := zip_with Z.lxor seed seedMask in
  [0] ++ maskedSeed ++ maskedDB.

End RFC8017.

(** The value of [internalKey.pem] once the [if (!internalKey.pem)]
    statement of [onEncrypt] and [onDecrypt] has run: the cached text, or
    the armour of the given kind around the base64 of the key data. *)
Definition pem_of (E : Engine) (kind : string) (v : InternalCryptoKey) : string :=
  if negb (default "" (key_pem v) =? "")%string
  then default "" (key_pem v)
  else ("-----BEGIN " ++ kind ++ " KEY-----" ++ newline
        ++ toBase64 E (key_data v) ++ newline
        ++ "-----END " ++ kind ++ " KEY-----")%string.

(** ** ECDSA signing *)

(** The signing side of Node's [crypto] and the ASN.1 parser:
    [crypto.createSign(name)], [signer.sign({ key: pem })] after
    [signer.update(data)], and [AsnParser.parse(signature,
    EcDsaSignature)] with its members [r] and [s]. *)
Record Signer : Type := mkSigner {
  createSign : string -> Result unit;
  signer_sign : string -> list Z -> string -> Result (list Z);
  AsnParser_parse_EcDsaSignature : list Z -> Result (list Z * list Z)
}.

(** [addPadding(pointSize, bytes)]: [res.set] refuses a negative offset. *)
Definition EcCrypto_addPadding (pointSize : Z) (bytes : list Z) : Result (list Z) :=
  let res := JS.alloc pointSize in
  if pointSize - JS.len bytes <? 0 then Throw (RangeError "offset is out of bounds")
  else Ok (JS.set_at res bytes (pointSize - JS.len bytes)).

Definition EcCrypto_sign (E : Engine) (G : Signer) (algorithm : EcdsaParams) (key : ref)
    (data : list Z) : M (list Z) :=
  cryptoAlg <- lift (match ecdsa_hash algorithm with
                     | Some h => Ok (replace_dash h)
                     | None => Throw (TypeError "Cannot read properties of undefined")
                     end) ;;
  _ <- lift (createSign G cryptoAlg) ;;
  pem <- cache_pem E "PRIVATE" key ;;
  signature <- lift (signer_sign G cryptoAlg data pem) ;;
  ecSignature <- lift (AsnParser_parse_EcDsaSignature G signature) ;;
  v <- deref key ;;
  keyAlgorithm <- lift (match key_algorithm v with
                        | Some a => Ok a
                        | None => Throw (TypeError "Cannot read properties of undefined")
                        end) ;;
  pointSize <- lift (EcCrypto_getPointSize (alg_namedCurve keyAlgorithm)) ;;
  r <- lift (EcCrypto_addPadding pointSize (fst ecSignature)) ;;
  s <- lift (EcCrypto_addPadding pointSize (snd ecSignature)) ;;
  ret (r ++ s).

Definition EcdsaProvider_onSign (E : Engine) (G : Signer) (algorithm : EcdsaParams)
    (key : Handle) (data : list Z) : M (list Z) :=
  value <- getCryptoKey key ;;
  EcCrypto_sign E G algorithm value data.

(** A toy signer for the examples: the DER form is the one
    [TestEngine.serialize] writes for [r = [1]] and [s = [2]]. *)
Definition test_signer : Signer :=
  mkSigner (fun _ => Ok tt)
           (fun _ _ _ => Ok [1; 256; 2])
           (fun der => if bool_decide (der = [1; 256; 2]) then Ok ([1], [2])
                       else Throw (Error "ASN.1 schema mismatch")).

(** An ECDSA P-256 key pair, both keys registered. *)
Definition ec_private_material : InternalCryptoKey :=
  mkKey EcPrivateKey [48; 129; 135; 2]
        (Some (mkAlgorithm "ECDSA" None None (Some "P-256") None None))
        false private ["sign"] None.

Definition ec_pair_store : Store :=
  mkStore {[ 1%positive := ec_public_material; 3%positive := ec_private_material ]}
          {[ 2%positive := 1%positive; 4%positive := 3%positive ]} 5%positive 0%nat.

Definition ec_private_handle : Handle :=
  mkHandle 4 (key_algorithm ec_private_material) private false ["sign"] (Some 3%positive).

(** ** HMAC signing and verification *)

(** [key.algorithm.hash.name.replace("-", "")], read from the handle. *)
Definition handle_hash (key : Handle) : Result string :=
  match handle_algorithm key with
  | Some a => match alg_hash a with
              | Some h => Ok (replace_dash h)
              | None => Throw (TypeError "Cannot read properties of undefined")
              end
  | None => Throw (TypeError "Cannot read properties of undefined")
  end.

Definition HmacProvider_onSign (E : Engine) (algorithm : Algorithm) (key : Handle)
    (data : list Z) : M (list Z) :=
  hash <- lift (handle_hash key) ;;
  value <- getCryptoKey key ;;
  v <- deref value ;;
  ret (createHmac E hash (key_data v) data).

(** [hmac.compare(Buffer.from(signature)) === 0] holds when the two byte
    strings are equal. *)
Definition HmacProvider_onVerify (E : Engine) (algorithm : Algorithm) (key : Handle)
    (signature data : list Z) : M bool :=
  hash <- lift (handle_hash key) ;;
  value <- getCryptoKey key ;;
  v <- deref value ;;
  ret (bool_decide (createHmac E hash (key_data v) data = signature)).

(** An HMAC key registered under a handle. *)
Definition hmac_material : InternalCryptoKey :=
  mkKey HmacCryptoKey [1; 2; 3]
        (Some (mkAlgorithm "HMAC" (Some 24) (Some "SHA-256") None None None))
        true secret ["sign"; "verify"] None.

Definition hmac_store : Store := mkStore {[ 1%positive := hmac_material ]}
                                         {[ 2%positive := 1%positive ]} 3%positive 0%nat.

Definition hmac_handle : Handle :=
  mkHandle 2 (key_algorithm hmac_material) secret true ["sign"; "verify"] (Some 1%positive).

(** ** AES encryption and decryption *)

(** The cipher side of Node's [crypto]: [createCipheriv(name, key, iv)]
    (or [createDecipheriv] when the first argument is [true]) followed by
    [update(data)] and [final()], the two outputs concatenated.  The
    cipher name [aes-<length>-<mode>] (or [id-aes<length>-wrap]) is given
    by its mode and the [length] member of the key's algorithm.  For GCM
    the additional data, the tag length in bytes (encryption) or the tag
    (decryption) are passed too, and encryption returns the ciphertext and
    the tag of [getAuthTag()]. *)
Record Cipher : Type := mkCipher {
  cipher_run : bool -> string -> option Z -> list Z -> list Z -> list Z -> Result (list Z);
  gcm_seal : option Z -> list Z -> list Z -> option (list Z) -> Z -> list Z
             -> Result (list Z * list Z);
  gcm_open : option Z -> list Z -> list Z -> option (list Z) -> list Z -> list Z
             -> Result (list Z)
}.

(** The algorithm parameter of encrypt and decrypt:
    [{ name, iv, counter, additionalData, tagLength }]. *)
Record AesParams : Type := mkAesParams {
  aes_name : string;
  aes_iv : option (list Z);
  aes_counter : option (list Z);
  aes_additionalData : option (list Z);
  aes_tagLength : option Z
}.

(** [Buffer.from(x)] for a buffer source that may be missing. *)
Definition Buffer_from_opt (x : option (list Z)) : Result (list Z) :=
  match x with
  | Some bytes => Ok bytes
  | None => Throw (TypeError "The first argument must be a buffer or an array")
  end.

(** [key.algorithm.length] *)
Definition key_length (key : InternalCryptoKey) : Result (option Z) :=
  match key_algorithm key with
  | Some a => Ok (alg_length a)
  | None => Throw (TypeError "Cannot read properties of undefined")
  end.

(** A relative index of [Buffer.prototype.slice]: a negative one counts
    from the end, and both kinds are clamped to the buffer. *)
Definition rel_index (len i : Z) : Z :=
  if i <? 0 then Z.max (len + i) 0 else Z.min i len.

(** [buf.slice(start, end)] for integers of either sign. *)
Definition Buffer_slice (buf : list Z) (start end_ : Z) : list Z :=
  let s := rel_index (JS.len buf) start in
  let e := rel_index (JS.len buf) end_ in
  take (Z.to_nat (e - s)) (drop (Z.to_nat s) buf).

(** [buf.slice(start)] *)
Definition Buffer_slice_from (buf : list Z) (start : Z) : list Z :=
  drop (Z.to_nat (rel_index (JS.len buf) start)) buf.

(** [(algorithm.tagLength || 128) >> 3] *)
Definition gcm_tag_bytes (algorithm : AesParams) : Z :=
  JS.shr (match aes_tagLength algorithm with
          | Some t => if t =? 0 then 128 else t
          | None => 128
          end) 3.

Definition AES_KW_IV : list Z := [166; 166; 166; 166; 166; 166; 166; 166].

Definition AesCrypto_encryptAesCBC (C : Cipher) (algorithm : AesParams)
    (key : InternalCryptoKey) (data : list Z) : Result (list Z) :=
  length <~ key_length key ;;
  cipher_run C false "cbc" length (key_data key) (default [] (aes_iv algorithm)) data.

Definition AesCrypto_decryptAesCBC (C : Cipher) (algorithm : AesParams)
    (key : InternalCryptoKey) (data : list Z) : Result (list Z) :=
  length <~ key_length key ;;
  cipher_run C true "cbc" length (key_data key) (default [] (aes_iv algorithm)) data.

Definition AesCrypto_encryptAesCTR (C : Cipher) (algorithm : AesParams)
    (key : InternalCryptoKey) (data : list Z) : Result (list Z) :=
  length <~ key_length key ;;
  counter <~ Buffer_from_opt (aes_counter algorithm) ;;
  cipher_run C false "ctr" length (key_data key) counter data.

Definition AesCrypto_decryptAesCTR (C : Cipher) (algorithm : AesParams)
    (key : InternalCryptoKey) (data : list Z) : Result (list Z) :=
  length <~ key_length key ;;
  cipher_run C true "ctr" length (key_data key) (default [] (aes_counter algorithm)) data.

Definition AesCrypto_encryptAesGCM (C : Cipher) (algorithm : AesParams)
    (key : InternalCryptoKey) (data : list Z) : Result (list Z) :=
  length <~ key_length key ;;
  iv <~ Buffer_from_opt (aes_iv algorithm) ;;
  out <~ gcm_seal C length (key_data key) iv (aes_additionalData algorithm)
           (gcm_tag_bytes algorithm) data ;;
  Ok (fst out ++ snd out).

Definition AesCrypto_decryptAesGCM (C : Cipher) (algorithm : AesParams)
    (key : InternalCryptoKey) (data : list Z) : Result (list Z) :=
  length <~ key_length key ;;
  let tagLength := gcm_tag_bytes algorithm in
  let enc := Buffer_slice data 0 (JS.len data - tagLength) in
  let tag := Buffer_slice_from data (JS.len data - tagLength) in
  gcm_open C length (key_data key) (default [] (aes_iv algorithm))
           (aes_additionalData algorithm) tag enc.

Definition AesCrypto_encryptAesKW (C : Cipher) (algorithm : AesParams)
    (key : InternalCryptoKey) (data : list Z) : Result (list Z) :=
  length <~ key_length key ;;
  cipher_run C false "wrap" length (key_data key) AES_KW_IV data.

Definition AesCrypto_decryptAesKW (C : Cipher) (algorithm : AesParams)
    (key : InternalCryptoKey) (data : list Z) : Result (list Z) :=
  length <~ key_length key ;;
  cipher_run C true "wrap" length (key_data key) AES_KW_IV data.

Definition AesCrypto_encryptAesECB (C : Cipher) (algorithm : AesParams)
    (key : InternalCryptoKey) (data : list Z) : Result (list Z) :=
  length <~ key_length key ;;
  cipher_run C false "ecb" length (key_data key) [] data.

Definition AesCrypto_decryptAesECB (C : Cipher) (algorithm : AesParams)
    (key : InternalCryptoKey) (data : list Z) : Result (list Z) :=
  length <~ key_length key ;;
  cipher_run C true "ecb" length (key_data key) [] data.

Definition AesCrypto_encrypt (C : Cipher) (algorithm : AesParams)
    (key : InternalCryptoKey) (data : list Z) : Result (list Z) :=
  let name := toUpperCase (aes_name algorithm) in
  if (name =? "AES-CBC")%string then AesCrypto_encryptAesCBC C algorithm key data
  else if (name =? "AES-CTR")%string then AesCrypto_encryptAesCTR C algorithm key data
  else if (name =? "AES-GCM")%string then AesCrypto_encryptAesGCM C algorithm key data
  else if (name =? "AES-KW")%string then AesCrypto_encryptAesKW C algorithm key data
  else if (name =? "AES-ECB")%string then AesCrypto_encryptAesECB C algorithm key data
  else Throw (OperationError "algorithm: Is not recognized").

Definition AesCrypto_decrypt (C : Cipher) (algorithm : AesParams)
    (key : InternalCryptoKey) (data : list Z) : Result (list Z) :=
  match key_class key with
  | AesCryptoKey =>
      let name := toUpperCase (aes_name algorithm) in
      if (name =? "AES-CBC")%string then AesCrypto_decryptAesCBC C algorithm key data
      else if (name =? "AES-CTR")%string then AesCrypto_decryptAesCTR C algorithm key data
      else if (name =? "AES-GCM")%string then AesCrypto_decryptAesGCM C algorithm key data
      else if (name =? "AES-KW")%string then AesCrypto_decryptAesKW C algorithm key data
      else if (name =? "AES-ECB")%string then AesCrypto_decryptAesECB C algorithm key data
      else Throw (OperationError "algorithm: Is not recognized")
  | _ => Throw (Error "key: Is not AesCryptoKey")
  end.

(** A toy cipher for the examples: the ciphertext is the data with the
    first key byte added to every byte, the tag repeats the data length. *)
Definition test_cipher : Cipher :=
  mkCipher
    (fun decrypt _ _ key _ data =>
       Ok (map (fun b => (if decrypt then b - default 0 (head key)
                          else b + default 0 (head key)) mod 256) data))
    (fun _ key _ _ tagBytes data =>
       Ok (map (fun b => (b + default 0 (head key)) mod 256) data,
           replicate (Z.to_nat tagBytes) (JS.len data mod 256)))
    (fun _ key _ _ tag enc =>
       if bool_decide (tag = replicate (length tag) (JS.len enc mod 256))
       then Ok (map (fun b => (b - default 0 (head key)) mod 256) enc)
       else Throw (EngineError "Unsupported state or unable to authenticate data")).

(** [onEncrypt] and [onDecrypt] of the AES providers that have them. *)
Definition AesProvider_onEncrypt (C : Cipher) (algorithm : AesParams) (key : Handle)
    (data : list Z) : M (list Z) :=
  value <- getCryptoKey key ;;
  v <- deref value ;;
  lift (AesCrypto_encrypt C algorithm v data).

Definition AesProvider_onDecrypt (C : Cipher) (algorithm : AesParams) (key : Handle)
    (data : list Z) : M (list Z) :=
  value <- getCryptoKey key ;;
  v <- deref value ;;
  lift (AesCrypto_decrypt C algorithm v data).

Definition gcm_request : AesParams :=
  mkAesParams "AES-GCM" (Some [9; 9; 9; 9; 9; 9; 9; 9; 9; 9; 9; 9]) None (Some [4]) (Some 96).

(** ** ECDH bit derivation *)

(** The key-agreement side of Node's [crypto] and the ASN.1 parser:
    [crypto.createECDH(curve)], [ecdh.setPrivateKey], [ecdh.computeSecret]
    and [AsnParser.parse] for PrivateKeyInfo, EcPrivateKey and
    PublicKeyInfo, each giving the member the code reads. *)
Record Ecdh : Type := mkEcdh {
  createECDH : string -> Result unit;
  AsnParser_parse_PrivateKeyInfo : list Z -> Result (list Z);
  AsnParser_parse_EcPrivateKey : list Z -> Result (list Z);
  ecdh_setPrivateKey : string -> list Z -> Result unit;
  AsnParser_parse_PublicKeyInfo : list Z -> Result (list Z);
  ecdh_computeSecret : string -> list Z -> list Z -> Result (list Z)
}.

(** [EcCrypto.deriveBits({ ...algorithm, public }, baseKey, length)];
    [ArrayBuffer.prototype.slice] treats its indices as [Buffer_slice]
    does. *)
Definition EcCrypto_deriveBits (D : Ecdh) (public baseKey : InternalCryptoKey) (length : Z)
  : Result (list Z) :=
  keyAlgorithm <~ match key_algorithm baseKey with
                  | Some a => Ok a
                  | None => Throw (TypeError "Cannot read properties of undefined")
                  end ;;
  cryptoAlg <~ match alg_namedCurve keyAlgorithm with
               | Some c => EcCrypto_getOpenSSLNamedCurve c
               | None => Throw (TypeError "Cannot read properties of undefined")
               end ;;
  _ <~ createECDH D cryptoAlg ;;
  asnPrivateKey <~ AsnParser_parse_PrivateKeyInfo D (key_data baseKey) ;;
  asnEcPrivateKey <~ AsnParser_parse_EcPrivateKey D asnPrivateKey ;;
  _ <~ ecdh_setPrivateKey D cryptoAlg asnEcPrivateKey ;;
  asnPublicKey <~ AsnParser_parse_PublicKeyInfo D (key_data public) ;;
  bits <~ ecdh_computeSecret D cryptoAlg asnEcPrivateKey asnPublicKey ;;
  Ok (Buffer_slice bits 0 (JS.shr length 3)).

(** A toy key agreement for the examples: the secret is 32 bytes made
    from the first bytes of the two keys. *)
Definition test_ecdh : Ecdh :=
  mkEcdh (fun _ => Ok tt) (fun d => Ok d) (fun d => Ok d) (fun _ _ => Ok tt) (fun d => Ok d)
         (fun _ priv pub =>
            Ok (replicate 32 ((default 0 (head priv) + default 0 (head pub)) mod 256))).

(** ** Random values *)

(** A typed array as [getRandomValues] sees it: the bytes of the
    [ArrayBuffer] it is a view on, and the part of it the view covers. *)
Record ArrayBufferView : Type := mkView {
  view_buffer : list Z;
  view_byteOffset : Z;
  view_byteLength : Z
}.

(** [Crypto.getRandomValues(array)]: [Buffer.from(array.buffer)] shares
    the memory of the whole [ArrayBuffer]. *)
Definition Crypto_getRandomValues (E : Engine) (array : ArrayBufferView) : M ArrayBufferView :=
  buffer <- randomFillSync E (view_buffer array) ;;
  ret (mkView buffer (view_byteOffset array) (view_byteLength array)).

(** ** [removePadding] on byte views

    [bytes.slice(i).buffer] depends on the class of [bytes]: on a
    [Uint8Array], [slice] copies the elements into an [ArrayBuffer] of their
    own; on a Node [Buffer], [slice] is a view on the same memory, and
    [.buffer] is the whole [ArrayBuffer] under it. *)






(** * Properties *)

(** ** The embedding on concrete inputs *)

Example bitShiftLeft_carries : bitShiftLeft [255; 128; 1; 129] = [255; 0; 3; 2].
Proof. reflexivity. Qed.

Example xor_shorter_operand : xor [1; 2; 3] [255; 255] = [254; 253].
Proof. reflexivity. Qed.

Example padded_block_of_empty_message :
  getPaddedMessageBlock [] 0 = Ok (128 :: replicate 15 0).
Proof. reflexivity. Qed.

Example removePadding_strips_zeros : EcCrypto_removePadding [0; 0; 7; 0; 1] = [7; 0; 1].
Proof. reflexivity. Qed.

Example shift_wraps_at_32_bits : JS.shl 536870928 3 = 128 /\ JS.shl 16 3 = 128.
Proof. split; reflexivity. Qed.

Example mgf1_length :
  match mgf1 TestEngine.engine "SHA-1" [1; 2] 45 with
  | Ok mask => JS.len mask = 45
  | Throw _ => False
  end.
Proof. vm_compute. reflexivity. Qed.

(** Encrypting under the public key and decrypting under the private key
    gives the message back; a different label does not. *)
Example oaep_round_trip :
  match fst (RsaOaepProvider_onEncrypt TestEngine.engine (mkRsaOaepParams (Some [1; 2]))
               rsa_public_handle [10; 20; 30; 40] rsa_pair_store) with
  | Ok c =>
      fst (RsaOaepProvider_onDecrypt TestEngine.engine (mkRsaOaepParams (Some [1; 2]))
             rsa_private_handle c rsa_pair_store) = Ok [10; 20; 30; 40] /\
      fst (RsaOaepProvider_onDecrypt TestEngine.engine (mkRsaOaepParams (Some [1; 3]))
             rsa_private_handle c rsa_pair_store) = Throw (Error "Decryption failed")
  | Throw _ => False
  end.
Proof. vm_compute. split; reflexivity. Qed.

Example cmac_of_empty_message :
  aesCmac TestEngine.engine key16 [] = RFC4493.cmac TestEngine.engine key16 [].
Proof. vm_compute. reflexivity. Qed.

(** ** The store monad *)

Lemma bind_ok {A B} (m : M A) (k : A -> M B) st a st' :
  m st = (Ok a, st') -> bind m k st = k a st'.
Proof. intros H. unfold bind. by rewrite H. Qed.

Lemma bind_throw {A B} (m : M A) (k : A -> M B) st e st' :
  m st = (Throw e, st') -> bind m k st = (Throw e, st').
Proof. intros H. unfold bind. by rewrite H. Qed.

Lemma bind_inv_ok {A B} (m : M A) (k : A -> M B) st b st' :
  bind m k st = (Ok b, st') ->
  exists a st1, m st = (Ok a, st1) /\ k a st1 = (Ok b, st').
Proof.
  unfold bind. destruct (m st) as [[a|e] st1]; intros H; [eauto | discriminate].
Qed.

Lemma lift_inv_ok {A} (m : Result A) st a st' :
  lift m st = (Ok a, st') -> m = Ok a /\ st' = st.
Proof. unfold lift. intros H. by inversion H. Qed.

(** ** Key registry *)

Section Registry.

Lemma setCryptoKey_ok st value v :
  heap st !! value = Some v ->
  setCryptoKey value st =
    (Ok (mkHandle (next_id st) (key_algorithm v) (key_type v) (key_extractable v)
                  (key_usages v) (Some value)),
     mkStore (heap st) (<[ next_id st := value ]> (keyStorage st))
             (Pos.succ (next_id st)) (entropy st)).
Proof. intros H. unfold setCryptoKey. by rewrite H. Qed.

Lemma setCryptoKey_inv st value h st' :
  setCryptoKey value st = (Ok h, st') ->
  exists v, heap st !! value = Some v /\
            h = mkHandle (next_id st) (key_algorithm v) (key_type v)
                         (key_extractable v) (key_usages v) (Some value) /\
            heap st' = heap st.
Proof.
  unfold setCryptoKey. destruct (heap st !! value) as [v|] eqn:Hv; [|discriminate].
  intros H. inversion H; subst. eauto.
Qed.

(** Backfilling touches the algorithm of one object and nothing else. *)
Lemma backfill_algorithm_lookup res key h v :
  h !! res = Some v ->
  exists v', backfill_algorithm res key h !! res = Some v' /\
             key_class v' = key_class v /\ key_data v' = key_data v /\
             key_extractable v' = key_extractable v /\ key_type v' = key_type v /\
             key_usages v' = key_usages v /\ key_pem v' = key_pem v /\
             (is_Some (key_algorithm v) -> v' = v).
Proof.
  intros Hv. unfold backfill_algorithm. rewrite Hv.
  destruct (key_algorithm v) as [a|] eqn:Ha.
  - exists v. repeat split; auto.
  - destruct (handle_algorithm key) as [a|].
    + eexists. rewrite lookup_insert_eq. repeat split; simpl; auto.
      intros [x Hx]. discriminate.
    + exists v. repeat split; auto.
Qed.

End Registry.

(** C1, as the source has it: the handle [setCryptoKey] returns names the
    key material in its own [__value] field (the copy kept for handles that
    outlive the registry), its four descriptor fields are copied from the
    material, the registry maps the handle to the same material, and the
    material itself is left as it was. *)
Theorem setCryptoKey_handle_names_material (st : Store) (value : ref) (v : InternalCryptoKey) :
  heap st !! value = Some v ->
  exists h st',
    setCryptoKey value st = (Ok h, st') /\
    __value h = Some value /\
    keyStorage st' !! handle_id h = Some value /\
    heap st' !! value = Some v /\
    handle_algorithm h = key_algorithm v /\ handle_type h = key_type v /\
    handle_extractable h = key_extractable v /\ handle_usages h = key_usages v.
Proof.
  intros Hv. do 2 eexists. split; [by apply setCryptoKey_ok|].
  simpl. rewrite lookup_insert_eq. repeat split; auto.
Qed.

Lemma setCryptoKey_handle_names_material_witness :
  exists h st',
    setCryptoKey 1%positive store_with_material = (Ok h, st') /\
    __value h = Some 1%positive /\
    keyStorage st' !! handle_id h = Some 1%positive /\
    heap st' !! 1%positive = Some hkdf_material /\
    handle_algorithm h = key_algorithm hkdf_material /\
    handle_type h = key_type hkdf_material /\
    handle_extractable h = key_extractable hkdf_material /\
    handle_usages h = key_usages hkdf_material.
Proof.
  apply (setCryptoKey_handle_names_material store_with_material 1%positive hkdf_material).
  reflexivity.
Defined.

(** C1 as stated fails: a handle that [setCryptoKey] returns does carry the
    material, in [__value]. *)
Lemma setCryptoKey_handle_without_material_counterexample :
  ~ (forall (st : Store) (value : ref) (v : InternalCryptoKey) (h : Handle) (st' : Store),
        heap st !! value = Some v ->
        setCryptoKey value st = (Ok h, st') ->
        __value h = None).
Proof.
  intros H.
  specialize (H store_with_material 1%positive hkdf_material _ _ eq_refl eq_refl).
  discriminate H.
Qed.

(** C3, as the source has it: a registered handle resolves to its
    registered material; a handle without an entry that carries a copy in
    [__value] has that copy inserted and returned; with neither the call
    throws the operation error "Cannot get CryptoKey from secure storage".
    In the first two cases the only change to the material is the backfill
    of a missing algorithm. *)
Theorem getCryptoKey_resolves (key : Handle) (st : Store) :
  (forall r, keyStorage st !! handle_id key = Some r ->
     getCryptoKey key st =
       (Ok r, mkStore (backfill_algorithm r key (heap st)) (keyStorage st)
                      (next_id st) (entropy st))) /\
  (forall r, keyStorage st !! handle_id key = None -> __value key = Some r ->
     getCryptoKey key st =
       (Ok r, mkStore (backfill_algorithm r key (heap st))
                      (<[ handle_id key := r ]> (keyStorage st))
                      (next_id st) (entropy st))) /\
  (keyStorage st !! handle_id key = None -> __value key = None ->
     getCryptoKey key st =
       (Throw (OperationError "Cannot get CryptoKey from secure storage"), st)).
Proof.
  unfold getCryptoKey. repeat split.
  - intros r Hr. rewrite Hr. reflexivity.
  - intros r Hr Hv. rewrite Hr, Hv. rewrite lookup_insert_eq. reflexivity.
  - intros Hr Hv. rewrite Hr, Hv. destruct st; reflexivity.
Qed.

Lemma getCryptoKey_resolves_witness :
  getCryptoKey restored_handle store_with_material =
    (Ok 1%positive,
     mkStore (backfill_algorithm 1%positive restored_handle (heap store_with_material))
             (<[ 7%positive := 1%positive ]> (keyStorage store_with_material))
             (next_id store_with_material) (entropy store_with_material)).
Proof.
  destruct (getCryptoKey_resolves restored_handle store_with_material) as (_ & H & _).
  apply H; reflexivity.
Defined.

(** C3 as stated fails on the message: the error thrown for a handle with
    neither an entry nor a copy does not read "key not found in secure
    storage". *)
Lemma getCryptoKey_message_counterexample :
  exists e, fst (getCryptoKey orphan_handle empty_store) = Throw e /\
            exception_message e <> "key not found in secure storage".
Proof.
  exists (OperationError "Cannot get CryptoKey from secure storage").
  split; [reflexivity | discriminate].
Qed.

(** ** PBKDF2 import *)

(** C9: whatever the caller passes as [extractable], the key imported by
    the PBKDF2 provider is not extractable, on the handle and on the
    material the registry keeps for it. *)
Theorem Pbkdf2Provider_onImportKey_never_extractable
    (E : Engine) (data : list Z) (algorithm : Algorithm) (extractable : bool)
    (keyUsages : list string) (st : Store) :
  exists h st' v,
    Pbkdf2Provider_onImportKey E "raw" (BufferSource data) algorithm extractable keyUsages st
      = (Ok h, st') /\
    handle_extractable h = false /\
    __value h = Some (next_id st) /\
    keyStorage st' !! handle_id h = Some (next_id st) /\
    heap st' !! next_id st = Some v /\
    key_extractable v = false /\ key_data v = data /\ key_usages v = keyUsages.
Proof.
  unfold Pbkdf2Provider_onImportKey. simpl.
  unfold bind, lift, new_key. simpl.
  erewrite setCryptoKey_ok by (simpl; apply lookup_insert_eq).
  do 3 eexists. split; [reflexivity|]. simpl.
  rewrite !lookup_insert_eq. repeat split; reflexivity.
Qed.

(** ** Asymmetric key generation *)

Section GenerateKey.

Variable E : Engine.

Lemma filter_usages_In allowed requested u :
  In u (filter_usages allowed requested) <-> In u requested /\ In u allowed.
Proof.
  unfold filter_usages, includes. rewrite filter_In, existsb_exists.
  split.
  - intros [H [x [Hx Heq]]]. apply String.eqb_eq in Heq. subst. auto.
  - intros [H1 H2]. split; [done|]. exists u. split; [done|]. apply String.eqb_refl.
Qed.

(** Registering a fresh private/public pair of material objects. *)
Lemma register_pair_ok (keys : InternalKeyPair) st kp st' :
  (privateValue <- new_key (pair_privateKey keys) ;;
   publicValue <- new_key (pair_publicKey keys) ;;
   privateHandle <- setCryptoKey privateValue ;;
   publicHandle <- setCryptoKey publicValue ;;
   ret (mkCryptoKeyPair privateHandle publicHandle)) st = (Ok kp, st') ->
  handle_extractable (publicKey kp) = key_extractable (pair_publicKey keys) /\
  handle_usages (publicKey kp) = key_usages (pair_publicKey keys) /\
  handle_usages (privateKey kp) = key_usages (pair_privateKey keys).
Proof.
  unfold bind, new_key, ret. simpl.
  erewrite setCryptoKey_ok; cycle 1.
  { simpl. rewrite lookup_insert_ne by lia. apply lookup_insert_eq. }
  erewrite setCryptoKey_ok by (simpl; apply lookup_insert_eq).
  intros H. inversion H; subst. simpl. auto.
Qed.

Lemma RsaCrypto_generateKey_inv algorithm extractable keyUsages st keys st' :
  RsaCrypto_generateKey E algorithm extractable keyUsages st = (Ok keys, st') ->
  key_extractable (pair_publicKey keys) = true /\
  key_usages (pair_publicKey keys) = filter_usages RsaCrypto_publicKeyUsages keyUsages /\
  key_usages (pair_privateKey keys) = filter_usages RsaCrypto_privateKeyUsages keyUsages.
Proof.
  unfold RsaCrypto_generateKey. intros H.
  apply bind_inv_ok in H as (bytes & st1 & _ & H).
  apply bind_inv_ok in H as (ks & st2 & _ & H).
  inversion H; subst. simpl. auto.
Qed.

Lemma EcCrypto_generateKey_inv algorithm extractable keyUsages st keys st' :
  EcCrypto_generateKey E algorithm extractable keyUsages st = (Ok keys, st') ->
  key_extractable (pair_publicKey keys) = true /\
  key_usages (pair_publicKey keys) = filter_usages EcCrypto_publicKeyUsages keyUsages /\
  key_usages (pair_privateKey keys) = filter_usages EcCrypto_privateKeyUsages keyUsages.
Proof.
  unfold EcCrypto_generateKey. intros H.
  apply bind_inv_ok in H as (curve & st1 & _ & H).
  apply bind_inv_ok in H as (ks & st2 & _ & H).
  inversion H; subst. simpl. auto.
Qed.

Lemma EdCrypto_generateKey_inv algorithm extractable keyUsages st keys st' :
  EdCrypto_generateKey E algorithm extractable keyUsages st = (Ok keys, st') ->
  key_extractable (pair_publicKey keys) = true /\
  key_usages (pair_publicKey keys) = filter_usages EdCrypto_publicKeyUsages keyUsages /\
  key_usages (pair_privateKey keys) = filter_usages EdCrypto_privateKeyUsages keyUsages.
Proof.
  unfold EdCrypto_generateKey. intros H.
  apply bind_inv_ok in H as (curve & st1 & _ & H).
  apply bind_inv_ok in H as (ks & st2 & _ & H).
  inversion H; subst. simpl. auto.
Qed.

Lemma generated_pair_ok_intro privateUsages publicUsages requested kp :
  handle_extractable (publicKey kp) = true ->
  handle_usages (publicKey kp) = filter_usages publicUsages requested ->
  handle_usages (privateKey kp) = filter_usages privateUsages requested ->
  incl privateUsages private_legal_usages ->
  incl publicUsages public_legal_usages ->
  generated_pair_ok privateUsages publicUsages requested kp.
Proof.
  intros Hext Hpub Hpriv Hi1 Hi2. unfold generated_pair_ok.
  rewrite Hpub, Hpriv.
  split; [done|]. split; [intros u; apply filter_usages_In|].
  split; [intros u; apply filter_usages_In|]. done.
Qed.

Lemma legal_sets_included :
  incl RsaCrypto_privateKeyUsages private_legal_usages /\
  incl RsaCrypto_publicKeyUsages public_legal_usages /\
  incl EcCrypto_privateKeyUsages private_legal_usages /\
  incl EcCrypto_publicKeyUsages public_legal_usages /\
  incl EdCrypto_privateKeyUsages private_legal_usages /\
  incl EdCrypto_publicKeyUsages public_legal_usages.
Proof.
  repeat split; intros u Hu; simpl in *; intuition.
Qed.

End GenerateKey.

Lemma RsaProvider_onGenerateKey_succeeds E this_name algorithm extractable keyUsages st e m ks :
  alg_publicExponent algorithm = Some e ->
  JS.len e <= 4 ->
  alg_modulusLength algorithm = Some m ->
  generateKeyPairSync_rsa E (entropy st) m (readInt32BE (JS.alloc (4 - JS.len e) ++ e)) = Ok ks ->
  exists keys st',
    RsaProvider_onGenerateKey E this_name algorithm extractable keyUsages st = (Ok keys, st').
Proof.
  intros He Hlen Hm Hks.
  unfold RsaProvider_onGenerateKey, RsaCrypto_generateKey, bind, lift, with_entropy,
    new_key, ret. simpl.
  rewrite He, Hm. replace (4 - JS.len e <? 0) with false by (symmetry; apply Z.ltb_ge; lia).
  simpl. rewrite Hks. simpl.
  erewrite setCryptoKey_ok; cycle 1.
  { simpl. rewrite lookup_insert_ne by lia. apply lookup_insert_eq. }
  erewrite setCryptoKey_ok by (simpl; apply lookup_insert_eq).
  eauto.
Qed.

Lemma EcProvider_onGenerateKey_succeeds E this_name algorithm extractable keyUsages st c name ks :
  alg_namedCurve algorithm = Some c ->
  EcCrypto_getOpenSSLNamedCurve c = Ok name ->
  generateKeyPairSync_ec E (entropy st) name = Ok ks ->
  exists keys st',
    EcProvider_onGenerateKey E this_name algorithm extractable keyUsages st = (Ok keys, st').
Proof.
  intros Hc Hname Hks.
  unfold EcProvider_onGenerateKey, EcCrypto_generateKey, bind, lift, with_entropy,
    new_key, ret. simpl.
  rewrite Hc, Hname. simpl. rewrite Hks. simpl.
  erewrite setCryptoKey_ok; cycle 1.
  { simpl. rewrite lookup_insert_ne by lia. apply lookup_insert_eq. }
  erewrite setCryptoKey_ok by (simpl; apply lookup_insert_eq).
  eauto.
Qed.

Lemma EdProvider_onGenerateKey_succeeds E this_name curve algorithm extractable keyUsages st c ks :
  alg_namedCurve algorithm = Some c ->
  generateKeyPairSync_ed E (entropy st) (toLowerCase (curve c)) = Ok ks ->
  exists keys st',
    EdProvider_onGenerateKey E this_name curve algorithm extractable keyUsages st = (Ok keys, st').
Proof.
  intros Hc Hks.
  unfold EdProvider_onGenerateKey, EdCrypto_generateKey, bind, lift, with_entropy,
    new_key, ret. simpl.
  rewrite Hc. simpl. rewrite Hks. simpl.
  erewrite setCryptoKey_ok; cycle 1.
  { simpl. rewrite lookup_insert_ne by lia. apply lookup_insert_eq. }
  erewrite setCryptoKey_ok by (simpl; apply lookup_insert_eq).
  eauto.
Qed.

(** C8: every key pair returned by an RSA, EC or Ed/X [onGenerateKey] has
    an extractable public key, private usages equal to the requested usages
    that are legal for a private key of the family, and public usages equal
    to the requested usages that are legal for a public key; the legal sets
    lie within {sign, decrypt, unwrapKey, deriveKey, deriveBits} and
    {verify, encrypt, wrapKey}.  A pair is returned whenever the engine's
    key-pair generator returns one. *)
Theorem generateKey_pair_usages (E : Engine) (algorithm : Algorithm) (extractable : bool)
    (keyUsages : list string) (st : Store) :
  (forall this_name keys st',
     RsaProvider_onGenerateKey E this_name algorithm extractable keyUsages st = (Ok keys, st') ->
     generated_pair_ok RsaCrypto_privateKeyUsages RsaCrypto_publicKeyUsages keyUsages keys) /\
  (forall this_name keys st',
     EcProvider_onGenerateKey E this_name algorithm extractable keyUsages st = (Ok keys, st') ->
     generated_pair_ok EcCrypto_privateKeyUsages EcCrypto_publicKeyUsages keyUsages keys) /\
  (forall this_name curve keys st',
     EdProvider_onGenerateKey E this_name curve algorithm extractable keyUsages st = (Ok keys, st') ->
     generated_pair_ok EdCrypto_privateKeyUsages EdCrypto_publicKeyUsages keyUsages keys) /\
  (forall this_name e m ks,
     alg_publicExponent algorithm = Some e -> JS.len e <= 4 ->
     alg_modulusLength algorithm = Some m ->
     generateKeyPairSync_rsa E (entropy st) m (readInt32BE (JS.alloc (4 - JS.len e) ++ e)) = Ok ks ->
     exists keys st',
       RsaProvider_onGenerateKey E this_name algorithm extractable keyUsages st = (Ok keys, st')) /\
  (forall this_name c name ks,
     alg_namedCurve algorithm = Some c -> EcCrypto_getOpenSSLNamedCurve c = Ok name ->
     generateKeyPairSync_ec E (entropy st) name = Ok ks ->
     exists keys st',
       EcProvider_onGenerateKey E this_name algorithm extractable keyUsages st = (Ok keys, st')) /\
  (forall this_name curve c ks,
     alg_namedCurve algorithm = Some c ->
     generateKeyPairSync_ed E (entropy st) (toLowerCase (curve c)) = Ok ks ->
     exists keys st',
       EdProvider_onGenerateKey E this_name curve algorithm extractable keyUsages st = (Ok keys, st')).
Proof.
  destruct legal_sets_included as (L1 & L2 & L3 & L4 & L5 & L6).
  split; [|split; [|split; [|split; [|split]]]].
  - intros this_name keys st' H.
    apply bind_inv_ok in H as (ks & st1 & Hgen & H).
    apply RsaCrypto_generateKey_inv in Hgen as (Hext & Hpub & Hpriv).
    apply register_pair_ok in H as (Hext' & Hpub' & Hpriv').
    apply generated_pair_ok_intro; try done; congruence.
  - intros this_name keys st' H.
    apply bind_inv_ok in H as (ks & st1 & Hgen & H).
    apply EcCrypto_generateKey_inv in Hgen as (Hext & Hpub & Hpriv).
    apply register_pair_ok in H as (Hext' & Hpub' & Hpriv').
    apply generated_pair_ok_intro; try done; congruence.
  - intros this_name curve keys st' H.
    apply bind_inv_ok in H as (c & st0 & _ & H).
    apply bind_inv_ok in H as (ks & st1 & Hgen & H).
    apply EdCrypto_generateKey_inv in Hgen as (Hext & Hpub & Hpriv).
    apply register_pair_ok in H as (Hext' & Hpub' & Hpriv').
    apply generated_pair_ok_intro; try done; congruence.
  - intros. by eapply RsaProvider_onGenerateKey_succeeds.
  - intros. by eapply EcProvider_onGenerateKey_succeeds.
  - intros. by eapply EdProvider_onGenerateKey_succeeds.
Qed.

Lemma generateKey_pair_usages_witness :
  (exists keys st',
     RsaOaepProvider_onGenerateKey TestEngine.engine rsa_request false requested_usages
       empty_store = (Ok keys, st') /\
     generated_pair_ok RsaCrypto_privateKeyUsages RsaCrypto_publicKeyUsages
       requested_usages keys) /\
  (exists keys st',
     EcdsaProvider_onGenerateKey TestEngine.engine ec_request false requested_usages
       empty_store = (Ok keys, st') /\
     generated_pair_ok EcCrypto_privateKeyUsages EcCrypto_publicKeyUsages
       requested_usages keys) /\
  (exists keys st',
     EdDsaProvider_onGenerateKey TestEngine.engine ed_request false requested_usages
       empty_store = (Ok keys, st') /\
     generated_pair_ok EdCrypto_privateKeyUsages EdCrypto_publicKeyUsages
       requested_usages keys).
Proof.
  split; [|split].
  - do 2 eexists. split; [vm_compute; reflexivity|].
    eapply (proj1 (generateKey_pair_usages TestEngine.engine rsa_request false
                     requested_usages empty_store) "RSA-OAEP").
    vm_compute. reflexivity.
  - do 2 eexists. split; [vm_compute; reflexivity|].
    eapply (proj1 (proj2 (generateKey_pair_usages TestEngine.engine ec_request false
                            requested_usages empty_store)) "ECDSA").
    vm_compute. reflexivity.
  - do 2 eexists. split; [vm_compute; reflexivity|].
    eapply (proj1 (proj2 (proj2 (generateKey_pair_usages TestEngine.engine ed_request false
                                   requested_usages empty_store)))
              "EdDSA" replace_ed_prefix).
    vm_compute. reflexivity.
Defined.

(** ** 32-bit shifts *)

Lemma toInt32_small x : - 2 ^ 31 <= x < 2 ^ 31 -> JS.toInt32 x = x.
Proof. intros H. unfold JS.toInt32. rewrite Z.mod_small; lia. Qed.

Lemma shl3_small x : 0 <= x < 2 ^ 28 -> JS.shl x 3 = 8 * x.
Proof.
  intros H. unfold JS.shl. change (3 mod 32) with 3.
  rewrite (toInt32_small x) by lia.
  rewrite Z.shiftl_mul_pow2 by lia. rewrite toInt32_small; lia.
Qed.

Lemma shr3_small x : 0 <= x < 2 ^ 31 -> JS.shr x 3 = x / 8.
Proof.
  intros H. unfold JS.shr. change (3 mod 32) with 3.
  rewrite toInt32_small by lia. by rewrite Z.shiftr_div_pow2 by lia.
Qed.

Lemma round_down_small x : 0 <= x < 2 ^ 31 -> JS.shl (JS.shr x 3) 3 = 8 * (x / 8).
Proof.
  intros H. rewrite shr3_small by done. apply shl3_small.
  split; [apply Z.div_pos; lia|].
  apply Z.div_lt_upper_bound; lia.
Qed.

(** ** Symmetric key import *)

Section ImportKey.

Variable E : Engine.

Lemma AesCrypto_importKey_raw data algorithm extractable keyUsages :
  AesCrypto_importKey E "raw" (BufferSource data) algorithm extractable keyUsages =
    let bits := JS.shl (JS.len data) 3 in
    if (bits =? 128) || (bits =? 192) || (bits =? 256)
    then Ok (mkKey AesCryptoKey data (Some (set_alg_length algorithm bits)) extractable
                   secret keyUsages None)
    else Throw (OperationError "keyData: Is wrong key length").
Proof.
  unfold AesCrypto_importKey. cbn [toLowerCase lower_ascii]. simpl rbind.
  generalize (JS.shl (JS.len data) 3). intros bits. cbn [alg_length set_alg_length].
  destruct (bits =? 128) eqn:H1; [apply Z.eqb_eq in H1; by subst|].
  destruct (bits =? 192) eqn:H2; [apply Z.eqb_eq in H2; by subst|].
  destruct (bits =? 256) eqn:H3; [apply Z.eqb_eq in H3; by subst|].
  apply Z.eqb_neq in H1, H2, H3. simpl.
  destruct bits as [|p|p]; try done.
  do 9 (destruct p as [p|p|]; try done).
Qed.

(** Below 2^28 bytes the shift is exact and AES import accepts the three
    legal lengths only. *)
Lemma AesCrypto_importKey_in_range data algorithm extractable keyUsages :
  JS.len data < 2 ^ 28 ->
  (In (8 * JS.len data) [128; 192; 256] ->
   exists key, AesCrypto_importKey E "raw" (BufferSource data) algorithm extractable keyUsages
               = Ok key /\ key_data key = data) /\
  (~ In (8 * JS.len data) [128; 192; 256] ->
   AesCrypto_importKey E "raw" (BufferSource data) algorithm extractable keyUsages
     = Throw (OperationError "keyData: Is wrong key length")).
Proof.
  intros Hlen. rewrite AesCrypto_importKey_raw. cbv zeta.
  rewrite shl3_small by (unfold JS.len in *; lia).
  split.
  - intros Hin. simpl in Hin.
    destruct Hin as [H|[H|[H|[]]]]; rewrite <- H; simpl; eauto.
  - intros Hnin. simpl in Hnin.
    destruct (8 * JS.len data =? 128) eqn:H1; [apply Z.eqb_eq in H1; exfalso; apply Hnin; lia|].
    destruct (8 * JS.len data =? 192) eqn:H2; [apply Z.eqb_eq in H2; exfalso; apply Hnin; lia|].
    destruct (8 * JS.len data =? 256) eqn:H3; [apply Z.eqb_eq in H3; exfalso; apply Hnin; lia|].
    reflexivity.
Qed.


End ImportKey.

Lemma shl3_wraps : JS.shl 536870928 3 = 128.
Proof. reflexivity. Qed.

(** C7 (AES part, failing input): key data of 2^29 + 16 bytes, that is
    4294967424 bits, is imported as an AES key; the bit length written on
    the key is 128. *)
Theorem AesProvider_onImportKey_accepts_wrapped_length
    (E : Engine) (algorithm : Algorithm) (extractable : bool) (keyUsages : list string)
    (st : Store) :
  let data := replicate (Z.to_nat 536870928) 0 in
  8 * JS.len data = 4294967424 /\
  exists h st',
    AesProvider_onImportKey E "raw" (BufferSource data) algorithm extractable keyUsages st
      = (Ok h, st') /\
    handle_algorithm h = Some (set_alg_length (algorithm_named (alg_name algorithm)) 128).
Proof.
  intros data.
  assert (Hlen : JS.len data = 536870928).
  { unfold data, JS.len. rewrite length_replicate. apply Z2Nat.id. lia. }
  split; [rewrite Hlen; reflexivity|].
  unfold AesProvider_onImportKey.
  rewrite AesCrypto_importKey_raw. cbv zeta. rewrite Hlen, shl3_wraps.
  change ((128 =? 128) || (128 =? 192) || (128 =? 256)) with true. cbv iota.
  unfold bind, lift, new_key.
  erewrite setCryptoKey_ok by (cbn [heap]; apply lookup_insert_eq).
  do 2 eexists. split; reflexivity.
Qed.

(** ** HMAC key generation *)

Lemma randomBytes_ok E size st :
  0 <= size <= 2 ^ 31 - 1 ->
  exists data,
    randomBytes E size st =
      (Ok data, mkStore (heap st) (keyStorage st) (next_id st) (S (entropy st))) /\
    JS.len data = size.
Proof.
  intros H. unfold randomBytes.
  replace ((0 <=? size) && (size <=? 2 ^ 31 - 1)) with true
    by (symmetry; apply andb_true_iff; split; apply Z.leb_le; lia).
  eexists. split; [reflexivity|].
  unfold JS.len. rewrite length_map, length_seq. lia.
Qed.

(** For requested lengths below 2^31 the key generated by the HMAC provider
    has the requested length rounded down to a multiple of 8, on the
    algorithm and in the data. *)
Lemma HmacProvider_onGenerateKey_in_range E algorithm extractable keyUsages st l :
  alg_length algorithm = Some l -> 0 < l < 2 ^ 31 ->
  exists h st' v,
    HmacProvider_onGenerateKey E algorithm extractable keyUsages st = (Ok h, st') /\
    handle_algorithm h
      = Some (set_alg_name (set_alg_length algorithm (8 * (l / 8))) HmacProvider_name) /\
    keyStorage st' !! handle_id h = Some (next_id st) /\
    heap st' !! next_id st = Some v /\
    key_algorithm v = handle_algorithm h /\
    8 * JS.len (key_data v) = 8 * (l / 8).
Proof.
  intros Hl Hrange. unfold HmacProvider_onGenerateKey. rewrite Hl.
  replace (l =? 0) with false by (symmetry; apply Z.eqb_neq; lia).
  unfold bind at 1. unfold lift at 1.
  rewrite round_down_small by lia.
  assert (Hq : 0 <= l / 8 < 2 ^ 28).
  { split; [apply Z.div_pos; lia | apply Z.div_lt_upper_bound; lia]. }
  rewrite shr3_small by lia.
  replace (8 * (l / 8) / 8) with (l / 8) by (rewrite Z.mul_comm, Z.div_mul; lia).
  destruct (randomBytes_ok E (l / 8) st) as (data & Hdata & Hlen); [lia|].
  rewrite (bind_ok _ _ _ _ _ Hdata).
  unfold bind, new_key. cbn [next_id heap keyStorage entropy].
  erewrite setCryptoKey_ok by (cbn [heap]; apply lookup_insert_eq).
  do 3 eexists. split; [reflexivity|]. cbn -[JS.len Z.mul Z.div].
  rewrite !lookup_insert_eq. repeat split; try reflexivity.
  cbn [key_data]. by rewrite Hlen.
Qed.

Lemma round_down_wraps : JS.shl (JS.shr 4294967424 3) 3 = 128.
Proof. reflexivity. Qed.

(** C10 (failing input): a request for 4294967424 bits, already a multiple
    of 8, yields a key whose algorithm length is 128 and whose data is 16
    bytes. *)
Theorem HmacProvider_onGenerateKey_wraps_length
    (E : Engine) (hash : option string) (extractable : bool) (keyUsages : list string)
    (st : Store) :
  let algorithm := mkAlgorithm "HMAC" (Some 4294967424) hash None None None in
  exists h st' v,
    HmacProvider_onGenerateKey E algorithm extractable keyUsages st = (Ok h, st') /\
    handle_algorithm h = Some (set_alg_length algorithm 128) /\
    keyStorage st' !! handle_id h = Some (next_id st) /\
    heap st' !! next_id st = Some v /\
    key_algorithm v = Some (set_alg_length algorithm 128) /\
    JS.len (key_data v) = 16.
Proof.
  intros algorithm. unfold HmacProvider_onGenerateKey.
  cbn [alg_length algorithm]. change (4294967424 =? 0) with false. cbv iota.
  unfold bind at 1. unfold lift at 1. rewrite round_down_wraps.
  change (JS.shr 128 3) with 16.
  destruct (randomBytes_ok E 16 st) as (data & Hdata & Hlen); [lia|].
  rewrite (bind_ok _ _ _ _ _ Hdata).
  unfold bind, new_key. cbn [next_id heap keyStorage entropy].
  erewrite setCryptoKey_ok by (cbn [heap]; apply lookup_insert_eq).
  do 3 eexists. split; [reflexivity|]. cbn -[JS.len].
  rewrite !lookup_insert_eq. repeat split; try reflexivity. exact Hlen.
Qed.

(** ** ECDSA verification *)

Lemma slice_take buf a b n :
  (Z.to_nat b <= n)%nat -> JS.slice (take n buf) a b = JS.slice buf a b.
Proof.
  intros H. unfold JS.slice. apply list_eq. intros i.
  destruct (decide (i < Z.to_nat b - Z.to_nat a)%nat).
  - rewrite !lookup_take_lt by lia. rewrite !lookup_drop.
    by rewrite lookup_take_lt by lia.
  - by rewrite !lookup_take_ge by lia.
Qed.

Lemma EcCrypto_getPointSize_pos namedCurve ps :
  EcCrypto_getPointSize namedCurve = Ok ps -> ps = 32 \/ ps = 48 \/ ps = 66.
Proof.
  unfold EcCrypto_getPointSize. intros H.
  repeat match type of H with
         | (if ?c then _ else _) = _ => destruct c
         end; inversion H; auto.
Qed.

(** C5, as the source has it: [verify] makes no length check.  The first
    [pointSize] bytes of the signature are taken as [r] and the next
    [pointSize] as [s] (fewer when the signature is shorter), leading zero
    bytes are stripped, and the answer is the one the engine's verifier
    gives for the serialized pair; bytes beyond [2 * pointSize] are
    ignored. *)
Theorem EcCrypto_verify_no_length_check
    (E : Engine) (algorithm : EcdsaParams) (key : ref) (signature data : list Z)
    (st : Store) (v : InternalCryptoKey) (a : Algorithm) (h : string) (pointSize : Z) :
  heap st !! key = Some v ->
  key_algorithm v = Some a ->
  EcCrypto_getPointSize (alg_namedCurve a) = Ok pointSize ->
  ecdsa_hash algorithm = Some h ->
  createVerify E (replace_dash h) = Ok tt ->
  (exists pem st',
     EcCrypto_verify E algorithm key signature data st =
       (verifier_verify E (replace_dash h) data pem
          (serialize_EcDsaSignature E
             (EcCrypto_removePadding (JS.slice signature 0 pointSize))
             (EcCrypto_removePadding (JS.slice signature pointSize (pointSize + pointSize)))),
        st')) /\
  EcCrypto_verify E algorithm key signature data st =
    EcCrypto_verify E algorithm key (take (Z.to_nat (2 * pointSize)) signature) data st.
Proof.
  intros Hv Ha Hps Hh Hcv.
  assert (Hpos := EcCrypto_getPointSize_pos _ _ Hps).
  assert (Hshape : forall sig,
    exists pem st',
     EcCrypto_verify E algorithm key sig data st =
       (verifier_verify E (replace_dash h) data pem
          (serialize_EcDsaSignature E
             (EcCrypto_removePadding (JS.slice sig 0 pointSize))
             (EcCrypto_removePadding (JS.slice sig pointSize (pointSize + pointSize)))),
        st') /\
     cache_pem E "PUBLIC" key st = (Ok pem, st')).
  { intros sig. unfold EcCrypto_verify. rewrite Hh.
    unfold bind at 1. unfold lift at 1.
    unfold bind at 1. unfold lift at 1. rewrite Hcv.
    unfold bind at 1.
    assert (Hc : exists pem st', cache_pem E "PUBLIC" key st = (Ok pem, st') /\
              exists v', heap st' !! key = Some v' /\ key_algorithm v' = Some a).
    { unfold cache_pem. rewrite Hv.
      destruct (negb (default "" (key_pem v) =? "")%string).
      - do 2 eexists. split; [reflexivity|]. eauto.
      - do 2 eexists. split; [reflexivity|]. cbn [heap]. rewrite lookup_insert_eq.
        eexists. split; [reflexivity|]. done. }
    destruct Hc as (pem & st' & Hc & v' & Hv' & Ha').
    rewrite Hc. exists pem, st'. split; [|reflexivity].
    unfold bind, deref, lift. rewrite Hv'. rewrite Ha', Hps. reflexivity. }
  split.
  - destruct (Hshape signature) as (pem & st' & H & _). eauto.
  - destruct (Hshape signature) as (pem & st' & H & Hc).
    destruct (Hshape (take (Z.to_nat (2 * pointSize)) signature)) as (pem2 & st2 & H2 & Hc2).
    rewrite H, H2. rewrite Hc in Hc2. inversion Hc2; subst.
    rewrite !slice_take by lia. reflexivity.
Qed.

Lemma EcCrypto_verify_no_length_check_witness :
  (exists pem st',
     EcCrypto_verify TestEngine.engine (mkEcdsaParams (Some "SHA-256")) 1%positive
       long_signature [1; 2; 3] ec_store =
       (verifier_verify TestEngine.engine (replace_dash "SHA-256") [1; 2; 3] pem
          (serialize_EcDsaSignature TestEngine.engine
             (EcCrypto_removePadding (JS.slice long_signature 0 32))
             (EcCrypto_removePadding (JS.slice long_signature 32 (32 + 32)))),
        st')) /\
  EcCrypto_verify TestEngine.engine (mkEcdsaParams (Some "SHA-256")) 1%positive
    long_signature [1; 2; 3] ec_store =
  EcCrypto_verify TestEngine.engine (mkEcdsaParams (Some "SHA-256")) 1%positive
    (take (Z.to_nat (2 * 32)) long_signature) [1; 2; 3] ec_store.
Proof.
  apply (EcCrypto_verify_no_length_check TestEngine.engine (mkEcdsaParams (Some "SHA-256"))
           1%positive long_signature [1; 2; 3] ec_store ec_public_material
           (mkAlgorithm "ECDSA" None None (Some "P-256") None None) "SHA-256" 32);
    reflexivity.
Defined.

(** C5 as stated fails: a P-256 signature of 65 bytes is not rejected; its
    first 64 bytes are verified and the verifier's answer is returned. *)
Lemma EcdsaProvider_onVerify_length_counterexample :
  JS.len long_signature <> 2 * 32 /\
  EcCrypto_getPointSize (Some "P-256") = Ok 32 /\
  fst (EcdsaProvider_onVerify TestEngine.engine (mkEcdsaParams (Some "SHA-256"))
         ec_public_handle long_signature [1; 2; 3] ec_store) = Ok true.
Proof. repeat split. discriminate. Qed.

(** ** RSA-OAEP unpadding *)

Section Oaep.

Variable E : Engine.
Variable hashName : string.
Variable size : Z.
Hypothesis size_ok : ShaCrypto_size hashName = Ok size.

Local Abbreviation hashSize := (JS.shr size 3).
Local Abbreviation failed := (Error "Decryption failed").

Lemma ShaCrypto_size_values : size = 160 \/ size = 256 \/ size = 384 \/ size = 512.
Proof.
  revert size_ok. unfold ShaCrypto_size.
  repeat match goal with
         | |- (if ?c then _ else _) = _ -> _ => destruct c
         end; intros H; inversion H; auto.
Qed.

Lemma hashSize_pos : 0 < hashSize.
Proof. destruct ShaCrypto_size_values as [-> | [-> | [-> | ->]]]; reflexivity. Qed.

Lemma mgf1_ok seed length : exists mask, mgf1 E hashName seed length = Ok mask.
Proof. unfold mgf1. rewrite size_ok. simpl. eauto. Qed.

Lemma oaep_unmask_ok pkcs0 :
  exists seed dataBlock, oaep_unmask E hashName hashSize pkcs0 = Ok (seed, dataBlock).
Proof.
  unfold oaep_unmask.
  destruct (mgf1_ok (JS.slice_from pkcs0 (hashSize + 1))
                    (JS.len (JS.slice pkcs0 1 (hashSize + 1)))) as [m1 ->].
  simpl.
  match goal with |- context [mgf1 E hashName ?s ?l] => destruct (mgf1_ok s l) as [m2 ->] end.
  simpl. eauto.
Qed.

Lemma scan_fold_decided dataBlock l r :
  fold_left (scan_step dataBlock) l (Some r) = Some r.
Proof. induction l; simpl; auto. Qed.

Lemma scan_fold_cases dataBlock l :
  (fold_left (scan_step dataBlock) l None = None /\
   forall i, In i l -> JS.at_ dataBlock i = Some 0) \/
  fold_left (scan_step dataBlock) l None = Some (Throw failed) \/
  (exists p, In p l /\ JS.at_ dataBlock p = Some 1 /\
             fold_left (scan_step dataBlock) l None = Some (Ok p)).
Proof.
  induction l as [|i l IH]; simpl.
  - left. split; [done|]. intros i [].
  - unfold scan_step at 2.
    destruct (JS.at_ dataBlock i) as [[|p|p]|] eqn:Hi.
    + destruct IH as [[H1 H2]|[H|(p & Hp & H1 & H2)]].
      * left. split; [done|]. intros j [<-|Hj]; auto.
      * right. left. done.
      * right. right. exists p. auto.
    + destruct p; try (right; left; apply scan_fold_decided).
      right. right. exists i. rewrite scan_fold_decided. auto.
    + right. left. apply scan_fold_decided.
    + right. left. apply scan_fold_decided.
Qed.

Lemma scan_delimiter_cases dataBlock hs :
  scan_delimiter dataBlock hs = Throw failed \/
  (exists p, hs <= p < JS.len dataBlock /\ JS.at_ dataBlock p = Some 1 /\
             scan_delimiter dataBlock hs = Ok p) \/
  scan_delimiter dataBlock hs = Ok (Z.max hs (JS.len dataBlock)).
Proof.
  unfold scan_delimiter, JS.for_loop.
  change (fold_left (fun acc i => scan_step dataBlock acc i))
    with (fold_left (scan_step dataBlock)).
  destruct (scan_fold_cases dataBlock (seqZ hs (JS.len dataBlock - hs)))
    as [[H1 H2]|[H|(p & Hp & H1 & H2)]].
  - rewrite H1. auto.
  - rewrite H. auto.
  - rewrite H2. right. left. exists p. repeat split; auto.
    + apply list_elem_of_In, elem_of_seqZ in Hp. lia.
    + apply list_elem_of_In, elem_of_seqZ in Hp. lia.
Qed.

(** Every failure of the unpadding is the same error. *)
Lemma oaep_unpad_failure label pkcs0 e :
  oaep_unpad E hashName hashSize label pkcs0 = Throw e -> e = failed.
Proof.
  unfold oaep_unpad.
  destruct (negb _); [intros H; by inversion H|].
  destruct (oaep_unmask_ok pkcs0) as (seed & dataBlock & ->). simpl.
  destruct (label_mismatch _ _ _); [intros H; by inversion H|].
  destruct (scan_delimiter_cases dataBlock hashSize) as [-> | [(p & _ & _ & ->) | ->]]; simpl.
  - intros H; by inversion H.
  - destruct (p =? JS.len dataBlock); intros H; by inversion H.
  - destruct (_ =? JS.len dataBlock); intros H; by inversion H.
Qed.

Lemma oaep_unpad_leading_byte label pkcs0 :
  JS.at_ pkcs0 0 <> Some 0 -> oaep_unpad E hashName hashSize label pkcs0 = Throw failed.
Proof.
  intros H. unfold oaep_unpad. rewrite bool_decide_eq_false_2 by done. reflexivity.
Qed.

Lemma oaep_unpad_label label pkcs0 seed dataBlock :
  oaep_unmask E hashName hashSize pkcs0 = Ok (seed, dataBlock) ->
  label_mismatch (createHash E (replace_dash hashName) (default [] label)) dataBlock hashSize
    = true ->
  oaep_unpad E hashName hashSize label pkcs0 = Throw failed.
Proof.
  intros Hu Hl. unfold oaep_unpad. destruct (negb _); [done|].
  rewrite Hu. simpl. by rewrite Hl.
Qed.

Hypothesis digest_length :
  forall d, JS.len (createHash E (replace_dash hashName) d) = hashSize.

(** A data block shorter than the digest cannot match the label hash. *)
Lemma label_mismatch_short label dataBlock :
  JS.len dataBlock < hashSize ->
  label_mismatch (createHash E (replace_dash hashName) label) dataBlock hashSize = true.
Proof.
  intros Hlen. unfold label_mismatch. apply existsb_exists.
  exists (JS.len dataBlock). split.
  - apply list_elem_of_In, elem_of_seqZ. unfold JS.len in *. lia.
  - apply negb_true_iff, bool_decide_eq_false.
    pose proof (digest_length label) as Hd.
    unfold JS.at_, JS.len in *.
    replace (Z.of_nat (length dataBlock) <? 0) with false by (symmetry; apply Z.ltb_ge; lia).
    rewrite Nat2Z.id.
    rewrite (lookup_ge_None_2 dataBlock) by lia.
    destruct (lookup_lt_is_Some_2 (createHash E (replace_dash hashName) label)
                (length dataBlock)) as [x Hx]; [lia|].
    rewrite Hx. discriminate.
Qed.

Lemma oaep_unpad_delimiter label pkcs0 seed dataBlock :
  oaep_unmask E hashName hashSize pkcs0 = Ok (seed, dataBlock) ->
  (forall i, hashSize <= i < JS.len dataBlock -> JS.at_ dataBlock i <> Some 1) ->
  oaep_unpad E hashName hashSize label pkcs0 = Throw failed.
Proof.
  intros Hu Hno. unfold oaep_unpad. destruct (negb _); [done|].
  rewrite Hu. simpl.
  destruct (label_mismatch _ _ _) eqn:Hl; [done|].
  assert (Hlen : hashSize <= JS.len dataBlock).
  { destruct (Z_lt_le_dec (JS.len dataBlock) hashSize) as [Hlt|]; [|done].
    rewrite (label_mismatch_short _ _ Hlt) in Hl. discriminate. }
  destruct (scan_delimiter_cases dataBlock hashSize) as [-> | [(p & Hp & H1 & _) | ->]]; simpl.
  - done.
  - exfalso. by apply (Hno p).
  - rewrite Z.max_r by done. by rewrite Z.eqb_refl.
Qed.

End Oaep.

Lemma cache_pem_ok E kind value st v :
  heap st !! value = Some v ->
  exists pem st', cache_pem E kind value st = (Ok pem, st').
Proof.
  intros Hv. unfold cache_pem. rewrite Hv. destruct (negb _); eauto.
Qed.

(** C2, as the source has it: a ciphertext whose length differs from the
    modulus byte-length is refused with the error "Bad data", before the
    private-key operation; after it, every failure of the unpadding — a
    non-zero leading byte, a label-hash mismatch, a missing 0x01 delimiter,
    a padding byte other than 0 and 1 — raises the one error "Decryption
    failed". *)
Theorem RsaOaepProvider_onDecrypt_failures
    (E : Engine) (algorithm : RsaOaepParams) (key : Handle) (data : list Z)
    (st st1 : Store) (r : ref) (v : InternalCryptoKey) (a : Algorithm)
    (hashName : string) (size : Z) :
  getCryptoKey key st = (Ok r, st1) ->
  heap st1 !! r = Some v ->
  key_algorithm v = Some a ->
  alg_hash a = Some hashName ->
  ShaCrypto_size hashName = Ok size ->
  (forall d, JS.len (createHash E (replace_dash hashName) d) = JS.shr size 3) ->
  let keySize := JS.shr (default 0 (alg_modulusLength a)) 3 in
  let hashSize := JS.shr size 3 in
  let label := oaep_label algorithm in
  (JS.len data <> keySize ->
   RsaOaepProvider_onDecrypt E algorithm key data st = (Throw (Error "Bad data"), st1)) /\
  (JS.len data = keySize ->
   exists pem st2,
     cache_pem E "PRIVATE" r st1 = (Ok pem, st2) /\
     forall pkcs0, privateDecrypt_no_padding E pem data = Ok pkcs0 ->
       RsaOaepProvider_onDecrypt E algorithm key data st
         = (oaep_unpad E hashName hashSize label pkcs0, st2)) /\
  (forall pkcs0,
     (forall e, oaep_unpad E hashName hashSize label pkcs0 = Throw e ->
                e = Error "Decryption failed") /\
     (JS.at_ pkcs0 0 <> Some 0 ->
      oaep_unpad E hashName hashSize label pkcs0 = Throw (Error "Decryption failed")) /\
     (forall seed dataBlock,
        oaep_unmask E hashName hashSize pkcs0 = Ok (seed, dataBlock) ->
        label_mismatch (createHash E (replace_dash hashName) (default [] label))
                       dataBlock hashSize = true ->
        oaep_unpad E hashName hashSize label pkcs0 = Throw (Error "Decryption failed")) /\
     (forall seed dataBlock,
        oaep_unmask E hashName hashSize pkcs0 = Ok (seed, dataBlock) ->
        (forall i, hashSize <= i < JS.len dataBlock -> JS.at_ dataBlock i <> Some 1) ->
        oaep_unpad E hashName hashSize label pkcs0 = Throw (Error "Decryption failed"))).
Proof.
  intros Hget Hv Ha Hh Hs Hd keySize hashSize label.
  assert (Hstart :
    RsaOaepProvider_onDecrypt E algorithm key data st =
      (if negb (JS.len data =? keySize) then throw (Error "Bad data")
       else pem <- cache_pem E "PRIVATE" r ;;
            pkcs0 <- lift (privateDecrypt_no_padding E pem data) ;;
            lift (oaep_unpad E hashName hashSize label pkcs0)) st1).
  { unfold RsaOaepProvider_onDecrypt.
    rewrite (bind_ok _ _ _ _ _ Hget).
    unfold bind at 1. unfold deref at 1. rewrite Hv.
    rewrite Ha. unfold bind at 1. unfold lift at 1.
    rewrite Hh. unfold bind at 1. unfold lift at 1.
    rewrite Hs. unfold bind at 1. unfold lift at 1.
    reflexivity. }
  split; [|split].
  - intros Hlen. rewrite Hstart.
    replace (JS.len data =? keySize) with false by (symmetry; by apply Z.eqb_neq).
    reflexivity.
  - intros Hlen.
    destruct (cache_pem_ok E "PRIVATE" r st1 v Hv) as (pem & st2 & Hc).
    exists pem, st2. split; [done|]. intros pkcs0 Hdec.
    rewrite Hstart. rewrite Hlen, Z.eqb_refl. cbn [negb].
    rewrite (bind_ok _ _ _ _ _ Hc).
    unfold bind, lift. rewrite Hdec. reflexivity.
  - intros pkcs0. split; [|split; [|split]].
    + intros e. by apply oaep_unpad_failure.
    + by apply oaep_unpad_leading_byte.
    + intros seed dataBlock. by apply oaep_unpad_label.
    + intros seed dataBlock. by apply oaep_unpad_delimiter.
Qed.

Lemma RsaOaepProvider_onDecrypt_failures_witness :
  RsaOaepProvider_onDecrypt TestEngine.engine (mkRsaOaepParams None) rsa_private_handle
    [1; 2; 3] rsa_store = (Throw (Error "Bad data"), rsa_store).
Proof.
  refine (proj1 (RsaOaepProvider_onDecrypt_failures TestEngine.engine (mkRsaOaepParams None)
                   rsa_private_handle [1; 2; 3] rsa_store rsa_store 1%positive
                   rsa_private_material
                   (mkAlgorithm "RSA-OAEP" None (Some "SHA-1") None (Some [1; 0; 1]) (Some 512))
                   "SHA-1" 160 _ _ _ _ _ _) _);
    try reflexivity.
  discriminate.
Defined.

(** C2 as stated fails: a ciphertext of the wrong length and a ciphertext
    with a non-zero leading byte are refused with different errors. *)
Lemma RsaOaepProvider_onDecrypt_error_counterexample :
  exists e1 e2,
    fst (RsaOaepProvider_onDecrypt TestEngine.engine (mkRsaOaepParams None)
           rsa_private_handle [1; 2; 3] rsa_store) = Throw e1 /\
    fst (RsaOaepProvider_onDecrypt TestEngine.engine (mkRsaOaepParams None)
           rsa_private_handle (1 :: replicate 63 0) rsa_store) = Throw e2 /\
    e1 <> e2.
Proof.
  exists (Error "Bad data"), (Error "Decryption failed").
  repeat split. discriminate.
Qed.

(** ** HKDF *)

Section Hkdf.

Variable E : Engine.
Variables (hash : string) (PRK info : list Z).

Local Abbreviation T := (RFC5869.T E hash PRK info).

(** The body of the expansion loop. *)
Local Abbreviation expand :=
  (fun (blocks : list (list Z)) (i : Z) =>
     blocks ++ [createHmac E hash PRK
                  (default [] (blocks !! Z.to_nat (i - 1)) ++ info ++ [JS.toUint8 i])]).

(** After [k] turns the array holds [T(0), T(1), ..., T(k)]. *)
Lemma expand_loop k :
  fold_left expand (seqZ 1 (Z.of_nat k)) [JS.alloc 0] = map T (seq 0 (S k)).
Proof.
  induction k as [|k IH].
  - reflexivity.
  - rewrite seqZ_S, fold_left_app, IH. cbn [fold_left].
    rewrite (seq_S (S k) 0), map_app. cbn [map]. f_equal. f_equal.
    replace (Z.to_nat (1 + Z.of_nat k - 1)) with k by lia.
    rewrite list_lookup_fmap, lookup_seq_lt by lia. cbn [fmap option_fmap option_map].
    cbn [Nat.add RFC5869.T default]. unfold RFC5869.byte, JS.toUint8.
    replace (1 + Z.of_nat k) with (Z.of_nat (S k)) by lia. reflexivity.
Qed.

End Hkdf.

Lemma ceil_div_bytes (B H : nat) :
  (0 < H)%nat ->
  JS.ceil_div (8 * Z.of_nat B) (8 * Z.of_nat H) = Z.of_nat ((B + H - 1) / H).
Proof.
  intros HH. unfold JS.ceil_div.
  replace (- (8 * Z.of_nat B)) with (8 * - Z.of_nat B) by lia.
  rewrite Z.div_mul_cancel_l by lia.
  rewrite Nat2Z.inj_div.
  replace (Z.of_nat (B + H - 1)) with (Z.of_nat B + Z.of_nat H - 1) by lia.
  set (b := Z.of_nat B). set (h := Z.of_nat H).
  assert (0 < h) by lia. assert (0 <= b) by lia.
  pose proof (Z.div_mod (b + h - 1) h ltac:(lia)) as Hq.
  pose proof (Z.mod_pos_bound (b + h - 1) h ltac:(lia)) as Hr.
  set (q := (b + h - 1) / h) in *.
  assert ((- b) / h = - q) as ->; [|lia].
  symmetry. apply (Z.div_unique_pos _ _ _ (h - 1 - (b + h - 1) mod h)); lia.
Qed.

(** C6: for a requested length of [byteLength] whole bytes, [deriveBits]
    returns the RFC 5869 output: [PRK = HMAC(salt, secret)],
    [T(i) = HMAC(PRK, T(i-1) ‖ info ‖ byte(i))] from [T(0)] empty, and
    [T(1) ‖ T(2) ‖ ...] up to [i = ⌈byteLength / hashLen⌉] cut to
    [byteLength] bytes.  The counter octet [byte(i)] is [i] for the counts
    the RFC allows (at most 255) and [i mod 256] beyond them. *)
Theorem HkdfProvider_onDeriveBits_rfc5869
    (E : Engine) (params : HkdfParams) (baseKey : Handle) (byteLength : nat)
    (st st1 : Store) (r : ref) (v : InternalCryptoKey) :
  getCryptoKey baseKey st = (Ok r, st1) ->
  heap st1 !! r = Some v ->
  let hash := replace_dash (hkdf_hash params) in
  let hashLen := length (createHash E hash []) in
  (0 < hashLen)%nat ->
  HkdfProvider_onDeriveBits E params baseKey (8 * Z.of_nat byteLength) st =
    (Ok (RFC5869.hkdf E hash (hkdf_salt params) (key_data v) (hkdf_info params)
           byteLength hashLen),
     st1).
Proof.
  intros Hget Hv hash hashLen Hpos.
  unfold HkdfProvider_onDeriveBits.
  rewrite (bind_ok _ _ _ _ _ Hget).
  unfold bind, deref. rewrite Hv. unfold ret. f_equal. f_equal.
  unfold RFC5869.hkdf, JS.for_loop, JS.len. fold hash. fold hashLen.
  rewrite ceil_div_bytes by done.
  replace (Z.of_nat ((byteLength + hashLen - 1) / hashLen) + 1 - 1)
    with (Z.of_nat ((byteLength + hashLen - 1) / hashLen)) by lia.
  rewrite (expand_loop E hash _ (hkdf_info params)).
  unfold JS.slice. cbn [seq map concat Z.to_nat drop app].
  rewrite Z.mul_comm, Z.div_mul by lia. rewrite Nat2Z.id, Nat.sub_0_r.
  reflexivity.
Qed.

Lemma HkdfProvider_onDeriveBits_rfc5869_witness :
  HkdfProvider_onDeriveBits TestEngine.engine hkdf_request restored_handle
    (8 * Z.of_nat 50) store_with_material =
  (Ok (RFC5869.hkdf TestEngine.engine "SHA1" [9; 9] [1; 2; 3] [7; 7] 50 20),
   snd (getCryptoKey restored_handle store_with_material)).
Proof.
  apply (HkdfProvider_onDeriveBits_rfc5869 TestEngine.engine hkdf_request restored_handle 50
           store_with_material (snd (getCryptoKey restored_handle store_with_material))
           1%positive hkdf_material).
  - reflexivity.
  - reflexivity.
  - vm_compute. lia.
Defined.

(** ** Buffers and loops *)

Section Loops.

Lemma for_loop_S {St : Type} (body : Z -> St -> St) (s : St) (k : nat) :
  JS.for_loop 0 (Z.of_nat (S k)) body s = body (Z.of_nat k) (JS.for_loop 0 (Z.of_nat k) body s).
Proof.
  unfold JS.for_loop. rewrite !Z.sub_0_r, seqZ_S, fold_left_app. reflexivity.
Qed.

Lemma for_loop_nil {St : Type} (body : Z -> St -> St) (s : St) hi lo :
  hi <= lo -> JS.for_loop lo hi body s = s.
Proof. intros H. unfold JS.for_loop. rewrite seqZ_nil by lia. reflexivity. Qed.

(** A loop that writes cell [i] at turn [i] fills the buffer from the
    left. *)
Lemma for_loop_fill (body : Z -> list Z -> list Z) (g : Z -> Z) (k : nat) (init : list Z) :
  (forall i out, 0 <= i < JS.len out -> body i out = <[ Z.to_nat i := g i ]> out) ->
  (k <= length init)%nat ->
  JS.for_loop 0 (Z.of_nat k) body init = map g (seqZ 0 (Z.of_nat k)) ++ drop k init.
Proof.
  intros Hbody. induction k as [|k IH]; intros Hk.
  - rewrite for_loop_nil by lia. reflexivity.
  - rewrite for_loop_S, IH by lia.
    assert (Hlen : length (map g (seqZ 0 (Z.of_nat k))) = k)
      by (rewrite length_map, length_seqZ; lia).
    rewrite Hbody; cycle 1.
    { unfold JS.len. rewrite length_app, Hlen, length_drop. lia. }
    rewrite Nat2Z.id.
    rewrite insert_app_r_alt by lia. rewrite Hlen, Nat.sub_diag.
    destruct (lookup_lt_is_Some_2 init k) as [x Hx]; [lia|].
    rewrite (drop_S _ _ _ Hx). cbn [insert list_insert].
    rewrite seqZ_S, map_app. cbn [map]. rewrite <- app_assoc. reflexivity.
Qed.

Lemma for_loop_fill_all (body : Z -> list Z -> list Z) (g : Z -> Z) (init : list Z) :
  (forall i out, 0 <= i < JS.len out -> body i out = <[ Z.to_nat i := g i ]> out) ->
  JS.for_loop 0 (JS.len init) body init = map g (seqZ 0 (JS.len init)).
Proof.
  intros Hbody. unfold JS.len. rewrite (for_loop_fill body g) by done.
  rewrite drop_all. apply app_nil_r.
Qed.

End Loops.

(** ** Bytes *)

Lemma byte_table (P : Z -> bool) :
  forallb P (seqZ 0 256) = true -> forall b, byte b -> P b = true.
Proof.
  intros H b Hb. rewrite forallb_forall in H. apply H.
  apply list_elem_of_In, elem_of_seqZ. unfold byte in Hb. lia.
Qed.

Lemma byte_table2 (P : Z -> Z -> bool) :
  forallb (fun a => forallb (P a) (seqZ 0 256)) (seqZ 0 256) = true ->
  forall a b, byte a -> byte b -> P a b = true.
Proof.
  intros H a b Ha Hb.
  apply (byte_table (P a)); [|done].
  apply (byte_table (fun a => forallb (P a) (seqZ 0 256))); done.
Qed.

Lemma bxor_byte a b : byte a -> byte b -> JS.toUint8 (JS.bxor a b) = Z.lxor a b.
Proof.
  intros Ha Hb. apply Z.eqb_eq.
  apply (byte_table2 (fun a b => JS.toUint8 (JS.bxor a b) =? Z.lxor a b)); [|done|done].
  vm_compute. reflexivity.
Qed.

Lemma lxor_byte a b : byte a -> byte b -> byte (Z.lxor a b).
Proof.
  intros Ha Hb.
  assert (H : (0 <=? Z.lxor a b) && (Z.lxor a b <? 256) = true).
  { apply (byte_table2 (fun a b => (0 <=? Z.lxor a b) && (Z.lxor a b <? 256))); [|done|done].
    vm_compute. reflexivity. }
  apply andb_true_iff in H as [H1 H2]. unfold byte. lia.
Qed.

Lemma band128_byte b : byte b -> (JS.band b 128 =? 0) = (b <? 128).
Proof.
  intros Hb. apply Bool.eqb_prop.
  apply (byte_table (fun b => Bool.eqb (JS.band b 128 =? 0) (b <? 128))); [|done].
  vm_compute. reflexivity.
Qed.

Lemma shl1_byte b : byte b -> JS.toUint8 (JS.shl b 1) = (2 * b) mod 256.
Proof.
  intros Hb. apply Z.eqb_eq.
  apply (byte_table (fun b => JS.toUint8 (JS.shl b 1) =? (2 * b) mod 256)); [|done].
  vm_compute. reflexivity.
Qed.

Lemma get_of_nat (l : list Z) (i : nat) : JS.get l (Z.of_nat i) = default 0 (l !! i).
Proof.
  unfold JS.get, JS.at_.
  replace (Z.of_nat i <? 0) with false by (symmetry; apply Z.ltb_ge; lia).
  by rewrite Nat2Z.id.
Qed.

Lemma get_lookup (l : list Z) (i : nat) x : l !! i = Some x -> JS.get l (Z.of_nat i) = x.
Proof. intros H. by rewrite get_of_nat, H. Qed.

Lemma get_nonneg (l : list Z) (i : Z) : 0 <= i -> JS.get l i = default 0 (l !! Z.to_nat i).
Proof. intros H. rewrite <- (Z2Nat.id i) at 1 by done. apply get_of_nat. Qed.

Lemma set_nonneg (l : list Z) (i v : Z) :
  0 <= i -> JS.set l i v = <[ Z.to_nat i := JS.toUint8 v ]> l.
Proof.
  intros H. unfold JS.set.
  by replace (i <? 0) with false by (symmetry; apply Z.ltb_ge; lia).
Qed.

Lemma Forall_byte_lookup (l : list Z) (i : nat) : Forall byte l -> byte (default 0 (l !! i)).
Proof.
  intros Hl. destruct (l !! i) as [x|] eqn:Hx; simpl.
  - eapply Forall_lookup_1; [exact Hl | exact Hx].
  - unfold byte. lia.
Qed.

Lemma len_alloc n : 0 <= n -> JS.len (JS.alloc n) = n.
Proof. intros H. unfold JS.len, JS.alloc. rewrite length_replicate. lia. Qed.

(** ** [xor] is the bytewise exclusive or *)

Lemma xor_zip_with a b :
  Forall byte a -> Forall byte b -> xor a b = zip_with Z.lxor a b.
Proof.
  intros Ha Hb. unfold xor.
  set (n := Z.min (JS.len a) (JS.len b)).
  assert (Hn : 0 <= n) by (unfold n, JS.len; lia).
  rewrite <- (len_alloc n Hn) at 1.
  rewrite (for_loop_fill_all _
             (fun i => JS.toUint8 (JS.bxor (JS.get a i) (JS.get b i)))); cycle 1.
  { intros i out Hi. apply set_nonneg. lia. }
  rewrite len_alloc by done.
  apply list_eq. intros i.
  rewrite list_lookup_fmap, lookup_zip_with.
  destruct (decide (Z.of_nat i < n)) as [Hlt|Hge].
  - rewrite lookup_seqZ_lt by done. cbn [fmap option_fmap option_map]. rewrite Z.add_0_l.
    rewrite !get_of_nat.
    destruct (lookup_lt_is_Some_2 a i) as [x Hx]; [unfold n, JS.len in *; lia|].
    destruct (lookup_lt_is_Some_2 b i) as [y Hy]; [unfold n, JS.len in *; lia|].
    rewrite Hx, Hy. cbn [default fmap option_fmap option_map mbind option_bind].
    f_equal. apply bxor_byte.
    + eapply Forall_lookup_1; [exact Ha | exact Hx].
    + eapply Forall_lookup_1; [exact Hb | exact Hy].
  - rewrite lookup_seqZ_ge by lia. cbn.
    destruct (a !! i) as [x|] eqn:Hx; [|done]. cbn.
    destruct (b !! i) as [y|] eqn:Hy; [|done]. exfalso.
    apply lookup_lt_Some in Hx, Hy. unfold n, JS.len in *. lia.
Qed.

Lemma zip_with_lxor_byte a b :
  Forall byte a -> Forall byte b -> Forall byte (zip_with Z.lxor a b).
Proof.
  intros Ha. revert b. induction Ha as [|x a Hx Ha IH]; intros b Hb; [constructor|].
  destruct Hb as [|y b Hy Hb]; [constructor|]. cbn.
  constructor; [by apply lxor_byte | by apply IH].
Qed.

Lemma zip_with_lxor_comm a b : zip_with Z.lxor a b = zip_with Z.lxor b a.
Proof.
  revert b. induction a as [|x a IH]; intros [|y b]; cbn; try done.
  by rewrite Z.lxor_comm, IH.
Qed.

(** ** [bitShiftLeft] cell by cell *)

Lemma shift_bytes_lookup (l : list Z) (i : nat) :
  shift_bytes l !! i =
    (fun b => (2 * b) mod 256 + default 0 (l !! S i) / 128) <$> l !! i.
Proof.
  revert i. induction l as [|b rest IH]; intros i; [done|].
  destruct i as [|i]; cbn.
  - by destruct rest.
  - apply IH.
Qed.

Lemma length_shift_bytes l : length (shift_bytes l) = length l.
Proof. induction l; cbn; auto. Qed.

Lemma shift_bytes_byte l : Forall byte l -> Forall byte (shift_bytes l).
Proof.
  induction 1 as [|b rest Hb Hrest IH]; cbn; constructor; [|done].
  assert (Hc : byte (default 0 (head rest))).
  { destruct Hrest; cbn; [unfold byte; lia | done]. }
  unfold byte in *.
  pose proof (Z.mod_pos_bound (2 * b) 256 ltac:(lia)).
  assert (0 <= default 0 (head rest) / 128 <= 1).
  { split; [apply Z.div_pos; lia|]. apply Z.lt_succ_r. apply Z.div_lt_upper_bound; lia. }
  assert (Heven : (2 * b) mod 256 = 2 * (b mod 128)).
  { replace 256 with (2 * 128) by lia. rewrite Z.mul_mod_distr_l by lia. done. }
  pose proof (Z.mod_pos_bound b 128 ltac:(lia)). lia.
Qed.

Lemma bitShiftLeft_shift_bytes buffer :
  Forall byte buffer -> bitShiftLeft buffer = shift_bytes buffer.
Proof.
  intros Hb. unfold bitShiftLeft.
  destruct (decide (length buffer = 0%nat)) as [Hz|Hnz].
  { apply length_zero_iff_nil in Hz. subst. reflexivity. }
  set (last := JS.len buffer - 1).
  assert (Hlast : last = Z.of_nat (length buffer - 1)) by (unfold last, JS.len; lia).
  set (g := fun i : Z =>
              if JS.band (JS.get buffer (i + 1)) 128 =? 0
              then JS.toUint8 (JS.shl (JS.get buffer i) 1)
              else JS.toUint8 (JS.toUint8 (JS.shl (JS.get buffer i) 1) + 1)).
  rewrite Hlast.
  rewrite (for_loop_fill _ g); cycle 1.
  { intros i out Hi. rewrite set_nonneg by lia.
    unfold g. destruct (_ =? 0); [done|].
    rewrite set_nonneg by lia. rewrite list_insert_insert_eq.
    rewrite get_nonneg by lia. rewrite list_lookup_insert_eq by (unfold JS.len in Hi; lia).
    reflexivity. }
  { unfold JS.alloc. rewrite length_replicate. unfold JS.len. lia. }
  rewrite set_nonneg by lia. rewrite Nat2Z.id.
  assert (Hlen : length (map g (seqZ 0 (Z.of_nat (length buffer - 1)))) = (length buffer - 1)%nat)
    by (rewrite length_map, length_seqZ; lia).
  rewrite insert_app_r_alt by lia. rewrite Hlen, Nat.sub_diag.
  unfold JS.alloc, JS.len. rewrite Nat2Z.id, drop_replicate.
  replace (length buffer - (length buffer - 1))%nat with 1%nat by lia. cbn [replicate insert list_insert].
  apply list_eq. intros i. rewrite shift_bytes_lookup.
  destruct (decide (i < length buffer - 1)%nat) as [Hlt|Hge].
  - rewrite lookup_app_l by lia.
    rewrite list_lookup_fmap, lookup_seqZ_lt by lia. cbn [fmap option_fmap option_map].
    rewrite Z.add_0_l.
    destruct (lookup_lt_is_Some_2 buffer i) as [x Hx]; [lia|].
    rewrite Hx. cbn [fmap option_fmap option_map]. f_equal.
    unfold g. replace (Z.of_nat i + 1) with (Z.of_nat (S i)) by lia.
    rewrite (get_lookup _ _ _ Hx), get_of_nat.
    assert (Hbx : byte x) by (eapply Forall_lookup_1; [exact Hb | exact Hx]).
    assert (Hby := Forall_byte_lookup buffer (S i) Hb).
    rewrite band128_byte by done. rewrite shl1_byte by done.
    set (y := default 0 (buffer !! S i)) in *.
    assert (Heven : (2 * x) mod 256 = 2 * (x mod 128)).
    { replace 256 with (2 * 128) by lia. rewrite Z.mul_mod_distr_l by lia. done. }
    pose proof (Z.mod_pos_bound x 128 ltac:(lia)).
    unfold byte in *.
    destruct (y <? 128) eqn:Hy.
    + apply Z.ltb_lt in Hy. rewrite (Z.div_small y 128) by lia. lia.
    + apply Z.ltb_ge in Hy.
      assert (y / 128 = 1) as ->.
      { symmetry. apply (Z.div_unique_pos y 128 1 (y - 128)); lia. }
      unfold JS.toUint8. rewrite Z.mod_small; lia.
  - rewrite lookup_app_r by lia. rewrite Hlen.
    destruct (decide (i = length buffer - 1)%nat) as [->|Hne].
    + rewrite Nat.sub_diag. cbn [lookup list_lookup].
      destruct (lookup_lt_is_Some_2 buffer (length buffer - 1)) as [x Hx]; [lia|].
      rewrite Hx. cbn [fmap option_fmap option_map]. f_equal.
      rewrite (get_lookup _ _ _ Hx).
      rewrite (lookup_ge_None_2 buffer (S (length buffer - 1))) by lia.
      change (default 0 None) with 0.
      rewrite shl1_byte by (eapply Forall_lookup_1; [exact Hb | exact Hx]).
      rewrite Z.div_0_l by lia. lia.
    + rewrite (lookup_ge_None_2 buffer i) by lia.
      destruct (i - (length buffer - 1))%nat as [|j] eqn:Hj; [lia|]. done.
Qed.

(** ** Big-endian values *)

Lemma be_to_Z_acc l acc :
  fold_left (fun acc b => acc * 256 + b) l acc
  = acc * 256 ^ Z.of_nat (length l) + be_to_Z l.
Proof.
  unfold be_to_Z. revert acc. induction l as [|b l IH]; intros acc.
  - cbn. lia.
  - cbn [fold_left length]. rewrite IH, (IH (0 * 256 + b)).
    rewrite Nat2Z.inj_succ, Z.pow_succ_r by lia. ring.
Qed.

Lemma be_to_Z_cons b l : be_to_Z (b :: l) = b * 256 ^ Z.of_nat (length l) + be_to_Z l.
Proof. unfold be_to_Z at 1. cbn [fold_left]. rewrite be_to_Z_acc. lia. Qed.

Lemma be_to_Z_bound l : Forall byte l -> 0 <= be_to_Z l < 256 ^ Z.of_nat (length l).
Proof.
  induction 1 as [|b l Hb Hl IH].
  - cbn. lia.
  - rewrite be_to_Z_cons. cbn [length]. rewrite Nat2Z.inj_succ, Z.pow_succ_r by lia.
    unfold byte in Hb. nia.
Qed.

Lemma Z_to_be_be_to_Z l X :
  Forall byte l ->
  RFC4493.Z_to_be (length l) (X * 256 ^ Z.of_nat (length l) + be_to_Z l) = l.
Proof.
  intros Hl. revert X. induction Hl as [|b l Hb Hl IH]; intros X; [done|].
  cbn [length RFC4493.Z_to_be]. rewrite be_to_Z_cons.
  pose proof (be_to_Z_bound l Hl) as Hbound.
  set (P := 256 ^ Z.of_nat (length l)) in *.
  rewrite Nat2Z.inj_succ, Z.pow_succ_r by lia. fold P.
  replace (X * (256 * P) + (b * P + be_to_Z l)) with ((X * 256 + b) * P + be_to_Z l) by ring.
  f_equal.
  - rewrite Z.div_add_l by lia. rewrite (Z.div_small (be_to_Z l)) by lia.
    rewrite Z.add_0_r, Z.add_comm, Z.mod_add by lia.
    unfold byte in Hb. apply Z.mod_small. lia.
  - apply IH.
Qed.

Lemma Z_to_be_of_bytes l : Forall byte l -> RFC4493.Z_to_be (length l) (be_to_Z l) = l.
Proof.
  intros Hl. pose proof (Z_to_be_be_to_Z l 0 Hl) as H.
  by rewrite Z.mul_0_l, Z.add_0_l in H.
Qed.

(** Doubling a big-endian value: the bytes of the result are
    [shift_bytes], the bit shifted out is the top bit of the first byte. *)
Lemma shift_bytes_value l :
  Forall byte l ->
  be_to_Z (shift_bytes l) = (2 * be_to_Z l) mod 256 ^ Z.of_nat (length l) /\
  (2 * be_to_Z l) / 256 ^ Z.of_nat (length l) = default 0 (head l) / 128.
Proof.
  induction 1 as [|b l Hb Hl [IH1 IH2]].
  - cbn. done.
  - cbn [shift_bytes]. rewrite !be_to_Z_cons, length_shift_bytes. cbn [length head default from_option].
    unfold id.
    pose proof (be_to_Z_bound l Hl) as Hbound.
    rewrite Nat2Z.inj_succ, Z.pow_succ_r by lia.
    set (P := 256 ^ Z.of_nat (length l)) in *.
    set (R := be_to_Z l) in *.
    set (c := default 0 (head l) / 128) in *.
    assert (HP : 0 < P) by (unfold P; apply Z.pow_pos_nonneg; lia).
    pose proof (Z.div_mod (2 * R) P ltac:(lia)) as Hdm.
    pose proof (Z.mod_pos_bound (2 * R) P HP) as Hr.
    rewrite IH2 in Hdm. rewrite IH1.
    set (r := (2 * R) mod P) in *.
    assert (Hc : 0 <= c <= 1) by nia.
    unfold byte in Hb.
    assert (Heven : (2 * b) mod 256 = 2 * (b mod 128)).
    { replace 256 with (2 * 128) by lia. rewrite Z.mul_mod_distr_l by lia. done. }
    pose proof (Z.mod_pos_bound b 128 ltac:(lia)) as Hb128.
    pose proof (Z.div_mod b 128 ltac:(lia)) as Hbdm.
    assert (Hq : 0 <= b / 128 <= 1).
    { split; [apply Z.div_pos; lia | apply Z.lt_succ_r, Z.div_lt_upper_bound; lia]. }
    replace (2 * (b * P + R)) with ((b / 128) * (256 * P) + ((2 * (b mod 128) + c) * P + r))
      by nia.
    assert (Hlow : 0 <= (2 * (b mod 128) + c) * P + r < 256 * P) by nia.
    set (low := (2 * (b mod 128) + c) * P + r) in *.
    assert (Hmod : (b / 128 * (256 * P) + low) mod (256 * P) = low).
    { rewrite Z.add_comm, Z.mod_add by lia. by apply Z.mod_small. }
    assert (Hdiv : (b / 128 * (256 * P) + low) / (256 * P) = b / 128).
    { rewrite Z.div_add_l by lia. rewrite (Z.div_small low) by done. lia. }
    split; [rewrite Hmod, Heven; unfold low; reflexivity | by rewrite Hdiv].
Qed.

(** ** Exclusive or on big-endian values *)

Lemma testbit_cat a x n :
  byte x -> 0 <= n ->
  Z.testbit (a * 256 + x) n = if n <? 8 then Z.testbit x n else Z.testbit a (n - 8).
Proof.
  intros Hx Hn. unfold byte in Hx. destruct (n <? 8) eqn:Hlt.
  - apply Z.ltb_lt in Hlt.
    rewrite <- (Z.mod_pow2_bits_low (a * 256 + x) 8 n) by lia.
    change (2 ^ 8) with 256. rewrite Z.add_comm, Z.mod_add by lia.
    by rewrite Z.mod_small by lia.
  - apply Z.ltb_ge in Hlt.
    replace n with ((n - 8) + 8) at 1 by lia.
    rewrite <- Z.div_pow2_bits by lia. change (2 ^ 8) with 256.
    rewrite Z.div_add_l by lia. by rewrite Z.div_small, Z.add_0_r by lia.
Qed.

Lemma lxor_cat a b x y :
  byte x -> byte y ->
  Z.lxor (a * 256 + x) (b * 256 + y) = Z.lxor a b * 256 + Z.lxor x y.
Proof.
  intros Hx Hy. apply Z.bits_inj'. intros n Hn.
  rewrite Z.lxor_spec, !testbit_cat by (done || by apply lxor_byte).
  destruct (n <? 8); by rewrite Z.lxor_spec.
Qed.

Lemma be_to_Z_xor_rb s :
  length s = 16%nat -> Forall byte s ->
  be_to_Z (zip_with Z.lxor s rb) = Z.lxor (be_to_Z s) 135.
Proof.
  intros Hlen Hs.
  do 17 (destruct s as [|? s]; try discriminate Hlen).
  unfold rb. cbn [zip_with]. rewrite !Z.lxor_0_r.
  unfold be_to_Z. cbn [fold_left].
  match goal with
  | |- ?hi * 256 + _ = _ =>
      replace 135 with (0 * 256 + 135) at 2 by lia;
      rewrite (lxor_cat hi 0); [by rewrite Z.lxor_0_r | | ]
  end.
  - repeat match goal with H : Forall _ (_ :: _) |- _ => inversion H; clear H; subst end.
    done.
  - unfold byte. lia.
Qed.

Lemma testbit_top v : 0 <= v < 2 ^ 128 -> Z.testbit v 127 = (2 ^ 127 <=? v).
Proof.
  intros Hv. rewrite Z.testbit_eqb by lia.
  destruct (2 ^ 127 <=? v) eqn:H.
  - apply Z.leb_le in H.
    assert (v / 2 ^ 127 = 1) as ->; [|done].
    symmetry. apply (Z.div_unique_pos v (2 ^ 127) 1 (v - 2 ^ 127)); lia.
  - apply Z.leb_gt in H. by rewrite Z.div_small by lia.
Qed.

(** ** Subkeys *)

Lemma subkey_refines l :
  length l = 16%nat -> Forall byte l ->
  (if JS.band (JS.get l 0) 128 =? 0 then bitShiftLeft l else xor (bitShiftLeft l) rb)
    = RFC4493.subkey l /\
  length (RFC4493.subkey l) = 16%nat /\ Forall byte (RFC4493.subkey l).
Proof.
  intros Hlen Hl.
  rewrite (bitShiftLeft_shift_bytes l Hl).
  pose proof (shift_bytes_byte l Hl) as Hs.
  pose proof (length_shift_bytes l) as Hslen. rewrite Hlen in Hslen.
  destruct (shift_bytes_value l Hl) as [Hval Hcarry].
  pose proof (be_to_Z_bound l Hl) as Hbound.
  rewrite Hlen in Hval, Hcarry, Hbound.
  change (256 ^ Z.of_nat 16) with (2 ^ 128) in *.
  assert (Hrb : Forall byte rb).
  { unfold rb. repeat constructor; unfold byte; lia. }
  assert (Hget : JS.get l 0 = default 0 (head l)) by (by destruct l).
  assert (Hb0 : byte (default 0 (head l))).
  { destruct Hl; cbn; [unfold byte; lia | done]. }
  rewrite Hget, band128_byte by done.
  assert (Htop : Z.testbit (be_to_Z l) 127 = negb (default 0 (head l) <? 128)).
  { rewrite testbit_top by lia.
    set (b0 := default 0 (head l)) in *. unfold byte in Hb0.
    destruct (b0 <? 128) eqn:Hlt; cbn [negb].
    - apply Z.ltb_lt in Hlt. apply Z.leb_gt.
      rewrite (Z.div_small b0 128) in Hcarry by lia.
      apply Z.div_small_iff in Hcarry; lia.
    - apply Z.ltb_ge in Hlt. apply Z.leb_le.
      assert (b0 / 128 = 1) as Hq.
      { symmetry. apply (Z.div_unique_pos b0 128 1 (b0 - 128)); lia. }
      rewrite Hq in Hcarry.
      pose proof (Z.div_mod (2 * be_to_Z l) (2 ^ 128) ltac:(lia)) as Hdm.
      pose proof (Z.mod_pos_bound (2 * be_to_Z l) (2 ^ 128) ltac:(lia)).
      rewrite Hcarry in Hdm. lia. }
  unfold RFC4493.subkey. rewrite Htop.
  replace (be_to_Z l * 2) with (2 * be_to_Z l) by lia. rewrite <- Hval.
  destruct (default 0 (head l) <? 128); cbn [negb].
  - assert (Heq : RFC4493.Z_to_be 16 (be_to_Z (shift_bytes l)) = shift_bytes l).
    { rewrite <- Hslen at 1. by apply Z_to_be_of_bytes. }
    by rewrite Heq.
  - rewrite (xor_zip_with _ _ Hs Hrb).
    rewrite <- (be_to_Z_xor_rb _ Hslen Hs).
    assert (Hx : Forall byte (zip_with Z.lxor (shift_bytes l) rb))
      by (by apply zip_with_lxor_byte).
    assert (Hxlen : length (zip_with Z.lxor (shift_bytes l) rb) = 16%nat).
    { rewrite length_zip_with, Hslen. reflexivity. }
    assert (Heq : RFC4493.Z_to_be 16 (be_to_Z (zip_with Z.lxor (shift_bytes l) rb))
                  = zip_with Z.lxor (shift_bytes l) rb).
    { rewrite <- Hxlen at 1. by apply Z_to_be_of_bytes. }
    by rewrite Heq.
Qed.

(** ** Message blocks *)

Lemma getMessageBlock_full message (i : nat) :
  (16 * (i + 1) <= length message)%nat ->
  getMessageBlock message (Z.of_nat i) = Ok (take 16 (drop (16 * i) message)).
Proof.
  intros H. unfold getMessageBlock, JS.copy, blockSize, JS.slice, JS.len, JS.alloc.
  replace (Z.of_nat (length message) <? Z.of_nat i * 16) with false
    by (symmetry; apply Z.ltb_ge; lia).
  rewrite length_replicate.
  replace (Z.to_nat (Z.of_nat i * 16 + 16) - Z.to_nat (Z.of_nat i * 16))%nat with 16%nat by lia.
  replace (Z.to_nat (Z.of_nat i * 16)) with (16 * i)%nat by lia.
  change (Z.to_nat 16) with 16%nat.
  rewrite take_take, Nat.min_id.
  rewrite length_take, length_drop.
  replace (16 `min` (length message - 16 * i))%nat with 16%nat by lia.
  rewrite drop_replicate. cbn [Nat.sub replicate]. by rewrite app_nil_r.
Qed.

Lemma getPaddedMessageBlock_short message (i : nat) :
  (16 * i <= length message < 16 * (i + 1))%nat ->
  getPaddedMessageBlock message (Z.of_nat i) = Ok (RFC4493.pad (drop (16 * i) message)).
Proof.
  intros H. unfold getPaddedMessageBlock, JS.copy, blockSize, JS.slice, JS.len, JS.alloc.
  replace (Z.of_nat (length message) <? Z.of_nat i * 16) with false
    by (symmetry; apply Z.ltb_ge; lia).
  rewrite length_replicate. cbn [rbind].
  replace (Z.to_nat (Z.of_nat i * 16)) with (16 * i)%nat by lia.
  rewrite Nat2Z.id. change (Z.to_nat 16) with 16%nat.
  set (rest := drop (16 * i) message).
  assert (Hrest : length rest = (length message - 16 * i)%nat) by apply length_drop.
  rewrite (take_ge rest) by lia. rewrite (take_ge rest) by lia.
  rewrite drop_replicate. rewrite set_nonneg by lia.
  replace (Z.to_nat (Z.of_nat (length message) - Z.of_nat i * 16)) with (length rest) by lia.
  rewrite insert_app_r_alt by lia. rewrite Nat.sub_diag.
  unfold RFC4493.pad. do 2 f_equal.
  destruct (16 - length rest)%nat as [|k] eqn:Hk; [lia|].
  cbn [replicate insert list_insert app]. do 2 f_equal. lia.
Qed.

(** ** The blocks of a message *)

Lemma chunks_map fuel m :
  (length m <= fuel)%nat ->
  RFC4493.chunks fuel m =
    map (fun i => take 16 (drop (16 * i) m)) (seq 0 ((length m + 15) / 16)).
Proof.
  revert m. induction fuel as [|fuel IH]; intros m Hm.
  - destruct m; [reflexivity | cbn in Hm; lia].
  - destruct m as [|x m']; [reflexivity|].
    set (m := x :: m') in *. cbn [RFC4493.chunks]. unfold m at 1. fold m.
    assert (Hlen : (1 <= length m)%nat) by (unfold m; cbn; lia).
    rewrite IH by (rewrite length_drop; lia).
    rewrite length_drop.
    assert (Hn : ((length m + 15) / 16 = S ((length m - 16 + 15) / 16))%nat).
    { destruct (decide (length m < 16)%nat).
      - replace (length m - 16 + 15)%nat with 15%nat by lia.
        change (15 / 16)%nat with 0%nat.
        symmetry. apply (Nat.div_unique _ 16 1 (length m - 1)); lia.
      - replace (length m + 15)%nat with ((length m - 16 + 15) + 1 * 16)%nat by lia.
        rewrite Nat.div_add by lia. lia. }
    rewrite Hn. cbn [seq map]. f_equal.
    rewrite <- seq_shift, map_map. apply map_ext. intros i.
    rewrite drop_drop. do 2 f_equal. lia.
Qed.

(** All blocks but the last are [16] bytes from the message; the last is
    what remains. *)
Lemma blocks_shape m :
  let lastIndex := ((length m + 15) / 16 - 1)%nat in
  removelast (RFC4493.blocks m) = map (fun i => take 16 (drop (16 * i) m)) (seq 0 lastIndex) /\
  List.last (RFC4493.blocks m) [] = drop (16 * lastIndex) m /\
  (16 * lastIndex <= length m <= 16 * lastIndex + 16)%nat.
Proof.
  intros lastIndex. destruct m as [|x m'].
  - cbn. repeat split; lia.
  - assert (Hb : RFC4493.blocks (x :: m')
                 = RFC4493.chunks (length (x :: m')) (x :: m')) by reflexivity.
    set (m := x :: m') in *. rewrite Hb.
    rewrite chunks_map by done.
    assert (Hlen : (1 <= length m)%nat) by (unfold m; cbn; lia).
    assert (Hn : ((length m + 15) / 16 = S lastIndex)%nat).
    { unfold lastIndex.
      assert (1 <= (length m + 15) / 16)%nat; [|lia].
      apply Nat.div_le_lower_bound; lia. }
    assert (Hbounds : (16 * lastIndex < length m <= 16 * lastIndex + 16)%nat).
    { pose proof (Nat.div_mod (length m + 15) 16 ltac:(lia)) as Hdm.
      pose proof (Nat.mod_upper_bound (length m + 15) 16 ltac:(lia)).
      rewrite Hn in Hdm. lia. }
    rewrite Hn, seq_S, map_app. cbn [map Nat.add].
    rewrite removelast_last, last_last.
    repeat split; try lia.
    apply take_ge. rewrite length_drop. lia.
Qed.

(** ** The CBC chain *)

Section Cmac.

Variable E : Engine.
Variable key : list Z.
Hypothesis engine_ok : aes_engine_ok E.
Hypothesis key_ok : In (JS.len key) [16; 24; 32].

Lemma aes_ok m :
  length m = 16%nat -> Forall byte m ->
  exists c, aes E key m = Ok c /\ length c = 16%nat /\ Forall byte c.
Proof.
  intros Hlen Hm. unfold aes.
  rewrite shl3_small.
  - by apply engine_ok.
  - cbn in key_ok. lia.
Qed.

Lemma for_loopR_S {St : Type} (body : Z -> St -> Result St) (s : St) (k : nat) :
  JS.for_loopR 0 (Z.of_nat (S k)) body s =
    match JS.for_loopR 0 (Z.of_nat k) body s with
    | Ok x => body (Z.of_nat k) x
    | Throw e => Throw e
    end.
Proof.
  unfold JS.for_loopR. rewrite !Z.sub_0_r, seqZ_S, fold_left_app. reflexivity.
Qed.

(** For a key of 16, 24 or 32 bytes the cipher the code opens,
    [aes<length << 3>], is the cipher of the key's size. *)
Lemma aes_AES m : aes E key m = RFC4493.AES E key m.
Proof.
  unfold aes, RFC4493.AES. rewrite shl3_small; [reflexivity|].
  cbn in key_ok. lia.
Qed.

Lemma cbc_app x bs b :
  RFC4493.cbc E key x (bs ++ [b]) =
    (c <~ RFC4493.cbc E key x bs ;; RFC4493.AES E key (RFC4493.xor_block c b)).
Proof.
  revert x. induction bs as [|b' bs IH]; intros x; cbn.
  - by destruct (RFC4493.AES E key (RFC4493.xor_block x b)).
  - destruct (RFC4493.AES E key (RFC4493.xor_block x b')); cbn; [apply IH | done].
Qed.

Lemma zero_block : length zero = 16%nat /\ Forall byte zero.
Proof. split; [reflexivity|]. unfold zero. repeat constructor; unfold byte; lia. Qed.

Variable message : list Z.
Hypothesis message_ok : Forall byte message.

Lemma full_block_ok (i : nat) :
  (16 * (i + 1) <= length message)%nat ->
  length (take 16 (drop (16 * i) message)) = 16%nat /\
  Forall byte (take 16 (drop (16 * i) message)).
Proof.
  intros H. split.
  - rewrite length_take, length_drop. lia.
  - by apply Forall_take, Forall_drop.
Qed.

(** The loop over the blocks before the last is the CBC chain over
    them. *)
Lemma cbc_loop (k : nat) :
  (16 * k <= length message)%nat ->
  exists x,
    JS.for_loopR 0 (Z.of_nat k)
      (fun index x => block <~ getMessageBlock message index ;;
                      aes E key (xor x block)) zero = Ok x /\
    RFC4493.cbc E key (replicate 16 0)
      (map (fun i => take 16 (drop (16 * i) message)) (seq 0 k)) = Ok x /\
    length x = 16%nat /\ Forall byte x.
Proof.
  induction k as [|k IH]; intros Hk.
  - exists zero. destruct zero_block. repeat split; done.
  - destruct IH as (x & Hloop & Hcbc & Hxlen & Hx); [lia|].
    destruct (full_block_ok k) as [Hblen Hb]; [lia|].
    assert (Hy : length (zip_with Z.lxor x (take 16 (drop (16 * k) message))) = 16%nat
                 /\ Forall byte (zip_with Z.lxor x (take 16 (drop (16 * k) message)))).
    { split; [rewrite length_zip_with; lia | by apply zip_with_lxor_byte]. }
    destruct (aes_ok _ (proj1 Hy) (proj2 Hy)) as (c & Hc & Hclen & Hcb).
    exists c. rewrite for_loopR_S, Hloop.
    rewrite getMessageBlock_full by lia. cbn [rbind].
    rewrite xor_zip_with by done.
    rewrite seq_S, map_app. cbn [map Nat.add]. rewrite cbc_app, Hcbc. cbn [rbind].
    unfold RFC4493.xor_block. rewrite <- aes_AES, Hc. done.
Qed.

(** AES-CMAC as the code computes it is AES-CMAC as RFC 4493 words it. *)
Lemma aesCmac_refines :
  exists mac,
    aesCmac E key message = Ok mac /\
    RFC4493.cmac E key message = Ok mac /\
    length mac = 16%nat /\ Forall byte mac.
Proof.
  destruct zero_block as [Hzlen Hz].
  destruct (aes_ok zero Hzlen Hz) as (L & HL & HLlen & HLb).
  destruct (subkey_refines L HLlen HLb) as (Hk1 & Hk1len & Hk1b).
  destruct (subkey_refines _ Hk1len Hk1b) as (Hk2 & Hk2len & Hk2b).
  destruct (blocks_shape message) as (Hinit & Hlast & Hbounds).
  set (lastIndex := ((length message + 15) / 16 - 1)%nat) in *.
  destruct (cbc_loop lastIndex) as (x & Hloop & Hcbc & Hxlen & Hx); [lia|].
  (* the code's block count and flag *)
  assert (Hcount :
    (if JS.ceil_div (JS.len message) blockSize =? 0 then (1, false)
     else (JS.ceil_div (JS.len message) blockSize, JS.len message mod blockSize =? 0))
    = (Z.of_nat lastIndex + 1,
       bool_decide (length (drop (16 * lastIndex) message) = 16%nat))).
  { unfold blockSize, JS.len.
    replace (JS.ceil_div (Z.of_nat (length message)) 16)
      with (Z.of_nat ((length message + 15) / 16)); cycle 1.
    { pose proof (ceil_div_bytes (length message) 16 ltac:(lia)) as Hc.
      unfold JS.ceil_div in *.
      replace (- (8 * Z.of_nat (length message))) with (8 * - Z.of_nat (length message))
        in Hc by lia.
      change (8 * Z.of_nat 16) with (8 * 16) in Hc.
      rewrite Z.div_mul_cancel_l in Hc by lia.
      change (Z.of_nat 16) with 16 in Hc. rewrite Hc.
      do 2 f_equal. lia. }
    rewrite length_drop.
    destruct (decide (length message = 0%nat)) as [Hz0|Hnz].
    - rewrite Hz0. cbn. unfold lastIndex. rewrite Hz0. reflexivity.
    - assert (Hn : (1 <= (length message + 15) / 16)%nat)
        by (apply Nat.div_le_lower_bound; lia).
      replace (Z.of_nat ((length message + 15) / 16) =? 0) with false
        by (symmetry; apply Z.eqb_neq; lia).
      f_equal; [unfold lastIndex; lia|].
      pose proof (Nat.div_mod (length message + 15) 16 ltac:(lia)) as Hdm.
      pose proof (Nat.mod_upper_bound (length message + 15) 16 ltac:(lia)) as Hub.
      assert (Hli : (16 * lastIndex < length message)%nat) by (unfold lastIndex in *; lia).
      destruct (decide (length message - 16 * lastIndex = 16)%nat) as [Hfull|Hpart].
      + rewrite bool_decide_eq_true_2 by done. apply Z.eqb_eq.
        replace (Z.of_nat (length message)) with (0 + (Z.of_nat lastIndex + 1) * 16) by lia.
        by rewrite Z.mod_add by lia.
      + rewrite bool_decide_eq_false_2 by done. apply Z.eqb_neq.
        replace (Z.of_nat (length message))
          with (Z.of_nat (length message - 16 * lastIndex) + Z.of_nat lastIndex * 16) by lia.
        rewrite Z.mod_add by lia. rewrite Z.mod_small by lia. lia. }
  (* the masked last block *)
  set (final := drop (16 * lastIndex) message) in *.
  assert (Hfinal : Forall byte final) by (by apply Forall_drop).
  assert (Hflen : length final = (length message - 16 * lastIndex)%nat) by apply length_drop.
  set (masked := if (length final =? 16)%nat
                 then RFC4493.xor_block final (RFC4493.subkey L)
                 else RFC4493.xor_block (RFC4493.pad final)
                        (RFC4493.subkey (RFC4493.subkey L))).
  assert (Hpad : length final <> 16%nat ->
                 length (RFC4493.pad final) = 16%nat /\ Forall byte (RFC4493.pad final)).
  { intros Hne. unfold RFC4493.pad. split.
    - rewrite !length_app, length_replicate. cbn [length]. lia.
    - apply Forall_app. split; [done|]. apply Forall_app. split.
      + repeat constructor; unfold byte; lia.
      + apply Forall_replicate. unfold byte. lia. }
  assert (Hmasked : length masked = 16%nat /\ Forall byte masked).
  { unfold masked, RFC4493.xor_block.
    destruct (length final =? 16)%nat eqn:Hf.
    - apply Nat.eqb_eq in Hf. split; [rewrite length_zip_with; lia|].
      by apply zip_with_lxor_byte.
    - apply Nat.eqb_neq in Hf. destruct (Hpad Hf) as [Hpl Hpb].
      split; [rewrite length_zip_with; lia|]. by apply zip_with_lxor_byte. }
  assert (HlastBlock :
    (if bool_decide (length final = 16%nat) : bool
     then block <~ getMessageBlock message (Z.of_nat lastIndex + 1 - 1) ;;
          Ok (xor block (RFC4493.subkey L))
     else block <~ getPaddedMessageBlock message (Z.of_nat lastIndex + 1 - 1) ;;
          Ok (xor block (RFC4493.subkey (RFC4493.subkey L)))) = Ok masked).
  { replace (Z.of_nat lastIndex + 1 - 1) with (Z.of_nat lastIndex) by lia.
    unfold masked, RFC4493.xor_block.
    destruct (decide (length final = 16%nat)) as [Hf|Hf].
    - rewrite bool_decide_eq_true_2 by done.
      rewrite (proj2 (Nat.eqb_eq _ _) Hf).
      rewrite getMessageBlock_full by lia. cbn [rbind].
      fold final. rewrite (take_ge final) by lia.
      by rewrite xor_zip_with.
    - rewrite bool_decide_eq_false_2 by done.
      rewrite (proj2 (Nat.eqb_neq _ _) Hf).
      rewrite getPaddedMessageBlock_short by lia. cbn [rbind].
      fold final. destruct (Hpad Hf) as [Hpl Hpb].
      by rewrite xor_zip_with. }
  assert (Hy : length (zip_with Z.lxor x masked) = 16%nat
               /\ Forall byte (zip_with Z.lxor x masked)).
  { destruct Hmasked. split; [rewrite length_zip_with; lia | by apply zip_with_lxor_byte]. }
  destruct (aes_ok _ (proj1 Hy) (proj2 Hy)) as (mac & Hmac & Hmlen & Hmb).
  exists mac. split; [|split; [|done]].
  - unfold aesCmac, generateSubkeys. rewrite HL. cbn [rbind fst snd].
    rewrite Hk1, Hk2. cbv zeta. rewrite Hcount. cbv iota.
    rewrite HlastBlock. cbn [rbind].
    replace (Z.of_nat lastIndex + 1 - 1) with (Z.of_nat lastIndex) by lia.
    rewrite Hloop. cbn [rbind].
    destruct Hmasked.
    rewrite xor_zip_with by done. rewrite zip_with_lxor_comm. exact Hmac.
  - unfold RFC4493.cmac. change (replicate 16 0) with zero at 1.
    rewrite <- aes_AES, HL. cbn [rbind].
    rewrite Hlast, Hinit. fold final. fold masked.
    rewrite cbc_app, Hcbc. cbn [rbind]. rewrite <- aes_AES. exact Hmac.
Qed.

End Cmac.

Lemma TestEngine_aes_ok : aes_engine_ok TestEngine.engine.
Proof.
  intros key m Hkey Hlen Hm. cbn [AES_encrypt TestEngine.engine].
  unfold TestEngine.aes_encrypt.
  assert (Hbits : (8 * JS.len key =? 128) || (8 * JS.len key =? 192)
                  || (8 * JS.len key =? 256) = true).
  { cbn in Hkey. destruct Hkey as [<-|[<-|[<-|[]]]]; reflexivity. }
  rewrite Hbits. eexists. split; [reflexivity|]. unfold TestEngine.block. split.
  - rewrite length_take, length_app, length_map, length_replicate. lia.
  - apply Forall_take, Forall_app. split.
    + apply Forall_forall. intros b Hb.
      apply list_elem_of_In, in_map_iff in Hb as (x & <- & _).
      unfold byte. apply Z.mod_pos_bound. lia.
    + apply Forall_replicate. unfold byte. lia.
Qed.

(** C4: for a key of 128, 192 or 256 bits, the AES-CMAC [sign] operation
    returns the RFC 4493 MAC of the message: subkeys from
    [L = AES(key, 0^128)] by a one-bit left shift and a conditional XOR
    with 0x87, the message in 16-byte blocks (an empty message is one
    block), the final block XORed with subkey1 when it is full and padded
    with 0x80 and zeros and XORed with subkey2 otherwise, a CBC chain from
    a zero IV, and the last ciphertext block as the MAC. *)
Theorem AesCmacProvider_onSign_rfc4493
    (E : Engine) (algorithm : Algorithm) (key : Handle) (data : list Z)
    (st st1 : Store) (r : ref) (v : InternalCryptoKey) :
  aes_engine_ok E ->
  getCryptoKey key st = (Ok r, st1) ->
  heap st1 !! r = Some v ->
  In (JS.len (key_data v)) [16; 24; 32] ->
  Forall byte data ->
  exists mac,
    AesCmacProvider_onSign E algorithm key data st = (Ok mac, st1) /\
    RFC4493.cmac E (key_data v) data = Ok mac /\
    length mac = 16%nat.
Proof.
  intros HE Hget Hv Hkey Hdata.
  destruct (aesCmac_refines E (key_data v) HE Hkey data Hdata)
    as (mac & Hcode & Hspec & Hlen & _).
  exists mac. split; [|done].
  unfold AesCmacProvider_onSign.
  rewrite (bind_ok _ _ _ _ _ Hget).
  unfold bind, deref, lift. rewrite Hv, Hcode. reflexivity.
Qed.

Lemma AesCmacProvider_onSign_rfc4493_witness :
  exists mac,
    AesCmacProvider_onSign TestEngine.engine (algorithm_named "AES-CMAC") aes_handle
      cmac_message aes_store = (Ok mac, aes_store) /\
    RFC4493.cmac TestEngine.engine key16 cmac_message = Ok mac /\
    length mac = 16%nat.
Proof.
  apply (AesCmacProvider_onSign_rfc4493 TestEngine.engine (algorithm_named "AES-CMAC")
           aes_handle cmac_message aes_store aes_store 1%positive aes_material).
  - exact TestEngine_aes_ok.
  - reflexivity.
  - reflexivity.
  - left. reflexivity.
  - apply Forall_forall. intros b Hb. unfold cmac_message in Hb.
    apply list_elem_of_In, in_map_iff in Hb as (n & <- & Hn).
    apply in_seq in Hn. unfold byte. lia.
Defined.

(** * Further properties *)

(** ** The registry as a table *)

Lemma backfill_algorithm_idem r key h :
  backfill_algorithm r key (backfill_algorithm r key h) = backfill_algorithm r key h.
Proof.
  unfold backfill_algorithm at 2 3.
  destruct (h !! r) as [v|] eqn:Hv.
  - destruct (key_algorithm v) as [a|] eqn:Ha.
    + unfold backfill_algorithm. by rewrite Hv, Ha.
    + destruct (handle_algorithm key) as [a|] eqn:Hk.
      * unfold backfill_algorithm. rewrite lookup_insert_eq. cbn [key_algorithm]. done.
      * unfold backfill_algorithm. by rewrite Hv, Ha, Hk.
  - unfold backfill_algorithm. by rewrite Hv.
Qed.

(** X1: a handle that [setCryptoKey] has just returned resolves to the
    material it was made for, and resolving it changes nothing in the
    store. *)
Theorem setCryptoKey_then_getCryptoKey (st st1 : Store) (value : ref) (h : Handle) :
  setCryptoKey value st = (Ok h, st1) ->
  getCryptoKey h st1 = (Ok value, st1).
Proof.
  intros H. unfold setCryptoKey in H.
  destruct (heap st !! value) as [v|] eqn:Hv; [|discriminate].
  inversion H; subst; clear H.
  unfold getCryptoKey. cbn [keyStorage handle_id heap next_id entropy set___value
                            CryptoKey_create __value].
  rewrite lookup_insert_eq.
  unfold backfill_algorithm. rewrite Hv. cbn [handle_algorithm].
  by destruct (key_algorithm v).
Qed.

Lemma setCryptoKey_then_getCryptoKey_witness :
  exists h st1,
    setCryptoKey 1%positive store_with_material = (Ok h, st1) /\
    getCryptoKey h st1 = (Ok 1%positive, st1).
Proof.
  do 2 eexists. split; [reflexivity|].
  apply (setCryptoKey_then_getCryptoKey store_with_material _ 1%positive _).
  reflexivity.
Defined.

Lemma getCryptoKey_unfold (key : Handle) (st : Store) :
  getCryptoKey key st =
  match keyStorage st !! handle_id key, __value key with
  | Some r, _ =>
      (Ok r, mkStore (backfill_algorithm r key (heap st)) (keyStorage st)
                     (next_id st) (entropy st))
  | None, Some v =>
      (Ok v, mkStore (backfill_algorithm v key (heap st))
                     (<[ handle_id key := v ]> (keyStorage st))
                     (next_id st) (entropy st))
  | None, None =>
      (Throw (OperationError "Cannot get CryptoKey from secure storage"),
       mkStore (heap st) (keyStorage st) (next_id st) (entropy st))
  end.
Proof.
  unfold getCryptoKey.
  destruct (keyStorage st !! handle_id key) as [r|] eqn:Hk.
  - destruct (__value key); reflexivity.
  - destruct (__value key) as [v|]; [|reflexivity].
    by rewrite lookup_insert_eq.
Qed.

Lemma getCryptoKey_again (key : Handle) (st st1 : Store) (r : ref) :
  getCryptoKey key st = (Ok r, st1) ->
  getCryptoKey key st1 = (Ok r, st1) /\ keyStorage st1 !! handle_id key = Some r.
Proof.
  rewrite (getCryptoKey_unfold key st), (getCryptoKey_unfold key st1).
  destruct (keyStorage st !! handle_id key) as [r0|] eqn:Hk.
  - intros H. inversion H; subst; clear H. cbn [heap keyStorage next_id entropy].
    rewrite Hk. by rewrite backfill_algorithm_idem.
  - destruct (__value key) as [v|] eqn:Hv; intros H; inversion H; subst; clear H.
    cbn [heap keyStorage next_id entropy].
    rewrite lookup_insert_eq. by rewrite backfill_algorithm_idem.
Qed.

(** X2: resolving is stable: once a handle has resolved, it is in the
    registry (also a handle that came with its own [__value]), and
    resolving it again gives the same material and leaves the store as the
    first call left it. *)
Theorem getCryptoKey_stable (key : Handle) (st st1 : Store) (r : ref) :
  getCryptoKey key st = (Ok r, st1) ->
  keyStorage st1 !! handle_id key = Some r /\
  getCryptoKey key st1 = (Ok r, st1).
Proof.
  intros H. destruct (getCryptoKey_again key st st1 r H) as [H1 H2]. by split.
Qed.

Lemma getCryptoKey_stable_witness :
  getCryptoKey restored_handle (snd (getCryptoKey restored_handle store_with_material))
  = (Ok 1%positive, snd (getCryptoKey restored_handle store_with_material)).
Proof.
  apply (getCryptoKey_stable restored_handle store_with_material
           (snd (getCryptoKey restored_handle store_with_material)) 1%positive).
  reflexivity.
Defined.

Lemma backfill_algorithm_frame res key h r v :
  h !! r = Some v ->
  exists v', backfill_algorithm res key h !! r = Some v' /\
             key_class v' = key_class v /\ key_data v' = key_data v /\
             key_extractable v' = key_extractable v /\ key_type v' = key_type v /\
             key_usages v' = key_usages v /\ key_pem v' = key_pem v /\
             (is_Some (key_algorithm v) -> v' = v).
Proof.
  intros Hv. destruct (decide (r = res)) as [->|Hne].
  - by apply backfill_algorithm_lookup.
  - exists v. repeat split; try done.
    unfold backfill_algorithm.
    destruct (h !! res) as [w|]; [|done].
    destruct (key_algorithm w); [done|].
    destruct (handle_algorithm key); [|done].
    by rewrite lookup_insert_ne.
Qed.

Lemma backfill_algorithm_None res key h r :
  h !! r = None -> backfill_algorithm res key h !! r = None.
Proof.
  intros Hr. unfold backfill_algorithm.
  destruct (h !! res) as [w|] eqn:Hw; [|done].
  destruct (key_algorithm w); [done|].
  destruct (handle_algorithm key); [|done].
  rewrite lookup_insert_ne; [done|]. intros ->. congruence.
Qed.

(** X3: what [getCryptoKey] leaves alone, whether it returns or throws:
    the counters, every binding the registry already has, the bindings of
    all other handles, and of every key-material object its class, bytes,
    extractable flag, type, usages and cached PEM; a material that has an
    algorithm keeps all its fields, and no object is created. *)
Theorem getCryptoKey_frame (key : Handle) (st st1 : Store) (res : Result ref) :
  getCryptoKey key st = (res, st1) ->
  next_id st1 = next_id st /\ entropy st1 = entropy st /\
  (forall id r, keyStorage st !! id = Some r -> keyStorage st1 !! id = Some r) /\
  (forall id, id <> handle_id key -> keyStorage st1 !! id = keyStorage st !! id) /\
  (forall r v, heap st !! r = Some v ->
     exists v', heap st1 !! r = Some v' /\
       key_class v' = key_class v /\ key_data v' = key_data v /\
       key_extractable v' = key_extractable v /\ key_type v' = key_type v /\
       key_usages v' = key_usages v /\ key_pem v' = key_pem v /\
       (is_Some (key_algorithm v) -> v' = v)) /\
  (forall r, heap st !! r = None -> heap st1 !! r = None).
Proof.
  rewrite getCryptoKey_unfold.
  destruct (keyStorage st !! handle_id key) as [r0|] eqn:Hk.
  - intros H. inversion H; subst; clear H. cbn [heap keyStorage next_id entropy].
    repeat split; try done.
    + intros r v Hv. by apply backfill_algorithm_frame.
    + intros r Hr. by apply backfill_algorithm_None.
  - destruct (__value key) as [v0|] eqn:Hv0; intros H; inversion H; subst; clear H;
      cbn [heap keyStorage next_id entropy].
    + repeat split; try done.
      * intros id r Hid. rewrite lookup_insert_ne; [done|]. intros <-. congruence.
      * intros id Hid. by rewrite lookup_insert_ne.
      * intros r v Hv. by apply backfill_algorithm_frame.
      * intros r Hr. by apply backfill_algorithm_None.
    + repeat split; try done. intros r v Hv. exists v. by repeat split.
Qed.

Lemma getCryptoKey_frame_witness :
  next_id (snd (getCryptoKey restored_handle store_with_material))
  = next_id store_with_material.
Proof.
  apply (getCryptoKey_frame restored_handle store_with_material
           (snd (getCryptoKey restored_handle store_with_material))
           (fst (getCryptoKey restored_handle store_with_material))).
  reflexivity.
Defined.

(** X4: registrations do not disturb one another: two successive
    [setCryptoKey] calls return handles with different identities, and
    after the second one the first handle still resolves to its own
    material. *)
Theorem setCryptoKey_twice (st st1 st2 : Store) (a b : ref) (ha hb : Handle) :
  setCryptoKey a st = (Ok ha, st1) ->
  setCryptoKey b st1 = (Ok hb, st2) ->
  handle_id ha <> handle_id hb /\
  getCryptoKey ha st2 = (Ok a, st2) /\
  getCryptoKey hb st2 = (Ok b, st2).
Proof.
  intros Ha Hb. unfold setCryptoKey in Ha, Hb.
  destruct (heap st !! a) as [va|] eqn:Hva; [|discriminate].
  inversion Ha; subst; clear Ha.
  cbn [heap keyStorage next_id entropy] in Hb. rewrite ?Hva in Hb.
  destruct (heap st !! b) as [vb|] eqn:Hvb; [|discriminate].
  inversion Hb; subst; clear Hb.
  cbn [handle_id set___value CryptoKey_create].
  assert (Hne : next_id st <> Pos.succ (next_id st)) by lia.
  split; [exact Hne|]. rewrite !getCryptoKey_unfold.
  cbn [heap keyStorage next_id entropy handle_id set___value CryptoKey_create __value
       handle_algorithm].
  rewrite lookup_insert_eq, lookup_insert_ne, lookup_insert_eq by done.
  unfold backfill_algorithm. cbn [handle_algorithm]. rewrite Hva, Hvb.
  by destruct (key_algorithm va), (key_algorithm vb).
Qed.

Lemma setCryptoKey_twice_witness :
  exists ha st1 hb st2,
    setCryptoKey 1%positive store_with_material = (Ok ha, st1) /\
    setCryptoKey 1%positive st1 = (Ok hb, st2) /\
    handle_id ha <> handle_id hb.
Proof.
  do 4 eexists. split; [reflexivity|]. split; [reflexivity|].
  eapply (setCryptoKey_twice store_with_material _ _ 1%positive 1%positive _ _);
    reflexivity.
Defined.

(** ** Import, export and generation of symmetric keys *)

Lemma register_ok (k : InternalCryptoKey) (st : Store) :
  (value <- new_key k ;; setCryptoKey value) st =
  (Ok (mkHandle (Pos.succ (next_id st)) (key_algorithm k) (key_type k)
                (key_extractable k) (key_usages k) (Some (next_id st))),
   mkStore (<[ next_id st := k ]> (heap st))
           (<[ Pos.succ (next_id st) := next_id st ]> (keyStorage st))
           (Pos.succ (Pos.succ (next_id st))) (entropy st)).
Proof.
  unfold bind, new_key. erewrite setCryptoKey_ok by apply lookup_insert_eq.
  reflexivity.
Qed.

Lemma register_resolves (k : InternalCryptoKey) (st st1 : Store) (h : Handle) :
  (value <- new_key k ;; setCryptoKey value) st = (Ok h, st1) ->
  exists r, getCryptoKey h st1 = (Ok r, st1) /\ deref r st1 = (Ok k, st1) /\
            handle_algorithm h = key_algorithm k /\
            handle_extractable h = key_extractable k /\
            handle_usages h = key_usages k /\ handle_type h = key_type k.
Proof.
  rewrite register_ok. intros H. inversion H; subst; clear H.
  exists (next_id st). rewrite getCryptoKey_unfold.
  cbn [heap keyStorage next_id entropy handle_id __value handle_algorithm
       handle_extractable handle_usages handle_type].
  rewrite lookup_insert_eq. unfold backfill_algorithm, deref. cbn [heap handle_algorithm].
  rewrite lookup_insert_eq. by destruct (key_algorithm k).
Qed.

(** X5: an AES key imported from raw bytes exports to the same bytes, and
    the export leaves the store as it was. *)
Theorem AesProvider_import_export_raw (E : Engine) (J : Serializer) (d : list Z) (algorithm : Algorithm)
    (extractable : bool) (keyUsages : list string) (st st1 : Store) (h : Handle) :
  AesProvider_onImportKey E "raw" (BufferSource d) algorithm extractable keyUsages st
    = (Ok h, st1) ->
  AesProvider_onExportKey J "raw" h st1 = (Ok (ExportedBuffer d), st1).
Proof.
  intros H. unfold AesProvider_onImportKey in H.
  apply bind_inv_ok in H as (k & st0 & Hk & H).
  apply lift_inv_ok in Hk as [Hk ->].
  apply register_resolves in H as (r & Hget & Hderef & _).
  rewrite AesCrypto_importKey_raw in Hk. cbv zeta in Hk.
  destruct (_ || _) in Hk; [|discriminate]. inversion Hk; subst; clear Hk.
  unfold AesProvider_onExportKey.
  rewrite (bind_ok _ _ _ _ _ Hget), (bind_ok _ _ _ _ _ Hderef). reflexivity.
Qed.

Lemma AesProvider_import_export_raw_witness :
  exists h st1,
    AesProvider_onImportKey TestEngine.engine "raw" (BufferSource key16)
      (algorithm_named "AES-CBC") true ["encrypt"] empty_store = (Ok h, st1) /\
    AesProvider_onExportKey test_serializer "raw" h st1
      = (Ok (ExportedBuffer key16), st1).
Proof.
  do 2 eexists. split; [reflexivity|].
  eapply (AesProvider_import_export_raw TestEngine.engine
            test_serializer key16
            (algorithm_named "AES-CBC") true ["encrypt"] empty_store).
  reflexivity.
Defined.




(** X7: a DES key imported from raw bytes exports to the same bytes, and
    the export leaves the store as it was. *)
Theorem DesProvider_import_export_raw (E : Engine) (J : Serializer) (this : DesProvider)
    (d : list Z) (algorithm : Algorithm) (extractable : bool) (keyUsages : list string)
    (st st1 : Store) (h : Handle) :
  DesProvider_onImportKey E this "raw" (BufferSource d) algorithm extractable keyUsages st
    = (Ok h, st1) ->
  DesProvider_onExportKey J "raw" h st1 = (Ok (ExportedBuffer d), st1) /\
  JS.len d = JS.shr (keySizeBits this) 3.
Proof.
  intros H. unfold DesProvider_onImportKey in H.
  apply bind_inv_ok in H as (k & st0 & Hk & H).
  apply lift_inv_ok in Hk as [Hk ->].
  unfold DesCrypto_importKey in Hk. cbn [toLowerCase lower_ascii] in Hk. simpl in Hk.
  inversion Hk; subst; clear Hk. cbn [key_data] in H.
  destruct (JS.len d =? JS.shr (keySizeBits this) 3) eqn:Hlen; [|discriminate].
  cbn [negb] in H. apply Z.eqb_eq in Hlen. split; [|exact Hlen].
  apply register_resolves in H as (r & Hget & Hderef & _).
  unfold DesProvider_onExportKey.
  rewrite (bind_ok _ _ _ _ _ Hget), (bind_ok _ _ _ _ _ Hderef). reflexivity.
Qed.

Lemma DesProvider_import_export_raw_witness :
  exists h st1,
    DesProvider_onImportKey TestEngine.engine DesCbcProvider "raw"
      (BufferSource [1; 2; 3; 4; 5; 6; 7; 8]) (algorithm_named "DES-CBC") true ["encrypt"]
      empty_store = (Ok h, st1) /\
    DesProvider_onExportKey test_serializer "raw" h st1
      = (Ok (ExportedBuffer [1; 2; 3; 4; 5; 6; 7; 8]), st1).
Proof.
  do 2 eexists. split; [reflexivity|].
  eapply (DesProvider_import_export_raw TestEngine.engine test_serializer DesCbcProvider
            [1; 2; 3; 4; 5; 6; 7; 8] (algorithm_named "DES-CBC") true ["encrypt"]
            empty_store).
  reflexivity.
Defined.



(** X9: only the AES export checks the class of the key material.  For a
    handle that resolves to material of another class the AES providers
    throw Error "key: Is not AesCryptoKey" whatever the format, while the
    DES providers hand out the material's bytes. *)
Theorem exportKey_class_check (J : Serializer) (key : Handle) (st st1 : Store)
    (r : ref) (v : InternalCryptoKey) :
  getCryptoKey key st = (Ok r, st1) ->
  heap st1 !! r = Some v ->
  key_class v <> AesCryptoKey ->
  (forall format,
     AesProvider_onExportKey J format key st
     = (Throw (Error "key: Is not AesCryptoKey"), st1)) /\
  DesProvider_onExportKey J "raw" key st = (Ok (ExportedBuffer (key_data v)), st1).
Proof.
  intros Hget Hv Hclass.
  assert (Hderef : deref r st1 = (Ok v, st1)) by (unfold deref; by rewrite Hv).
  split.
  - intros format. unfold AesProvider_onExportKey.
    rewrite (bind_ok _ _ _ _ _ Hget), (bind_ok _ _ _ _ _ Hderef).
    unfold AesCrypto_exportKey. by destruct (key_class v).
  - unfold DesProvider_onExportKey.
    rewrite (bind_ok _ _ _ _ _ Hget), (bind_ok _ _ _ _ _ Hderef). reflexivity.
Qed.

Lemma exportKey_class_check_witness :
  DesProvider_onExportKey test_serializer "raw" restored_handle store_with_material
  = (Ok (ExportedBuffer [1; 2; 3]),
     snd (getCryptoKey restored_handle store_with_material)).
Proof.
  apply (exportKey_class_check test_serializer restored_handle store_with_material
           (snd (getCryptoKey restored_handle store_with_material))
           1%positive hkdf_material);
    [reflexivity | reflexivity | discriminate].
Defined.

(** X10: an HMAC key imported from raw bytes (fewer than 2^28 of them)
    carries the algorithm HMAC with the hash named in the request and the
    length 8 times the byte count, keeps the extractable flag and the
    usages it was imported with, and exports to the same bytes. *)
Theorem HmacProvider_import_export_raw (E : Engine) (J : Serializer) (d : list Z)
    (algorithm : Algorithm) (extractable : bool) (keyUsages : list string)
    (st : Store) (hashName : string) :
  alg_hash algorithm = Some hashName ->
  JS.len d < 2 ^ 28 ->
  exists h st1,
    HmacProvider_onImportKey E "raw" (BufferSource d) algorithm extractable keyUsages st
      = (Ok h, st1) /\
    handle_algorithm h
      = Some (mkAlgorithm HmacProvider_name (Some (8 * JS.len d)) (Some hashName)
                          None None None) /\
    handle_extractable h = extractable /\
    handle_usages h = keyUsages /\
    HmacProvider_onExportKey J "raw" h st1 = (Ok (ExportedBuffer d), st1).
Proof.
  intros Hhash Hlen. unfold HmacProvider_onImportKey.
  cbn [toLowerCase lower_ascii]. rewrite Hhash.
  unfold bind at 1, lift at 1. simpl String.eqb. cbn [Buffer_from].
  unfold bind at 1, lift at 1.
  rewrite shl3_small by (unfold JS.len in *; lia).
  set (k := mkKey _ _ _ _ _ _ _).
  destruct ((value <- new_key k ;; setCryptoKey value) st) as [[h|e] st1] eqn:Hreg;
    [|rewrite register_ok in Hreg; discriminate].
  destruct (register_resolves _ _ _ _ Hreg) as (r & Hget & Hderef & Halg & Hext & Hus & _).
  exists h, st1. repeat split; try done.
  unfold HmacProvider_onExportKey.
  change (toLowerCase "raw") with "raw".
  change (("raw" =? "jwk")%string) with false.
  change (("raw" =? "raw")%string) with true. cbv iota.
  rewrite (bind_ok _ _ _ _ _ Hget), (bind_ok _ _ _ _ _ Hderef). reflexivity.
Qed.

Lemma HmacProvider_import_export_raw_witness :
  exists h st1,
    HmacProvider_onImportKey TestEngine.engine "raw" (BufferSource [1; 2; 3])
      (mkAlgorithm "HMAC" None (Some "SHA-256") None None None) false ["sign"] empty_store
      = (Ok h, st1) /\
    HmacProvider_onExportKey test_serializer "raw" h st1
      = (Ok (ExportedBuffer [1; 2; 3]), st1).
Proof.
  destruct (HmacProvider_import_export_raw TestEngine.engine test_serializer [1; 2; 3]
              (mkAlgorithm "HMAC" None (Some "SHA-256") None None None) false ["sign"]
              empty_store "SHA-256" eq_refl ltac:(done))
    as (h & st1 & H1 & _ & _ & _ & H5).
  exists h, st1. auto.
Defined.

Lemma getCryptoKey_unregistered (key : Handle) (st : Store) :
  keyStorage st !! handle_id key = None -> __value key = None ->
  getCryptoKey key st
  = (Throw (OperationError "Cannot get CryptoKey from secure storage"), st).
Proof.
  intros Hk Hv. rewrite getCryptoKey_unfold, Hk, Hv. by destruct st.
Qed.

(** X11: the order of the checks in the exports.  For a handle the
    registry cannot resolve and a format that is neither jwk nor raw, the
    AES and DES providers report the registry failure, while the HMAC
    provider reports the format: it looks the key up only inside the two
    format cases. *)
Theorem onExportKey_check_order (J : Serializer) (format : string) (key : Handle)
    (st : Store) :
  keyStorage st !! handle_id key = None -> __value key = None ->
  toLowerCase format <> "jwk" -> toLowerCase format <> "raw" ->
  AesProvider_onExportKey J format key st
    = (Throw (OperationError "Cannot get CryptoKey from secure storage"), st) /\
  DesProvider_onExportKey J format key st
    = (Throw (OperationError "Cannot get CryptoKey from secure storage"), st) /\
  HmacProvider_onExportKey J format key st
    = (Throw (OperationError "format: Must be 'jwk' or 'raw'"), st).
Proof.
  intros Hk Hv Hjwk Hraw.
  pose proof (getCryptoKey_unregistered key st Hk Hv) as Hget.
  apply String.eqb_neq in Hjwk, Hraw.
  repeat split.
  - unfold AesProvider_onExportKey. by rewrite (bind_throw _ _ _ _ _ Hget).
  - unfold DesProvider_onExportKey. by rewrite (bind_throw _ _ _ _ _ Hget).
  - unfold HmacProvider_onExportKey. by rewrite Hjwk, Hraw.
Qed.

Lemma onExportKey_check_order_witness :
  HmacProvider_onExportKey test_serializer "pkcs8" orphan_handle store_with_material
  = (Throw (OperationError "format: Must be 'jwk' or 'raw'"), store_with_material).
Proof.
  apply (onExportKey_check_order test_serializer "pkcs8" orphan_handle
           store_with_material);
    [reflexivity | reflexivity | discriminate | discriminate].
Defined.

(** X12: HKDF import compares the format case-insensitively and keeps the
    caller's extractable flag: any spelling of raw is accepted and the
    handle carries the algorithm HKDF, the requested flag and usages, and
    resolves to material holding the imported bytes; any other format
    throws OperationError and leaves the store untouched. *)
Theorem HkdfProvider_onImportKey_format (E : Engine) (format : string) (d : list Z)
    (algorithm : Algorithm) (extractable : bool) (keyUsages : list string) (st : Store) :
  (toLowerCase format = "raw" ->
   exists h st1 r v,
     HkdfProvider_onImportKey E format (BufferSource d) algorithm extractable keyUsages st
       = (Ok h, st1) /\
     handle_algorithm h = Some (algorithm_named HkdfProvider_name) /\
     handle_extractable h = extractable /\ handle_usages h = keyUsages /\
     getCryptoKey h st1 = (Ok r, st1) /\ heap st1 !! r = Some v /\
     key_data v = d /\ key_class v = HkdfCryptoKey) /\
  (toLowerCase format <> "raw" ->
   forall keyData,
     HkdfProvider_onImportKey E format keyData algorithm extractable keyUsages st
     = (Throw (OperationError "Operation not supported"), st)).
Proof.
  split.
  - intros Hraw. unfold HkdfProvider_onImportKey. rewrite Hraw. simpl String.eqb.
    cbn [negb Buffer_from]. unfold bind at 1, lift at 1.
    set (k := mkKey _ _ _ _ _ _ _).
    destruct ((value <- new_key k ;; setCryptoKey value) st) as [[h|e] st1] eqn:Hreg;
      [|rewrite register_ok in Hreg; discriminate].
    destruct (register_resolves _ _ _ _ Hreg)
      as (r & Hget & Hderef & Halg & Hext & Hus & _).
    unfold deref in Hderef. destruct (heap st1 !! r) as [v|] eqn:Hv; [|discriminate].
    inversion Hderef; subst v. by exists h, st1, r, k.
  - intros Hraw keyData. apply String.eqb_neq in Hraw.
    unfold HkdfProvider_onImportKey. by rewrite Hraw.
Qed.

Lemma HkdfProvider_onImportKey_format_witness :
  exists h st1,
    HkdfProvider_onImportKey TestEngine.engine "RAW" (BufferSource [1; 2; 3])
      (algorithm_named "HKDF") true ["deriveBits"] empty_store = (Ok h, st1) /\
    handle_extractable h = true.
Proof.
  destruct (HkdfProvider_onImportKey_format TestEngine.engine "RAW" [1; 2; 3]
              (algorithm_named "HKDF") true ["deriveBits"] empty_store)
    as [Hok _].
  destruct (Hok eq_refl) as (h & st1 & r & v & H1 & _ & H3 & _).
  exists h, st1. auto.
Defined.

(** X13: PBKDF2 import compares the format exactly: every format other
    than the lower-case string raw, RAW included, throws OperationError
    "format: Must be 'raw'" and leaves the store untouched. *)
Theorem Pbkdf2Provider_onImportKey_format (E : Engine) (format : string)
    (keyData : KeyData) (algorithm : Algorithm) (extractable : bool)
    (keyUsages : list string) (st : Store) :
  format <> "raw" ->
  Pbkdf2Provider_onImportKey E format keyData algorithm extractable keyUsages st
  = (Throw (OperationError "format: Must be 'raw'"), st).
Proof.
  intros Hraw. apply String.eqb_neq in Hraw.
  unfold Pbkdf2Provider_onImportKey. by rewrite Hraw.
Qed.

Lemma Pbkdf2Provider_onImportKey_format_witness :
  Pbkdf2Provider_onImportKey TestEngine.engine "RAW" (BufferSource [1; 2; 3])
    (algorithm_named "PBKDF2") true ["deriveBits"] empty_store
  = (Throw (OperationError "format: Must be 'raw'"), empty_store).
Proof.
  apply (Pbkdf2Provider_onImportKey_format TestEngine.engine "RAW"
           (BufferSource [1; 2; 3]) (algorithm_named "PBKDF2") true ["deriveBits"]
           empty_store).
  discriminate.
Defined.

(** ** RSA-OAEP: mask generation, encoding and the round trip *)

Lemma ceil_div_nat (B H : nat) :
  (0 < H)%nat ->
  JS.ceil_div (Z.of_nat B) (Z.of_nat H) = Z.of_nat ((B + H - 1) / H).
Proof.
  intros HH. pose proof (ceil_div_bytes B H HH) as Hc.
  unfold JS.ceil_div in *.
  replace (- (8 * Z.of_nat B)) with (8 * - Z.of_nat B) in Hc by lia.
  by rewrite Z.div_mul_cancel_l in Hc by lia.
Qed.

Lemma ceil_chunks_cover (B H : nat) :
  (0 < H)%nat -> (B <= (B + H - 1) / H * H)%nat.
Proof.
  intros HH.
  pose proof (Nat.div_mod (B + H - 1) H ltac:(lia)) as Hq.
  pose proof (Nat.mod_upper_bound (B + H - 1) H ltac:(lia)) as Hr.
  nia.
Qed.

Lemma ceil_chunks_tight (B H k : nat) :
  (0 < H)%nat -> (k < (B + H - 1) / H)%nat -> (k * H < B)%nat.
Proof.
  intros HH Hk.
  pose proof (Nat.div_mod (B + H - 1) H ltac:(lia)) as Hq.
  pose proof (Nat.mod_upper_bound (B + H - 1) H ltac:(lia)) as Hr.
  nia.
Qed.

(** The four counter stores of [mgf1] write I2OSP(i, 4). *)
Lemma mgf1_counter (counter : list Z) (i : Z) :
  length counter = 4%nat -> 0 <= i < 2 ^ 31 ->
  JS.set (JS.set (JS.set (JS.set counter 0 (JS.ushr i 24)) 1 (JS.band (JS.ushr i 16) 255))
                 2 (JS.band (JS.ushr i 8) 255)) 3 (JS.band i 255)
  = RFC8017.I2OSP4 i.
Proof.
  intros Hlen Hi.
  destruct counter as [|a [|b [|c [|d [|]]]]]; try discriminate.
  unfold JS.set. cbn. unfold RFC8017.I2OSP4, JS.toUint8, JS.band, JS.ushr, JS.toUint32.
  rewrite (Z.mod_small i (2 ^ 32)) by lia.
  change (24 mod 32) with 24. change (16 mod 32) with 16. change (8 mod 32) with 8.
  rewrite !Z.shiftr_div_pow2 by lia.
  assert (H16 : 0 <= i / 2 ^ 16 < 2 ^ 31).
  { split; [apply Z.div_pos; lia|]. apply Z.div_lt_upper_bound; lia. }
  assert (H8 : 0 <= i / 2 ^ 8 < 2 ^ 31).
  { split; [apply Z.div_pos; lia|]. apply Z.div_lt_upper_bound; lia. }
  rewrite !toInt32_small by lia.
  change 255 with (Z.ones 8). rewrite !Z.land_ones by lia.
  change (2 ^ 8) with 256. rewrite !Z.mod_mod by lia. reflexivity.
Qed.

Section Mgf1.

Variable E : Engine.
Variable hashName : string.
Variable size : Z.
Hypothesis size_ok : ShaCrypto_size hashName = Ok size.
Hypothesis digest_length :
  forall d, JS.len (createHash E (replace_dash hashName) d) = JS.shr size 3.

Local Abbreviation Hash := (createHash E (replace_dash hashName)).
Local Abbreviation hLen := (Z.to_nat (JS.shr size 3)).

Lemma hLen_pos : (0 < hLen)%nat.
Proof. pose proof (hashSize_pos hashName size size_ok). lia. Qed.

Lemma length_Hash d : length (Hash d) = hLen.
Proof. pose proof (digest_length d) as H. unfold JS.len in H. lia. Qed.

Local Abbreviation T seed k :=
  (concat (map (fun counter => Hash (seed ++ RFC8017.I2OSP4 (Z.of_nat counter)))
               (seq 0 k))).

Lemma length_T seed k : length (T seed k) = (k * hLen)%nat.
Proof.
  induction k as [|k IH]; [done|].
  rewrite seq_S, map_app, concat_app, length_app, IH. cbn [map concat].
  rewrite app_nil_r, length_Hash. lia.
Qed.

Lemma mgf1_loop (seed : list Z) (n k : nat) :
  Z.of_nat n < 2 ^ 31 ->
  (k <= (n + hLen - 1) / hLen)%nat ->
  exists counter,
    length counter = 4%nat /\
    JS.for_loop 0 (Z.of_nat k)
      (fun i '(mask, counter) =>
         let counter := JS.set counter 0 (JS.ushr i 24) in
         let counter := JS.set counter 1 (JS.band (JS.ushr i 16) 255) in
         let counter := JS.set counter 2 (JS.band (JS.ushr i 8) 255) in
         let counter := JS.set counter 3 (JS.band i 255) in
         let submask := JS.slice_from mask (i * JS.shr size 3) in
         let chunk := Hash (seed ++ counter) in
         let chunk := if JS.len submask <? JS.len chunk
                      then JS.slice chunk 0 (JS.len submask) else chunk in
         (JS.set_at mask chunk (i * JS.shr size 3), counter))
      (JS.alloc (Z.of_nat n), JS.alloc 4)
    = (take n (T seed k ++ replicate n 0), counter).
Proof.
  intros Hn. pose proof hLen_pos as Hpos.
  pose proof (hashSize_pos hashName size size_ok) as HposZ.
  induction k as [|k IH]; intros Hk.
  - exists (JS.alloc 4). split; [done|]. rewrite for_loop_nil by lia.
    unfold JS.alloc. rewrite Nat2Z.id. cbn [seq map concat app].
    by rewrite take_replicate, Nat.min_id.
  - destruct IH as (counter & Hc & IH); [lia|].
    rewrite for_loop_S, IH. cbv beta iota zeta.
    pose proof (ceil_chunks_tight n hLen k Hpos ltac:(lia)) as Htight.
    rewrite mgf1_counter by (done || nia).
    exists (RFC8017.I2OSP4 (Z.of_nat k)). split; [reflexivity|]. f_equal.
    set (h := Hash (seed ++ RFC8017.I2OSP4 (Z.of_nat k))).
    assert (Hh : length h = hLen) by apply length_Hash.
    assert (Hoff : Z.to_nat (Z.of_nat k * JS.shr size 3) = (k * hLen)%nat) by lia.
    pose proof (length_T seed k) as HT.
    unfold JS.set_at, JS.slice_from, JS.slice, JS.len. rewrite Hoff.
    rewrite seq_S, map_app, concat_app. cbn [map concat]. rewrite app_nil_r.
    rewrite Nat.add_0_l. fold h. set (t := T seed k) in *.
    assert (Hmask : take n (t ++ replicate n 0) = t ++ replicate (n - k * hLen) 0).
    { rewrite take_app, take_ge by lia. rewrite take_replicate, HT.
      f_equal. f_equal. lia. }
    rewrite Hmask.
    rewrite drop_app_length' by done.
    rewrite take_app_length' by done.
    rewrite length_replicate.
    assert (Hchunk : (if Z.of_nat (n - k * hLen) <? Z.of_nat (length h)
                      then take (Z.to_nat (Z.of_nat (n - k * hLen)) - Z.to_nat 0)
                                (drop (Z.to_nat 0) h)
                      else h) = take (n - k * hLen) h).
    { destruct (Z.ltb_spec (Z.of_nat (n - k * hLen)) (Z.of_nat (length h))).
      - change (Z.to_nat 0) with 0%nat. rewrite drop_0. f_equal. lia.
      - rewrite take_ge by lia. done. }
    rewrite Hchunk.
    rewrite drop_app, drop_ge by lia. rewrite drop_replicate. cbn [app].
    rewrite <- app_assoc, take_app, (take_ge t) by lia.
    rewrite take_app, take_replicate, HT, Hh.
    rewrite length_take, Hh. f_equal. f_equal. f_equal. lia.
Qed.

Lemma mgf1_eq (seed : list Z) (length : Z) :
  0 <= length < 2 ^ 31 ->
  mgf1 E hashName seed length
  = Ok (RFC8017.MGF1 Hash hLen seed (Z.to_nat length)).
Proof.
  intros Hrange. unfold mgf1. rewrite size_ok. cbn [rbind]. cbv zeta. f_equal.
  pose proof hLen_pos as Hpos.
  pose proof (hashSize_pos hashName size size_ok) as HposZ.
  set (n := Z.to_nat length).
  assert (Hch : JS.ceil_div length (JS.shr size 3) = Z.of_nat ((n + hLen - 1) / hLen)).
  { rewrite <- ceil_div_nat by done. f_equal; lia. }
  rewrite Hch. replace length with (Z.of_nat n) by lia.
  destruct (mgf1_loop seed n ((n + hLen - 1) / hLen)) as (counter & _ & Hloop); [lia|done|].
  cbv zeta in Hloop. rewrite Hloop.
  cbn [fst]. unfold RFC8017.MGF1.
  rewrite take_app_le; [done|].
  rewrite length_T. by apply ceil_chunks_cover.
Qed.

Lemma length_MGF1 (seed : list Z) (n : nat) :
  length (RFC8017.MGF1 Hash hLen seed n) = n.
Proof.
  unfold RFC8017.MGF1. rewrite length_take, length_T.
  pose proof (ceil_chunks_cover n hLen hLen_pos). lia.
Qed.

End Mgf1.
(** ** In-place masking *)

Lemma xor_in_place_loop (a m : list Z) (k : nat) :
  Forall byte a -> Forall byte m -> length m = length a -> (k <= length a)%nat ->
  JS.for_loop 0 (Z.of_nat k)
    (fun i a => JS.set a i (JS.bxor (JS.get a i) (JS.get m i))) a
  = zip_with Z.lxor (take k a) (take k m) ++ drop k a.
Proof.
  intros Ha Hm Hlen. induction k as [|k IH]; intros Hk.
  - rewrite for_loop_nil by lia. reflexivity.
  - rewrite for_loop_S, IH by lia.
    destruct (lookup_lt_is_Some_2 a k) as [x Hx]; [lia|].
    destruct (lookup_lt_is_Some_2 m k) as [y Hy]; [lia|].
    assert (Hz : length (zip_with Z.lxor (take k a) (take k m)) = k).
    { rewrite length_zip_with, !length_take. lia. }
    rewrite set_nonneg by lia. rewrite Nat2Z.id.
    rewrite (get_lookup _ k x); cycle 1.
    { rewrite lookup_app_r by lia. rewrite Hz, Nat.sub_diag.
      by rewrite lookup_drop, Nat.add_0_r. }
    rewrite (get_lookup _ k y Hy).
    rewrite bxor_byte; cycle 1.
    { eapply Forall_lookup_1; [exact Ha | exact Hx]. }
    { eapply Forall_lookup_1; [exact Hm | exact Hy]. }
    rewrite insert_app_r_alt by lia. rewrite Hz, Nat.sub_diag.
    rewrite (drop_S _ _ _ Hx). cbn [insert list_insert].
    rewrite (take_S_r _ _ _ Hx), (take_S_r _ _ _ Hy).
    rewrite zip_with_app by (rewrite !length_take; lia).
    cbn [zip_with]. by rewrite <- app_assoc.
Qed.

Lemma xor_in_place_zip (a m : list Z) :
  Forall byte a -> Forall byte m -> length m = length a ->
  xor_in_place a m = zip_with Z.lxor a m.
Proof.
  intros Ha Hm Hlen. unfold xor_in_place, JS.len.
  rewrite xor_in_place_loop by done.
  rewrite drop_all, app_nil_r, firstn_all. rewrite <- Hlen, firstn_all. done.
Qed.

Lemma zip_with_lxor_cancel (a m : list Z) :
  (length a <= length m)%nat ->
  zip_with Z.lxor (zip_with Z.lxor a m) m = a.
Proof.
  revert m. induction a as [|x a IH]; intros [|y m] Hlen; cbn in *; try done; [lia|].
  rewrite IH by lia. by rewrite Z.lxor_assoc, Z.lxor_nilpotent, Z.lxor_0_r.
Qed.

Lemma scan_fold_zeros (dataBlock : list Z) (l : list Z) :
  (forall i, In i l -> JS.at_ dataBlock i = Some 0) ->
  fold_left (scan_step dataBlock) l None = None.
Proof.
  induction l as [|i l IH]; intros H; [done|]. cbn [fold_left].
  unfold scan_step at 2. rewrite (H i) by (by left). apply IH.
  intros j Hj. apply H. by right.
Qed.

Lemma at_of_nat (l : list Z) (i : nat) : JS.at_ l (Z.of_nat i) = l !! i.
Proof.
  unfold JS.at_.
  replace (Z.of_nat i <? 0) with false by (symmetry; apply Z.ltb_ge; lia).
  by rewrite Nat2Z.id.
Qed.

(** The scan stops at the first 0x01 that follows a run of zeros. *)
Lemma scan_delimiter_found (pre M : list Z) (ps : nat) (hs : Z) :
  JS.len pre = hs ->
  scan_delimiter (pre ++ replicate ps 0 ++ [1] ++ M) hs
  = Ok (Z.of_nat (length pre + ps)).
Proof.
  intros <-. unfold JS.len at 1. unfold scan_delimiter, JS.for_loop, JS.len.
  change (fold_left (fun acc i => scan_step (pre ++ replicate ps 0 ++ [1] ++ M) acc i))
    with (fold_left (scan_step (pre ++ replicate ps 0 ++ [1] ++ M))).
  rewrite !length_app, length_replicate. cbn [length].
  replace (Z.of_nat (length pre + (ps + (1 + length M))) - Z.of_nat (length pre))
    with (Z.of_nat ps + Z.succ (Z.of_nat (length M))) by lia.
  rewrite seqZ_app by lia.
  rewrite (seqZ_cons (Z.of_nat (length pre) + Z.of_nat ps)) by lia.
  rewrite fold_left_app. rewrite scan_fold_zeros; cycle 1.
  { intros i Hi. apply list_elem_of_In, elem_of_seqZ in Hi.
    replace i with (Z.of_nat (Z.to_nat i)) by lia. rewrite at_of_nat.
    rewrite lookup_app_r by lia. rewrite lookup_app_l by (rewrite length_replicate; lia).
    apply lookup_replicate_2. lia. }
  cbn [fold_left]. unfold scan_step at 2.
  replace (Z.of_nat (length pre) + Z.of_nat ps) with (Z.of_nat (length pre + ps)) by lia.
  rewrite at_of_nat.
  rewrite lookup_app_r by lia. rewrite lookup_app_r by (rewrite length_replicate; lia).
  rewrite length_replicate.
  replace (length pre + ps - length pre - ps)%nat with 0%nat by lia. cbn [lookup list_lookup app].
  by rewrite scan_fold_decided.
Qed.

Lemma label_mismatch_prefix (lHash rest : list Z) (hs : Z) :
  JS.len lHash = hs ->
  label_mismatch lHash (lHash ++ rest) hs = false.
Proof.
  intros <-. unfold label_mismatch. apply not_true_is_false. intros H.
  apply existsb_exists in H as (i & Hi & H).
  apply list_elem_of_In, elem_of_seqZ in Hi.
  apply negb_true_iff, bool_decide_eq_false in H. apply H.
  replace i with (Z.of_nat (Z.to_nat i)) by lia. rewrite !at_of_nat.
  unfold JS.len in Hi. by rewrite lookup_app_l by lia.
Qed.

Section OaepCodec.

Variable E : Engine.
Variable hashName : string.
Variable size : Z.
Hypothesis size_ok : ShaCrypto_size hashName = Ok size.
Hypothesis digest_length :
  forall d, JS.len (createHash E (replace_dash hashName) d) = JS.shr size 3.
Hypothesis digest_bytes :
  forall d, Forall byte (createHash E (replace_dash hashName) d).

Local Abbreviation Hash := (createHash E (replace_dash hashName)).
Local Abbreviation hLen := (Z.to_nat (JS.shr size 3)).

Lemma MGF1_bytes (seed : list Z) (n : nat) :
  Forall byte (RFC8017.MGF1 Hash hLen seed n).
Proof.
  unfold RFC8017.MGF1. apply Forall_take, Forall_concat, Forall_map.
  apply Forall_forall. intros c _. apply digest_bytes.
Qed.

Variable k : nat.
Variables (label M seed : list Z).
Hypothesis fits : (length M + 2 * hLen + 2 <= k)%nat.
Hypothesis k_small : Z.of_nat k < 2 ^ 31.
Hypothesis seed_length : length seed = hLen.
Hypothesis seed_bytes : Forall byte seed.
Hypothesis M_bytes : Forall byte M.

Local Abbreviation ps := (k - length M - 2 * hLen - 2)%nat.
Local Abbreviation DB := (Hash label ++ replicate ps 0 ++ [1] ++ M).
Local Abbreviation maskedDB :=
  (zip_with Z.lxor DB (RFC8017.MGF1 Hash hLen seed (k - hLen - 1))).
Local Abbreviation maskedSeed :=
  (zip_with Z.lxor seed (RFC8017.MGF1 Hash hLen maskedDB hLen)).

Lemma length_DB : length DB = (k - hLen - 1)%nat.
Proof.
  rewrite !length_app, length_replicate, (length_Hash E hashName size digest_length).
  cbn [length]. lia.
Qed.

Lemma DB_bytes : Forall byte DB.
Proof.
  repeat apply Forall_app_2; try done.
  - apply Forall_replicate. unfold byte. lia.
  - repeat constructor; unfold byte; lia.
Qed.

Lemma length_maskedDB : length maskedDB = (k - hLen - 1)%nat.
Proof.
  rewrite length_zip_with, length_DB, (length_MGF1 E hashName size size_ok digest_length).
  lia.
Qed.

Lemma length_maskedSeed : length maskedSeed = hLen.
Proof.
  rewrite length_zip_with, seed_length, (length_MGF1 E hashName size size_ok digest_length).
  lia.
Qed.

(** The buffer [onEncrypt] builds is the RFC's encoded message. *)
Lemma onEncrypt_message :
  let keySize := Z.of_nat k in
  let hashSize := JS.shr size 3 in
  let psLength := keySize - JS.len M - 2 * hashSize - 2 in
  let message := JS.alloc keySize in
  let seed0 := JS.slice message 1 (hashSize + 1) in
  let dataBlock := JS.slice_from message (hashSize + 1) in
  let dataBlock := JS.set_at dataBlock M (hashSize + psLength + 1) in
  let dataBlock := JS.set_at dataBlock (Hash label) 0 in
  let dataBlock := JS.set dataBlock (hashSize + psLength) 1 in
  length seed0 = hLen /\
  dataBlock = DB /\
  mgf1 E hashName seed (JS.len dataBlock)
    = Ok (RFC8017.MGF1 Hash hLen seed (k - hLen - 1)) /\
  xor_in_place DB (RFC8017.MGF1 Hash hLen seed (k - hLen - 1)) = maskedDB /\
  mgf1 E hashName maskedDB (JS.len seed) = Ok (RFC8017.MGF1 Hash hLen maskedDB hLen) /\
  xor_in_place seed (RFC8017.MGF1 Hash hLen maskedDB hLen) = maskedSeed /\
  JS.slice message 0 1 ++ maskedSeed ++ maskedDB
    = RFC8017.EME_OAEP_encode Hash hLen k label M seed.
Proof.
  pose proof (hLen_pos hashName size size_ok) as Hpos.
  pose proof (length_Hash E hashName size digest_length label) as HlH.
  cbv zeta.
  assert (Hdb : JS.set
                  (JS.set_at
                     (JS.set_at (JS.slice_from (JS.alloc (Z.of_nat k)) (JS.shr size 3 + 1)) M
                        (JS.shr size 3 + (Z.of_nat k - JS.len M - 2 * JS.shr size 3 - 2) + 1))
                     (Hash label) 0)
                  (JS.shr size 3 + (Z.of_nat k - JS.len M - 2 * JS.shr size 3 - 2)) 1 = DB).
  { unfold JS.slice_from, JS.alloc, JS.set_at, JS.len.
    rewrite set_nonneg by lia.
    replace (Z.to_nat (JS.shr size 3 + (Z.of_nat k - Z.of_nat (length M)
                                        - 2 * JS.shr size 3 - 2) + 1))
      with (hLen + ps + 1)%nat by lia.
    replace (Z.to_nat (JS.shr size 3 + (Z.of_nat k - Z.of_nat (length M)
                                        - 2 * JS.shr size 3 - 2)))
      with (hLen + ps)%nat by lia.
    replace (Z.to_nat (JS.shr size 3 + 1)) with (hLen + 1)%nat by lia.
    rewrite Nat2Z.id, drop_replicate, take_replicate, drop_replicate.
    change (Z.to_nat 0) with 0%nat. rewrite take_0. cbn [app Nat.add].
    rewrite HlH.
    replace (k - (hLen + 1) - (hLen + ps + 1 + length M))%nat with 0%nat by lia.
    cbn [replicate]. rewrite app_nil_r.
    replace ((hLen + ps + 1) `min` (k - (hLen + 1)))%nat with (hLen + (ps + 1))%nat by lia.
    rewrite drop_app, drop_replicate, length_replicate.
    replace (hLen - (hLen + (ps + 1)))%nat with 0%nat by lia.
    rewrite drop_0.
    replace (hLen + (ps + 1) - hLen)%nat with (ps + 1)%nat by lia.
    rewrite insert_app_r_alt by lia. rewrite HlH.
    replace (hLen + ps - hLen)%nat with ps by lia.
    rewrite replicate_add, <- app_assoc.
    rewrite insert_app_r_alt by (rewrite length_replicate; lia).
    rewrite length_replicate, Nat.sub_diag. reflexivity. }
  rewrite Hdb.
  assert (HlenDB : Z.to_nat (JS.len DB) = (k - hLen - 1)%nat).
  { unfold JS.len. rewrite length_DB. lia. }
  repeat split.
  - unfold JS.slice, JS.alloc. rewrite Nat2Z.id, drop_replicate, take_replicate.
    rewrite length_replicate. lia.
  - rewrite (mgf1_eq E hashName size size_ok digest_length).
    + by rewrite HlenDB.
    + unfold JS.len. rewrite length_DB. lia.
  - apply xor_in_place_zip.
    + apply DB_bytes.
    + apply MGF1_bytes.
    + rewrite length_DB. apply (length_MGF1 E hashName size size_ok digest_length).
  - rewrite (mgf1_eq E hashName size size_ok digest_length).
    + unfold JS.len. by rewrite Nat2Z.id, seed_length.
    + unfold JS.len. lia.
  - apply xor_in_place_zip.
    + done.
    + apply MGF1_bytes.
    + rewrite seed_length. apply (length_MGF1 E hashName size size_ok digest_length).
  - unfold RFC8017.EME_OAEP_encode. cbv zeta. f_equal.
    unfold JS.slice, JS.alloc. rewrite Nat2Z.id, drop_replicate, take_replicate.
    replace ((Z.to_nat 1 - Z.to_nat 0) `min` (k - Z.to_nat 0))%nat with 1%nat by lia.
    reflexivity.
Qed.

(** Unpadding undoes the RFC's encoding. *)
Lemma oaep_unpad_encode (lbl : option (list Z)) :
  default [] lbl = label ->
  oaep_unpad E hashName (JS.shr size 3) lbl
    (RFC8017.EME_OAEP_encode Hash hLen k label M seed) = Ok M.
Proof.
  intros Hlbl.
  pose proof (hLen_pos hashName size size_ok) as Hpos.
  pose proof (length_Hash E hashName size digest_length label) as HlH.
  pose proof length_maskedSeed as HmS. pose proof length_maskedDB as HmDB.
  unfold RFC8017.EME_OAEP_encode. cbv zeta.
  unfold oaep_unpad.
  change ([0] ++ maskedSeed ++ maskedDB) with (0 :: (maskedSeed ++ maskedDB)).
  change (JS.at_ (0 :: maskedSeed ++ maskedDB) 0) with (Some 0).
  rewrite bool_decide_eq_true_2 by done. cbn [negb].
  unfold oaep_unmask. cbv zeta.
  assert (Hs : JS.slice (0 :: maskedSeed ++ maskedDB) 1 (JS.shr size 3 + 1) = maskedSeed).
  { unfold JS.slice. replace (Z.to_nat (JS.shr size 3 + 1) - Z.to_nat 1)%nat with hLen by lia.
    change (Z.to_nat 1) with 1%nat. cbn [skipn]. rewrite drop_0.
    rewrite take_app_length' by done. done. }
  assert (Hd : JS.slice_from (0 :: maskedSeed ++ maskedDB) (JS.shr size 3 + 1) = maskedDB).
  { unfold JS.slice_from. replace (Z.to_nat (JS.shr size 3 + 1)) with (S hLen) by lia.
    cbn [skipn]. rewrite drop_app_length' by done. done. }
  rewrite Hs, Hd.
  rewrite (mgf1_eq E hashName size size_ok digest_length)
    by (unfold JS.len; rewrite HmS; lia).
  cbn [rbind].
  replace (Z.to_nat (JS.len maskedSeed)) with hLen by (unfold JS.len; rewrite HmS; lia).
  rewrite xor_in_place_zip; cycle 1.
  { apply zip_with_lxor_byte; [done | apply MGF1_bytes]. }
  { apply MGF1_bytes. }
  { rewrite HmS. apply (length_MGF1 E hashName size size_ok digest_length). }
  rewrite zip_with_lxor_cancel
    by (rewrite seed_length, (length_MGF1 E hashName size size_ok digest_length); lia).
  rewrite (mgf1_eq E hashName size size_ok digest_length)
    by (unfold JS.len; rewrite HmDB; lia).
  cbn [rbind].
  replace (Z.to_nat (JS.len maskedDB)) with (k - hLen - 1)%nat
    by (unfold JS.len; rewrite HmDB; lia).
  rewrite xor_in_place_zip; cycle 1.
  { apply zip_with_lxor_byte; [apply DB_bytes | apply MGF1_bytes]. }
  { apply MGF1_bytes. }
  { rewrite HmDB. apply (length_MGF1 E hashName size size_ok digest_length). }
  rewrite zip_with_lxor_cancel
    by (rewrite length_DB, (length_MGF1 E hashName size size_ok digest_length); lia).
  cbn [snd]. rewrite Hlbl.
  rewrite label_mismatch_prefix by apply digest_length.
  rewrite scan_delimiter_found by apply digest_length. cbn [rbind].
  replace (Z.of_nat (length (Hash label) + ps) =? JS.len DB) with false; cycle 1.
  { symmetry. apply Z.eqb_neq. unfold JS.len. rewrite length_DB. lia. }
  f_equal. unfold JS.slice_from.
  replace (Z.to_nat (Z.of_nat (length (Hash label) + ps) + 1))
    with (length (Hash label) + (ps + 1))%nat by lia.
  rewrite drop_app_add'  by done.
  rewrite app_assoc. apply drop_app_length'.
  rewrite length_app, length_replicate. cbn [length]. lia.
Qed.

Lemma length_EME_OAEP_encode :
  length (RFC8017.EME_OAEP_encode Hash hLen k label M seed) = k.
Proof.
  unfold RFC8017.EME_OAEP_encode. cbv zeta.
  rewrite !length_app, length_maskedSeed, length_maskedDB. cbn [length].
  pose proof (hLen_pos hashName size size_ok). lia.
Qed.

End OaepCodec.

Lemma getCryptoKey_registered (key : Handle) (st : Store) (r : ref) (v : InternalCryptoKey) :
  keyStorage st !! handle_id key = Some r -> heap st !! r = Some v ->
  is_Some (key_algorithm v) ->
  getCryptoKey key st = (Ok r, st).
Proof.
  intros Hk Hv [a Ha]. rewrite getCryptoKey_unfold, Hk.
  unfold backfill_algorithm. rewrite Hv, Ha. by destruct st.
Qed.

Lemma cache_pem_pem (E : Engine) (kind : string) (r : ref) (st : Store)
    (v : InternalCryptoKey) :
  heap st !! r = Some v ->
  exists st',
    cache_pem E kind r st = (Ok (pem_of E kind v), st') /\
    keyStorage st' = keyStorage st /\ entropy st' = entropy st /\
    next_id st' = next_id st /\
    forall r', r' <> r -> heap st' !! r' = heap st !! r'.
Proof.
  intros Hv. unfold cache_pem, pem_of. rewrite Hv.
  destruct (negb _).
  - by exists st.
  - eexists. split; [reflexivity|]. repeat split.
    intros r' Hr'. cbn [heap]. by rewrite lookup_insert_ne.
Qed.

Lemma randomFillSync_bytes (E : Engine) (seed0 : list Z) (st : Store) :
  exists seed,
    randomFillSync E seed0 st
    = (Ok seed, mkStore (heap st) (keyStorage st) (next_id st) (Datatypes.S (entropy st))) /\
    seed = map (fun i => JS.toUint8 (random_byte E (entropy st) i)) (seq 0 (length seed0)) /\
    length seed = length seed0 /\ Forall byte seed.
Proof.
  eexists. split; [reflexivity|]. split; [reflexivity|]. split.
  - by rewrite length_map, length_seq.
  - apply Forall_map, Forall_forall. intros i _. unfold JS.toUint8, byte.
    apply Z.mod_pos_bound. lia.
Qed.

Section OaepProvider.

Variable E : Engine.
Variable algorithm : RsaOaepParams.
Variable hashName : string.
Variable size : Z.
Variable n : Z.
Hypothesis size_ok : ShaCrypto_size hashName = Ok size.
Hypothesis digest_length :
  forall d, JS.len (createHash E (replace_dash hashName) d) = JS.shr size 3.
Hypothesis digest_bytes :
  forall d, Forall byte (createHash E (replace_dash hashName) d).
Hypothesis n_range : 0 <= n < 2 ^ 31.

Local Abbreviation Hash := (createHash E (replace_dash hashName)).
Local Abbreviation hLen := (Z.to_nat (JS.shr size 3)).
Local Abbreviation k := (Z.to_nat (JS.shr n 3)).

Lemma keySize_range : 0 <= JS.shr n 3 < 2 ^ 31.
Proof.
  rewrite shr3_small by done. split; [apply Z.div_pos; lia|].
  apply Z.div_lt_upper_bound; lia.
Qed.

Lemma onEncrypt_too_large (key : Handle) (data : list Z) (st : Store) (r : ref)
    (v : InternalCryptoKey) (a : Algorithm) :
  keyStorage st !! handle_id key = Some r -> heap st !! r = Some v ->
  key_algorithm v = Some a -> alg_modulusLength a = Some n ->
  alg_hash a = Some hashName ->
  JS.shr n 3 - 2 * JS.shr size 3 - 2 < JS.len data ->
  RsaOaepProvider_onEncrypt E algorithm key data st = (Throw (Error "Data too large"), st).
Proof.
  intros Hk Hv Ha Hn Hh Hlarge.
  unfold RsaOaepProvider_onEncrypt.
  rewrite (bind_ok _ _ _ _ _ (getCryptoKey_registered key st r v Hk Hv ltac:(by rewrite Ha))).
  assert (Hderef : deref r st = (Ok v, st)) by (unfold deref; by rewrite Hv).
  rewrite (bind_ok _ _ _ _ _ Hderef). rewrite Ha.
  unfold bind at 1, lift at 1. rewrite Hn, Hh. change (default 0 (Some n)) with n.
  unfold bind at 1, lift at 1. rewrite size_ok.
  unfold bind at 1, lift at 1.
  replace (JS.shr n 3 - 2 * JS.shr size 3 - 2 <? JS.len data) with true
    by (symmetry; apply Z.ltb_lt; lia).
  reflexivity.
Qed.

Lemma onEncrypt_encoded (key : Handle) (data : list Z) (st : Store) (r : ref)
    (v : InternalCryptoKey) (a : Algorithm) :
  keyStorage st !! handle_id key = Some r -> heap st !! r = Some v ->
  key_algorithm v = Some a -> alg_modulusLength a = Some n ->
  alg_hash a = Some hashName ->
  Forall byte data ->
  JS.len data <= JS.shr n 3 - 2 * JS.shr size 3 - 2 ->
  exists seed st',
    seed = map (fun i => JS.toUint8 (random_byte E (entropy st) i)) (seq 0 hLen) /\
    RsaOaepProvider_onEncrypt E algorithm key data st
    = (publicEncrypt_no_padding E (pem_of E "PUBLIC" v)
         (RFC8017.EME_OAEP_encode Hash hLen k (default [] (oaep_label algorithm)) data seed),
       st') /\
    keyStorage st' = keyStorage st /\ entropy st' = Datatypes.S (entropy st) /\
    next_id st' = next_id st /\
    forall r', r' <> r -> heap st' !! r' = heap st !! r'.
Proof.
  intros Hk Hv Ha Hn Hh Hdata Hfits.
  pose proof keySize_range as Hks.
  pose proof (hLen_pos hashName size size_ok) as Hpos.
  assert (Hfits' : (length data + 2 * hLen + 2 <= k)%nat) by (unfold JS.len in Hfits; lia).
  assert (Hk31 : Z.of_nat k < 2 ^ 31) by lia.
  set (kk := Z.to_nat (JS.shr n 3)) in *.
  assert (Hkk : JS.shr n 3 = Z.of_nat kk) by lia. clearbody kk.
  unfold RsaOaepProvider_onEncrypt.
  rewrite (bind_ok _ _ _ _ _ (getCryptoKey_registered key st r v Hk Hv ltac:(by rewrite Ha))).
  assert (Hderef : deref r st = (Ok v, st)) by (unfold deref; by rewrite Hv).
  rewrite (bind_ok _ _ _ _ _ Hderef). rewrite Ha.
  unfold bind at 1, lift at 1. rewrite Hn, Hh. change (default 0 (Some n)) with n.
  unfold bind at 1, lift at 1. rewrite size_ok.
  unfold bind at 1, lift at 1. rewrite Hkk.
  replace (Z.of_nat kk - 2 * JS.shr size 3 - 2 <? JS.len data) with false
    by (symmetry; apply Z.ltb_ge; lia).
  cbv zeta.
  destruct (randomFillSync_bytes E (JS.slice (JS.alloc (Z.of_nat kk)) 1 (JS.shr size 3 + 1)) st)
    as (seed & Hrand & Hseed & Hslen & Hsbytes).
  rewrite (bind_ok _ _ _ _ _ Hrand).
  assert (Hs0 : length (JS.slice (JS.alloc (Z.of_nat kk)) 1 (JS.shr size 3 + 1)) = hLen).
  { unfold JS.slice, JS.alloc. rewrite Nat2Z.id, drop_replicate, take_replicate.
    rewrite length_replicate. lia. }
  rewrite Hs0 in Hslen.
  pose proof (onEncrypt_message E hashName size size_ok digest_length digest_bytes kk
                (default [] (oaep_label algorithm)) data seed Hfits' Hk31 Hslen Hsbytes
                Hdata) as Hmsg.
  cbv zeta in Hmsg.
  destruct Hmsg as (_ & Hdb & Hm1 & Hx1 & Hm2 & Hx2 & Hem).
  rewrite Hs0 in Hseed.
  rewrite Hm1. unfold bind at 1, lift at 1. rewrite Hdb, Hx1.
  rewrite Hm2. unfold bind at 1, lift at 1. rewrite Hx2, Hem.
  destruct (cache_pem_pem E "PUBLIC" r
              (mkStore (heap st) (keyStorage st) (next_id st) (Datatypes.S (entropy st))) v Hv)
    as (st' & Hpem & Hks' & Hent & Hnext & Hheap).
  rewrite (bind_ok _ _ _ _ _ Hpem). unfold lift.
  exists seed, st'. by repeat split.
Qed.

End OaepProvider.

Lemma TestEngine_digest_length (d : list Z) :
  JS.len (createHash TestEngine.engine (replace_dash "SHA-1") d) = JS.shr 160 3.
Proof.
  unfold JS.len. cbn [createHash TestEngine.engine]. unfold TestEngine.hash.
  rewrite length_map, length_seq. reflexivity.
Qed.

Lemma TestEngine_digest_bytes (name : string) (d : list Z) :
  Forall byte (createHash TestEngine.engine name d).
Proof.
  cbn [createHash TestEngine.engine]. unfold TestEngine.hash.
  apply Forall_map, Forall_forall. intros i _. unfold byte.
  apply Z.mod_pos_bound. lia.
Qed.

(** X14: [mgf1] is the mask generation function MGF1 of RFC 8017 (B.2.1)
    over the engine's hash: the digests of the seed followed by the
    four-byte big-endian counter 0, 1, ..., concatenated and cut to the
    requested length, for every length below 2^31 when the digest is as
    long as [ShaCrypto.size] says.  The mask has exactly the requested
    length. *)
Theorem mgf1_rfc8017 (E : Engine) (hashName : string) (size : Z) (seed : list Z)
    (length : Z) :
  ShaCrypto_size hashName = Ok size ->
  (forall d, JS.len (createHash E (replace_dash hashName) d) = JS.shr size 3) ->
  0 <= length < 2 ^ 31 ->
  mgf1 E hashName seed length
  = Ok (RFC8017.MGF1 (createHash E (replace_dash hashName)) (Z.to_nat (JS.shr size 3))
                     seed (Z.to_nat length)) /\
  JS.len (RFC8017.MGF1 (createHash E (replace_dash hashName)) (Z.to_nat (JS.shr size 3))
                       seed (Z.to_nat length)) = length.
Proof.
  intros Hsize Hdigest Hrange. split.
  - by apply mgf1_eq.
  - unfold JS.len. rewrite (length_MGF1 E hashName size Hsize Hdigest). lia.
Qed.

Lemma mgf1_rfc8017_witness :
  mgf1 TestEngine.engine "SHA-1" [1; 2] 45
  = Ok (RFC8017.MGF1 (createHash TestEngine.engine "SHA1") 20 [1; 2] 45) /\
  JS.len (RFC8017.MGF1 (createHash TestEngine.engine "SHA1") 20 [1; 2] 45) = 45.
Proof.
  apply (mgf1_rfc8017 TestEngine.engine "SHA-1" 160 [1; 2] 45);
    [reflexivity | apply TestEngine_digest_length | lia].
Defined.

(** X15: RSA-OAEP encryption follows RFC 8017 section 7.1.1.  A message
    longer than [k - 2 hLen - 2] bytes is refused with Error "Data too
    large" and the store untouched; otherwise the block handed to the
    public-key operation is the EME-OAEP encoding
    [0x00 ‖ maskedSeed ‖ maskedDB] of the message and label under [hLen]
    fresh random seed bytes, with the key's PEM text, and one draw is
    taken from the random generator. *)
Theorem RsaOaepProvider_onEncrypt_rfc8017 (E : Engine) (algorithm : RsaOaepParams)
    (key : Handle) (data : list Z) (st : Store) (r : ref) (v : InternalCryptoKey)
    (a : Algorithm) (n : Z) (hashName : string) (size : Z) :
  keyStorage st !! handle_id key = Some r -> heap st !! r = Some v ->
  key_algorithm v = Some a -> alg_modulusLength a = Some n ->
  alg_hash a = Some hashName -> ShaCrypto_size hashName = Ok size ->
  0 <= n < 2 ^ 31 ->
  (forall d, JS.len (createHash E (replace_dash hashName) d) = JS.shr size 3) ->
  (forall d, Forall byte (createHash E (replace_dash hashName) d)) ->
  Forall byte data ->
  (JS.shr n 3 - 2 * JS.shr size 3 - 2 < JS.len data ->
   RsaOaepProvider_onEncrypt E algorithm key data st
   = (Throw (Error "Data too large"), st)) /\
  (JS.len data <= JS.shr n 3 - 2 * JS.shr size 3 - 2 ->
   exists st',
     RsaOaepProvider_onEncrypt E algorithm key data st
     = (publicEncrypt_no_padding E (pem_of E "PUBLIC" v)
          (RFC8017.EME_OAEP_encode (createHash E (replace_dash hashName))
             (Z.to_nat (JS.shr size 3)) (Z.to_nat (JS.shr n 3))
             (default [] (oaep_label algorithm)) data
             (map (fun i => JS.toUint8 (random_byte E (entropy st) i))
                  (seq 0 (Z.to_nat (JS.shr size 3))))),
        st') /\
     entropy st' = Datatypes.S (entropy st)).
Proof.
  intros Hk Hv Ha Hn Hh Hsize Hrange Hlen Hbytes Hdata. split.
  - intros Hlarge. by eapply onEncrypt_too_large.
  - intros Hfits.
    destruct (onEncrypt_encoded E algorithm hashName size n Hsize Hlen Hbytes Hrange
                key data st r v a Hk Hv Ha Hn Hh Hdata Hfits)
      as (seed & st' & -> & Henc & _ & Hent & _).
    exists st'. by split.
Qed.

Lemma RsaOaepProvider_onEncrypt_rfc8017_witness :
  RsaOaepProvider_onEncrypt TestEngine.engine (mkRsaOaepParams (Some [1; 2]))
    rsa_public_handle (replicate 23 7) rsa_pair_store
  = (Throw (Error "Data too large"), rsa_pair_store).
Proof.
  apply (RsaOaepProvider_onEncrypt_rfc8017 TestEngine.engine (mkRsaOaepParams (Some [1; 2]))
           rsa_public_handle (replicate 23 7) rsa_pair_store 3%positive rsa_public_material
           (mkAlgorithm "RSA-OAEP" None (Some "SHA-1") None (Some [1; 0; 1]) (Some 512))
           512 "SHA-1" 160 eq_refl eq_refl eq_refl eq_refl eq_refl eq_refl
           ltac:(lia) TestEngine_digest_length (TestEngine_digest_bytes _)
           ltac:(apply Forall_replicate; unfold byte; lia)).
  reflexivity.
Defined.

(** X16: decryption undoes encryption.  For a public and a private handle
    registered for different material with the same modulus length and
    hash, whose PEM texts the engine's unpadded RSA operations treat as a
    pair, every ciphertext [onEncrypt] returns for a message and label is
    decrypted by [onDecrypt] under the same label to that message. *)
Theorem RsaOaepProvider_decrypt_encrypt (E : Engine) (algorithm : RsaOaepParams)
    (pub priv : Handle) (data c : list Z) (st st1 : Store) (rpub rpriv : ref)
    (vpub vpriv : InternalCryptoKey) (apub apriv : Algorithm) (n : Z)
    (hashName : string) (size : Z) :
  keyStorage st !! handle_id pub = Some rpub -> heap st !! rpub = Some vpub ->
  key_algorithm vpub = Some apub -> alg_modulusLength apub = Some n ->
  alg_hash apub = Some hashName ->
  keyStorage st !! handle_id priv = Some rpriv -> heap st !! rpriv = Some vpriv ->
  key_algorithm vpriv = Some apriv -> alg_modulusLength apriv = Some n ->
  alg_hash apriv = Some hashName ->
  rpub <> rpriv ->
  ShaCrypto_size hashName = Ok size ->
  0 <= n < 2 ^ 31 ->
  (forall d, JS.len (createHash E (replace_dash hashName) d) = JS.shr size 3) ->
  (forall d, Forall byte (createHash E (replace_dash hashName) d)) ->
  (forall m c', JS.len m = JS.shr n 3 ->
     publicEncrypt_no_padding E (pem_of E "PUBLIC" vpub) m = Ok c' ->
     JS.len c' = JS.shr n 3 /\
     privateDecrypt_no_padding E (pem_of E "PRIVATE" vpriv) c' = Ok m) ->
  Forall byte data ->
  RsaOaepProvider_onEncrypt E algorithm pub data st = (Ok c, st1) ->
  exists st2, RsaOaepProvider_onDecrypt E algorithm priv c st1 = (Ok data, st2).
Proof.
  intros Hkpub Hvpub Hapub Hnpub Hhpub Hkpriv Hvpriv Hapriv Hnpriv Hhpriv Hne
         Hsize Hrange Hlen Hbytes Hrsa Hdata Henc.
  pose proof (keySize_range n Hrange) as Hks.
  pose proof (hLen_pos hashName size Hsize) as Hpos.
  destruct (Z_lt_le_dec (JS.shr n 3 - 2 * JS.shr size 3 - 2) (JS.len data)) as [Hlarge|Hfits].
  { rewrite (onEncrypt_too_large E algorithm hashName size n Hsize pub data st rpub vpub apub)
      in Henc by done. discriminate. }
  destruct (onEncrypt_encoded E algorithm hashName size n Hsize Hlen Hbytes Hrange
              pub data st rpub vpub apub Hkpub Hvpub Hapub Hnpub Hhpub Hdata Hfits)
    as (seed & st' & Hseed & Henc' & Hks' & _ & _ & Hheap).
  rewrite Henc' in Henc. inversion Henc as [[Hc Hst]]. subst st'. clear Henc Henc'.
  assert (Hslen : length seed = Z.to_nat (JS.shr size 3))
    by (by rewrite Hseed, length_map, length_seq).
  assert (Hsbytes : Forall byte seed).
  { rewrite Hseed. apply Forall_map, Forall_forall. intros i _. unfold JS.toUint8, byte.
    apply Z.mod_pos_bound. lia. }
  assert (Hfits' : (length data + 2 * Z.to_nat (JS.shr size 3) + 2
                    <= Z.to_nat (JS.shr n 3))%nat)
    by (unfold JS.len in Hfits; lia).
  assert (Hk31 : Z.of_nat (Z.to_nat (JS.shr n 3)) < 2 ^ 31) by lia.
  set (EM := RFC8017.EME_OAEP_encode _ _ _ _ _ _) in Hc.
  assert (HlenEM : JS.len EM = JS.shr n 3).
  { unfold JS.len, EM.
    rewrite (length_EME_OAEP_encode E hashName size Hsize Hlen) by done. lia. }
  destruct (Hrsa EM c HlenEM Hc) as [Hclen Hdec].
  assert (Hvpriv1 : heap st1 !! rpriv = Some vpriv).
  { rewrite Hheap by done. exact Hvpriv. }
  unfold RsaOaepProvider_onDecrypt.
  rewrite (bind_ok _ _ _ _ _
             (getCryptoKey_registered priv st1 rpriv vpriv ltac:(by rewrite Hks') Hvpriv1
                                      ltac:(by rewrite Hapriv))).
  assert (Hderef : deref rpriv st1 = (Ok vpriv, st1)) by (unfold deref; by rewrite Hvpriv1).
  rewrite (bind_ok _ _ _ _ _ Hderef). rewrite Hapriv.
  unfold bind at 1, lift at 1. rewrite Hnpriv, Hhpriv. change (default 0 (Some n)) with n.
  unfold bind at 1, lift at 1. rewrite Hsize.
  unfold bind at 1, lift at 1. rewrite Hclen, Z.eqb_refl. cbn [negb].
  destruct (cache_pem_pem E "PRIVATE" rpriv st1 vpriv Hvpriv1) as (st2 & Hpem & _).
  rewrite (bind_ok _ _ _ _ _ Hpem). rewrite Hdec.
  unfold bind at 1, lift at 1. unfold lift. exists st2. f_equal.
  apply (oaep_unpad_encode E hashName size Hsize Hlen Hbytes); done.
Qed.

Lemma RsaOaepProvider_decrypt_encrypt_witness :
  exists c st1 st2,
    RsaOaepProvider_onEncrypt TestEngine.engine (mkRsaOaepParams (Some [1; 2]))
      rsa_public_handle [10; 20; 30; 40] rsa_pair_store = (Ok c, st1) /\
    RsaOaepProvider_onDecrypt TestEngine.engine (mkRsaOaepParams (Some [1; 2]))
      rsa_private_handle c st1 = (Ok [10; 20; 30; 40], st2).
Proof.
  destruct (RsaOaepProvider_onEncrypt TestEngine.engine (mkRsaOaepParams (Some [1; 2]))
              rsa_public_handle [10; 20; 30; 40] rsa_pair_store) as [[c|e] st1] eqn:Henc;
    [|vm_compute in Henc; discriminate].
  assert (Hrsa : forall m c' : list Z, JS.len m = JS.shr 512 3 ->
            publicEncrypt_no_padding TestEngine.engine
              (pem_of TestEngine.engine "PUBLIC" rsa_public_material) m = Ok c' ->
            JS.len c' = JS.shr 512 3 /\
            privateDecrypt_no_padding TestEngine.engine
              (pem_of TestEngine.engine "PRIVATE" rsa_private_material) c' = Ok m).
  { intros m c' Hm Hc. cbn in Hc. inversion Hc; subst. split; [exact Hm | reflexivity]. }
  destruct (RsaOaepProvider_decrypt_encrypt TestEngine.engine (mkRsaOaepParams (Some [1; 2]))
              rsa_public_handle rsa_private_handle [10; 20; 30; 40] c rsa_pair_store st1
              3%positive 1%positive rsa_public_material rsa_private_material
              (mkAlgorithm "RSA-OAEP" None (Some "SHA-1") None (Some [1; 0; 1]) (Some 512))
              (mkAlgorithm "RSA-OAEP" None (Some "SHA-1") None (Some [1; 0; 1]) (Some 512))
              512 "SHA-1" 160 eq_refl eq_refl eq_refl eq_refl eq_refl
              eq_refl eq_refl eq_refl eq_refl eq_refl ltac:(discriminate) eq_refl
              ltac:(lia) TestEngine_digest_length (TestEngine_digest_bytes _) Hrsa
              ltac:(repeat constructor; unfold byte; lia) Henc) as [st2 Hdec].
  exists c, st1, st2. split; [reflexivity | exact Hdec].
Defined.

(** ** The ECDSA signature codec *)

Lemma removePadding_zeros (n : nat) (l : list Z) :
  EcCrypto_removePadding (replicate n 0 ++ l) = EcCrypto_removePadding l.
Proof. induction n as [|n IH]; [done|]. cbn. exact IH. Qed.


Lemma addPadding_ok (pointSize : Z) (bytes : list Z) :
  JS.len bytes <= pointSize ->
  EcCrypto_addPadding pointSize bytes
  = Ok (replicate (Z.to_nat (pointSize - JS.len bytes)) 0 ++ bytes).
Proof.
  intros Hlen. unfold EcCrypto_addPadding.
  replace (pointSize - JS.len bytes <? 0) with false by (symmetry; apply Z.ltb_ge; lia).
  cbv zeta. f_equal. unfold JS.set_at, JS.alloc.
  rewrite take_replicate, drop_replicate.
  unfold JS.len in *.
  replace (Z.to_nat pointSize
           - (Z.to_nat (pointSize - Z.of_nat (length bytes)) + length bytes))%nat
    with 0%nat by lia.
  cbn [replicate]. rewrite app_nil_r. f_equal. f_equal. lia.
Qed.






Lemma cache_pem_keeps (E : Engine) (kind : string) (r : ref) (st st' : Store)
    (v : InternalCryptoKey) (pem : string) :
  heap st !! r = Some v ->
  cache_pem E kind r st = (Ok pem, st') ->
  exists v', heap st' !! r = Some v' /\ key_algorithm v' = key_algorithm v /\
             key_data v' = key_data v /\ key_class v' = key_class v.
Proof.
  intros Hv. unfold cache_pem. rewrite Hv. destruct (negb _); intros H; inversion H; subst.
  - by exists v.
  - eexists. cbn [heap]. rewrite lookup_insert_eq. split; [reflexivity|]. done.
Qed.

Lemma EcCrypto_verify_run (E : Engine) (algorithm : EcdsaParams) (key : ref)
    (signature data : list Z) (st : Store) (v : InternalCryptoKey) (a : Algorithm)
    (h : string) :
  heap st !! key = Some v -> key_algorithm v = Some a ->
  ecdsa_hash algorithm = Some h -> createVerify E (replace_dash h) = Ok tt ->
  exists st',
    EcCrypto_verify E algorithm key signature data st
    = (pointSize <~ EcCrypto_getPointSize (alg_namedCurve a) ;;
       verifier_verify E (replace_dash h) data (pem_of E "PUBLIC" v)
         (serialize_EcDsaSignature E
            (EcCrypto_removePadding (JS.slice signature 0 pointSize))
            (EcCrypto_removePadding (JS.slice signature pointSize (pointSize + pointSize)))),
       st').
Proof.
  intros Hv Ha Hh Hcv. unfold EcCrypto_verify. rewrite Hh.
  unfold bind at 1, lift at 1. rewrite Hcv. unfold bind at 1, lift at 1.
  destruct (cache_pem_pem E "PUBLIC" key st v Hv) as (st' & Hpem & _).
  destruct (cache_pem_keeps E "PUBLIC" key st st' v _ Hv Hpem) as (v' & Hv' & Ha' & _).
  rewrite (bind_ok _ _ _ _ _ Hpem).
  assert (Hderef : deref key st' = (Ok v', st')) by (unfold deref; by rewrite Hv').
  rewrite (bind_ok _ _ _ _ _ Hderef). rewrite Ha', Ha.
  unfold bind at 1, lift at 1. exists st'.
  destruct (EcCrypto_getPointSize (alg_namedCurve a)) as [ps|e]; reflexivity.
Qed.

Lemma slice_app_first (a b : list Z) (ps : Z) :
  JS.len a = ps -> JS.slice (a ++ b) 0 ps = a.
Proof.
  intros Ha. unfold JS.slice, JS.len in *. change (Z.to_nat 0) with 0%nat.
  rewrite drop_0, Nat.sub_0_r. apply take_app_length'. lia.
Qed.

Lemma slice_app_second (a b : list Z) (ps : Z) :
  JS.len a = ps -> JS.len b = ps -> JS.slice (a ++ b) ps (ps + ps) = b.
Proof.
  intros Ha Hb. unfold JS.slice, JS.len in *.
  rewrite drop_app_length' by lia. apply take_ge. lia.
Qed.

(** X18: signing and verifying compose.  When the engine signs and the
    DER signature parses to [r] and [s] no longer than the point size,
    [sign] returns the [2 * pointSize] bytes [pad r ‖ pad s], and [verify]
    under a public key of the same curve hands the engine's verifier the
    serialized pair of [r] and [s] with their leading zeros stripped. *)
Theorem EcCrypto_sign_then_verify (E : Engine) (G : Signer) (algorithm : EcdsaParams)
    (priv pub : ref) (data : list Z) (st : Store) (vpriv vpub : InternalCryptoKey)
    (apriv apub : Algorithm) (pointSize : Z) (h : string) (der r s : list Z) :
  heap st !! priv = Some vpriv -> key_algorithm vpriv = Some apriv ->
  heap st !! pub = Some vpub -> key_algorithm vpub = Some apub ->
  priv <> pub ->
  alg_namedCurve apub = alg_namedCurve apriv ->
  EcCrypto_getPointSize (alg_namedCurve apriv) = Ok pointSize ->
  ecdsa_hash algorithm = Some h ->
  createSign G (replace_dash h) = Ok tt ->
  createVerify E (replace_dash h) = Ok tt ->
  signer_sign G (replace_dash h) data (pem_of E "PRIVATE" vpriv) = Ok der ->
  AsnParser_parse_EcDsaSignature G der = Ok (r, s) ->
  JS.len r <= pointSize -> JS.len s <= pointSize ->
  exists sig st1 st2,
    EcCrypto_sign E G algorithm priv data st = (Ok sig, st1) /\
    JS.len sig = 2 * pointSize /\
    EcCrypto_verify E algorithm pub sig data st1
    = (verifier_verify E (replace_dash h) data (pem_of E "PUBLIC" vpub)
         (serialize_EcDsaSignature E (EcCrypto_removePadding r) (EcCrypto_removePadding s)),
       st2).
Proof.
  intros Hvpriv Hapriv Hvpub Hapub Hne Hcurve Hps Hh Hcs Hcv Hsign Hparse Hr Hs.
  destruct (cache_pem_pem E "PRIVATE" priv st vpriv Hvpriv)
    as (st1 & Hpem & _ & _ & _ & Hheap).
  destruct (cache_pem_keeps E "PRIVATE" priv st st1 vpriv _ Hvpriv Hpem)
    as (v' & Hv' & Ha' & _).
  set (pr := replicate (Z.to_nat (pointSize - JS.len r)) 0 ++ r).
  set (psd := replicate (Z.to_nat (pointSize - JS.len s)) 0 ++ s).
  assert (Hlr : JS.len pr = pointSize).
  { unfold pr, JS.len in *. rewrite length_app, length_replicate. lia. }
  assert (Hls : JS.len psd = pointSize).
  { unfold psd, JS.len in *. rewrite length_app, length_replicate. lia. }
  exists (pr ++ psd), st1.
  assert (Hsig : EcCrypto_sign E G algorithm priv data st = (Ok (pr ++ psd), st1)).
  { unfold EcCrypto_sign. rewrite Hh.
    unfold bind at 1, lift at 1. rewrite Hcs. unfold bind at 1, lift at 1.
    rewrite (bind_ok _ _ _ _ _ Hpem). rewrite Hsign. unfold bind at 1, lift at 1.
    rewrite Hparse. unfold bind at 1, lift at 1.
    assert (Hderef : deref priv st1 = (Ok v', st1)) by (unfold deref; by rewrite Hv').
    rewrite (bind_ok _ _ _ _ _ Hderef). rewrite Ha', Hapriv.
    unfold bind at 1, lift at 1. rewrite Hps. unfold bind at 1, lift at 1.
    cbn [fst snd]. rewrite !addPadding_ok by done.
    unfold bind at 1, lift at 1. unfold bind at 1, lift at 1. reflexivity. }
  assert (Hvpub1 : heap st1 !! pub = Some vpub) by (rewrite Hheap by done; exact Hvpub).
  destruct (EcCrypto_verify_run E algorithm pub (pr ++ psd) data st1 vpub apub h
              Hvpub1 Hapub Hh Hcv) as (st2 & Hver).
  exists st2. split; [exact Hsig|]. split.
  - unfold JS.len in *. rewrite length_app. lia.
  - rewrite Hver, Hcurve, Hps. cbn [rbind].
    rewrite slice_app_first, slice_app_second by done.
    unfold pr, psd. by rewrite !removePadding_zeros.
Qed.

Lemma EcCrypto_sign_then_verify_witness :
  exists sig st1 st2,
    EcCrypto_sign TestEngine.engine test_signer (mkEcdsaParams (Some "SHA-256"))
      3%positive [5; 6] ec_pair_store = (Ok sig, st1) /\
    JS.len sig = 64 /\
    EcCrypto_verify TestEngine.engine (mkEcdsaParams (Some "SHA-256")) 1%positive sig
      [5; 6] st1 = (Ok true, st2).
Proof.
  destruct (EcCrypto_sign_then_verify TestEngine.engine test_signer
              (mkEcdsaParams (Some "SHA-256")) 3%positive 1%positive [5; 6] ec_pair_store
              ec_private_material ec_public_material
              (mkAlgorithm "ECDSA" None None (Some "P-256") None None)
              (mkAlgorithm "ECDSA" None None (Some "P-256") None None)
              32 "SHA-256" [1; 256; 2] [1] [2]
              eq_refl eq_refl eq_refl eq_refl ltac:(discriminate) eq_refl eq_refl eq_refl
              eq_refl eq_refl eq_refl eq_refl ltac:(done) ltac:(done))
    as (sig & st1 & st2 & H1 & H2 & H3).
  exists sig, st1, st2. repeat split; [exact H1 | exact H2 | exact H3].
Defined.

Lemma bind_never_ok {A B} (m : M A) (k : A -> M B) (st : Store) :
  (forall a st', m st = (Ok a, st') -> exists e st2, k a st' = (Throw e, st2)) ->
  exists e st2, bind m k st = (Throw e, st2).
Proof.
  intros H. unfold bind. destruct (m st) as [[a|e] st'] eqn:Hm; [by apply H | eauto].
Qed.

Lemma lift_throw {A} (e : Exception) (st : Store) :
  lift (A := A) (Throw e) st = (Throw e, st).
Proof. reflexivity. Qed.

Lemma getPointSize_unknown (c : string) :
  ~ In c ["P-256"; "K-256"; "P-384"; "P-521"] ->
  EcCrypto_getPointSize (Some c)
  = Throw (Error ("Cannot get size for the named curve '" ++ c ++ "'")%string).
Proof.
  intros Hc. unfold EcCrypto_getPointSize. change (default "undefined" (Some c)) with c.
  cbv zeta.
  rewrite !(proj2 (String.eqb_neq _ _)); [reflexivity | | | |];
    intros ->; apply Hc; cbn; auto.
Qed.

(** What a successful [onGenerateKey] of the EC providers leaves in the
    store: both handles registered, for different material objects that
    carry the request's algorithm under the provider's name. *)
Lemma EcProvider_onGenerateKey_registered (E : Engine) (this_name : string)
    (algorithm : Algorithm) (extractable : bool) (keyUsages : list string)
    (st st1 : Store) (kp : CryptoKeyPair) :
  EcProvider_onGenerateKey E this_name algorithm extractable keyUsages st = (Ok kp, st1) ->
  exists rpriv rpub vpriv vpub,
    rpriv <> rpub /\
    keyStorage st1 !! handle_id (privateKey kp) = Some rpriv /\
    heap st1 !! rpriv = Some vpriv /\
    key_algorithm vpriv = Some (set_alg_name algorithm this_name) /\
    keyStorage st1 !! handle_id (publicKey kp) = Some rpub /\
    heap st1 !! rpub = Some vpub /\
    key_algorithm vpub = Some (set_alg_name algorithm this_name).
Proof.
  unfold EcProvider_onGenerateKey. intros H.
  apply bind_inv_ok in H as (keys & st0 & Hgen & H).
  assert (Halg : key_algorithm (pair_privateKey keys) = Some (set_alg_name algorithm this_name)
                 /\ key_algorithm (pair_publicKey keys)
                    = Some (set_alg_name algorithm this_name)).
  { unfold EcCrypto_generateKey in Hgen.
    apply bind_inv_ok in Hgen as (curve & sta & _ & Hgen).
    apply bind_inv_ok in Hgen as (ks & stb & _ & Hgen).
    inversion Hgen; subst. by split. }
  destruct Halg as [Hpriv Hpub].
  unfold bind, new_key in H. cbn [heap keyStorage next_id entropy] in H.
  erewrite setCryptoKey_ok in H; cycle 1.
  { cbn [heap]. rewrite lookup_insert_ne by lia. apply lookup_insert_eq. }
  erewrite setCryptoKey_ok in H by (cbn [heap]; apply lookup_insert_eq).
  unfold ret in H. inversion H; subst; clear H.
  cbn [privateKey publicKey handle_id heap keyStorage next_id].
  exists (next_id st0), (Pos.succ (next_id st0)), (pair_privateKey keys), (pair_publicKey keys).
  repeat split.
  - lia.
  - rewrite lookup_insert_ne by lia. apply lookup_insert_eq.
  - rewrite lookup_insert_ne by lia. apply lookup_insert_eq.
  - exact Hpriv.
  - apply lookup_insert_eq.
  - apply lookup_insert_eq.
  - exact Hpub.
Qed.

(** X19: the curve name is matched case-insensitively when a key pair is
    generated and case-sensitively when it is used.  A pair generated for
    a curve spelt otherwise than P-256, K-256, P-384 or P-521 (p-256, say)
    is registered with that spelling: signing with its private key never
    returns a signature, and verifying with its public key throws Error
    "Cannot get size for the named curve" once the verifier is created. *)
Theorem EcProvider_curve_name_case (E : Engine) (G : Signer) (this_name : string)
    (algorithm : Algorithm) (extractable : bool) (keyUsages : list string)
    (st st1 : Store) (kp : CryptoKeyPair) (c : string) :
  alg_namedCurve algorithm = Some c ->
  ~ In c ["P-256"; "K-256"; "P-384"; "P-521"] ->
  EcProvider_onGenerateKey E this_name algorithm extractable keyUsages st = (Ok kp, st1) ->
  (forall params data,
     exists e st2,
       EcdsaProvider_onSign E G params (privateKey kp) data st1 = (Throw e, st2)) /\
  (forall params signature data h,
     ecdsa_hash params = Some h -> createVerify E (replace_dash h) = Ok tt ->
     exists st2,
       EcdsaProvider_onVerify E params (publicKey kp) signature data st1
       = (Throw (Error ("Cannot get size for the named curve '" ++ c ++ "'")%string), st2)).
Proof.
  intros Hc Hnot Hgen.
  destruct (EcProvider_onGenerateKey_registered _ _ _ _ _ _ _ _ Hgen)
    as (rpriv & rpub & vpriv & vpub & Hne & Hkpriv & Hvpriv & Hapriv & Hkpub & Hvpub & Hapub).
  pose proof (getPointSize_unknown c Hnot) as Hps.
  split.
  - intros params data. unfold EcdsaProvider_onSign.
    rewrite (bind_ok _ _ _ _ _
               (getCryptoKey_registered _ st1 rpriv vpriv Hkpriv Hvpriv
                                        ltac:(by rewrite Hapriv))).
    unfold EcCrypto_sign.
    apply bind_never_ok. intros cryptoAlg sta Ha. apply lift_inv_ok in Ha as [_ ->].
    apply bind_never_ok. intros [] sta Ha. apply lift_inv_ok in Ha as [_ ->].
    apply bind_never_ok. intros pem sta Hpem.
    destruct (cache_pem_keeps E "PRIVATE" rpriv st1 sta vpriv pem Hvpriv Hpem)
      as (v' & Hv' & Ha' & _).
    apply bind_never_ok. intros der stb Ha. apply lift_inv_ok in Ha as [_ ->].
    apply bind_never_ok. intros rs stb Ha. apply lift_inv_ok in Ha as [_ ->].
    assert (Hderef : deref rpriv sta = (Ok v', sta)) by (unfold deref; by rewrite Hv').
    rewrite (bind_ok _ _ _ _ _ Hderef). rewrite Ha', Hapriv.
    unfold bind at 1, lift at 1. cbn [alg_namedCurve set_alg_name]. rewrite Hc, Hps.
    rewrite (bind_throw _ _ _ _ _ (lift_throw _ _)). eauto.
  - intros params signature data h Hh Hcv. unfold EcdsaProvider_onVerify.
    rewrite (bind_ok _ _ _ _ _
               (getCryptoKey_registered _ st1 rpub vpub Hkpub Hvpub
                                        ltac:(by rewrite Hapub))).
    destruct (EcCrypto_verify_run E params rpub signature data st1 vpub _ h
                Hvpub Hapub Hh Hcv) as (st2 & ->).
    exists st2. cbn [alg_namedCurve set_alg_name]. by rewrite Hc, Hps.
Qed.

Lemma EcProvider_curve_name_case_witness :
  exists kp st1 st2,
    EcProvider_onGenerateKey TestEngine.engine "ECDSA"
      (mkAlgorithm "ECDSA" None None (Some "p-256") None None) true ["sign"; "verify"]
      empty_store = (Ok kp, st1) /\
    EcdsaProvider_onVerify TestEngine.engine (mkEcdsaParams (Some "SHA-256"))
      (publicKey kp) raw_signature [5; 6] st1
    = (Throw (Error "Cannot get size for the named curve 'p-256'"), st2).
Proof.
  destruct (EcProvider_onGenerateKey TestEngine.engine "ECDSA"
              (mkAlgorithm "ECDSA" None None (Some "p-256") None None) true
              ["sign"; "verify"] empty_store) as [[kp|e] st1] eqn:Hgen;
    [|vm_compute in Hgen; discriminate].
  destruct (EcProvider_curve_name_case TestEngine.engine test_signer "ECDSA"
              (mkAlgorithm "ECDSA" None None (Some "p-256") None None) true
              ["sign"; "verify"] empty_store st1 kp "p-256" eq_refl) as [_ Hver].
  - cbn. intros [H|[H|[H|[H|[]]]]]; discriminate.
  - exact Hgen.
  - destruct (Hver (mkEcdsaParams (Some "SHA-256")) raw_signature [5; 6] "SHA-256"
                eq_refl eq_refl) as [st2 H2].
    exists kp, st1, st2. split; [reflexivity | exact H2].
Defined.

(** ** HMAC and the RSA exponent *)

Lemma deref_inv (r : ref) (st st' : Store) (v : InternalCryptoKey) :
  deref r st = (Ok v, st') -> heap st !! r = Some v /\ st' = st.
Proof.
  unfold deref. destruct (heap st !! r) as [w|]; intros H; inversion H; by subst.
Qed.

(** X20: HMAC verification accepts exactly what signing returns.  After
    [onSign] has returned a MAC for a key and data, [onVerify] for the
    same key and data answers true for that MAC and false for every other
    byte string, whatever the algorithm parameter, and leaves the store
    as it is. *)
Theorem HmacProvider_sign_then_verify (E : Engine) (algorithm : Algorithm) (key : Handle)
    (data sig : list Z) (st st1 : Store) :
  HmacProvider_onSign E algorithm key data st = (Ok sig, st1) ->
  forall algorithm' signature,
    HmacProvider_onVerify E algorithm' key signature data st1
    = (Ok (bool_decide (sig = signature)), st1).
Proof.
  intros H algorithm' signature. unfold HmacProvider_onSign in H.
  apply bind_inv_ok in H as (hash & st0 & Hhash & H).
  apply lift_inv_ok in Hhash as [Hhash ->].
  apply bind_inv_ok in H as (r & st0 & Hget & H).
  apply bind_inv_ok in H as (v & st2 & Hderef & H).
  apply deref_inv in Hderef as [Hv ->].
  inversion H; subst; clear H.
  unfold HmacProvider_onVerify. rewrite Hhash.
  unfold bind at 1, lift at 1.
  rewrite (bind_ok _ _ _ _ _ (proj1 (getCryptoKey_again key st st1 r Hget))).
  assert (Hderef : deref r st1 = (Ok v, st1)) by (unfold deref; by rewrite Hv).
  rewrite (bind_ok _ _ _ _ _ Hderef). reflexivity.
Qed.

Lemma HmacProvider_sign_then_verify_witness :
  exists sig st1,
    HmacProvider_onSign TestEngine.engine (algorithm_named "HMAC") hmac_handle [7; 8]
      hmac_store = (Ok sig, st1) /\
    HmacProvider_onVerify TestEngine.engine (algorithm_named "HMAC") hmac_handle sig [7; 8]
      st1 = (Ok true, st1).
Proof.
  destruct (HmacProvider_onSign TestEngine.engine (algorithm_named "HMAC") hmac_handle
              [7; 8] hmac_store) as [[sig|e] st1] eqn:Hsign;
    [|vm_compute in Hsign; discriminate].
  exists sig, st1. split; [reflexivity|].
  rewrite (HmacProvider_sign_then_verify TestEngine.engine (algorithm_named "HMAC")
             hmac_handle [7; 8] sig hmac_store st1 Hsign (algorithm_named "HMAC") sig).
  by rewrite bool_decide_eq_true_2.
Defined.

Lemma be_to_Z_zeros (n : nat) (l : list Z) : be_to_Z (replicate n 0 ++ l) = be_to_Z l.
Proof.
  induction n as [|n IH]; [done|]. cbn [replicate app]. rewrite be_to_Z_cons, IH. lia.
Qed.

(** X21: the public exponent handed to the engine's RSA generator.  An
    exponent of at most four bytes is left-padded to four and read as a
    signed 32-bit big-endian integer: the engine receives the exponent's
    value when that is below 2^31 (65537 for the bytes 1, 0, 1) and the
    value less 2^32 otherwise.  An exponent of more than four bytes throws
    the RangeError of [Buffer.alloc] for the negative size
    [4 - byteLength], with the text Node gives it, before the engine's
    generator is asked and with the store untouched. *)
Theorem RsaCrypto_generateKey_exponent (E : Engine) (algorithm : Algorithm)
    (extractable : bool) (keyUsages : list string) (st : Store) (e : list Z) (n : Z) :
  alg_publicExponent algorithm = Some e ->
  alg_modulusLength algorithm = Some n ->
  Forall byte e ->
  (JS.len e <= 4 ->
   RsaCrypto_generateKey E algorithm extractable keyUsages st
   = (keys <- with_entropy (fun k =>
                generateKeyPairSync_rsa E k n
                  (if be_to_Z e <? 2 ^ 31 then be_to_Z e else be_to_Z e - 2 ^ 32)) ;;
      ret (mkInternalKeyPair
             (mkKey RsaPrivateKey (fst keys) (Some algorithm) extractable private
                    (filter_usages RsaCrypto_privateKeyUsages keyUsages) None)
             (mkKey RsaPublicKey (snd keys) (Some algorithm) true public
                    (filter_usages RsaCrypto_publicKeyUsages keyUsages) None))) st) /\
  (4 < JS.len e ->
   RsaCrypto_generateKey E algorithm extractable keyUsages st
   = (Throw (RangeError (Buffer_alloc_message E (4 - JS.len e))), st)).
Proof.
  intros He Hn Hbytes. unfold RsaCrypto_generateKey. rewrite He, Hn. cbv zeta. split.
  - intros Hlen.
    replace (4 - JS.len e <? 0) with false by (symmetry; apply Z.ltb_ge; lia).
    unfold bind at 1, lift at 1.
    assert (Hexp : readInt32BE (JS.alloc (4 - JS.len e) ++ e)
                   = if be_to_Z e <? 2 ^ 31 then be_to_Z e else be_to_Z e - 2 ^ 32).
    { unfold readInt32BE, JS.alloc.
      rewrite take_ge by (unfold JS.len in *; rewrite length_app, length_replicate; lia).
      rewrite be_to_Z_zeros.
      pose proof (be_to_Z_bound e Hbytes) as Hb.
      assert (256 ^ Z.of_nat (length e) <= 2 ^ 32).
      { change (2 ^ 32) with (256 ^ 4). apply Z.pow_le_mono_r; unfold JS.len in *; lia. }
      unfold JS.toInt32.
      destruct (Z.ltb_spec (be_to_Z e) (2 ^ 31)).
      - rewrite Z.mod_small by lia. lia.
      - replace (be_to_Z e + 2 ^ 31) with (be_to_Z e - 2 ^ 31 + 1 * 2 ^ 32) by lia.
        rewrite Z.mod_add by lia. rewrite Z.mod_small by lia. lia. }
    by rewrite Hexp.
  - intros Hlen.
    by replace (4 - JS.len e <? 0) with true by (symmetry; apply Z.ltb_lt; lia).
Qed.

Lemma RsaCrypto_generateKey_exponent_witness :
  RsaCrypto_generateKey TestEngine.engine
    (mkAlgorithm "RSA-OAEP" None (Some "SHA-1") None (Some [1; 0; 0; 0; 1]) (Some 2048))
    true ["encrypt"] empty_store
  = (Throw (RangeError (Buffer_alloc_message TestEngine.engine (-1))), empty_store).
Proof.
  apply (RsaCrypto_generateKey_exponent TestEngine.engine
           (mkAlgorithm "RSA-OAEP" None (Some "SHA-1") None (Some [1; 0; 0; 0; 1]) (Some 2048))
           true ["encrypt"] empty_store [1; 0; 0; 0; 1] 2048 eq_refl eq_refl
           ltac:(repeat constructor; unfold byte; lia)).
  reflexivity.
Defined.

(** ** AES-GCM framing and the dispatch of encrypt and decrypt *)

Lemma rel_index_nonneg (len i : Z) : 0 <= i <= len -> rel_index len i = i.
Proof.
  intros H. unfold rel_index.
  replace (i <? 0) with false by (symmetry; apply Z.ltb_ge; lia). lia.
Qed.

Lemma rel_index_neg (len i : Z) : i < 0 -> rel_index len i = Z.max (len + i) 0.
Proof.
  intros H. unfold rel_index.
  by replace (i <? 0) with true by (symmetry; apply Z.ltb_lt; lia).
Qed.

(** X22: AES-GCM decryption undoes the framing of encryption.  Encryption
    returns the engine's ciphertext followed by its tag; when the tag has
    the [(tagLength || 128) >> 3] bytes that were asked for, decryption
    splits that output into the same ciphertext and tag and returns what
    the engine's decipher makes of them, under the same key, IV and
    additional data; the store is left as it is. *)
Theorem AesProvider_gcm_decrypt_encrypt (C : Cipher) (algorithm : AesParams) (key : Handle)
    (data iv ct tag : list Z) (st : Store) (r : ref) (v : InternalCryptoKey) (a : Algorithm) :
  keyStorage st !! handle_id key = Some r -> heap st !! r = Some v ->
  key_class v = AesCryptoKey -> key_algorithm v = Some a ->
  toUpperCase (aes_name algorithm) = "AES-GCM" ->
  aes_iv algorithm = Some iv ->
  gcm_seal C (alg_length a) (key_data v) iv (aes_additionalData algorithm)
    (gcm_tag_bytes algorithm) data = Ok (ct, tag) ->
  JS.len tag = gcm_tag_bytes algorithm ->
  gcm_open C (alg_length a) (key_data v) iv (aes_additionalData algorithm) tag ct = Ok data ->
  AesProvider_onEncrypt C algorithm key data st = (Ok (ct ++ tag), st) /\
  AesProvider_onDecrypt C algorithm key (ct ++ tag) st = (Ok data, st).
Proof.
  intros Hk Hv Hclass Ha Hname Hiv Hseal Htag Hopen.
  pose proof (getCryptoKey_registered key st r v Hk Hv ltac:(by rewrite Ha)) as Hget.
  assert (Hderef : deref r st = (Ok v, st)) by (unfold deref; by rewrite Hv).
  split.
  - unfold AesProvider_onEncrypt.
    rewrite (bind_ok _ _ _ _ _ Hget), (bind_ok _ _ _ _ _ Hderef).
    unfold AesCrypto_encrypt. rewrite Hname. cbv zeta.
    change (("AES-GCM" =? "AES-CBC")%string) with false.
    change (("AES-GCM" =? "AES-CTR")%string) with false.
    change (("AES-GCM" =? "AES-GCM")%string) with true. cbv iota.
    unfold AesCrypto_encryptAesGCM, key_length. rewrite Ha, Hiv. cbn [rbind Buffer_from_opt].
    rewrite Hseal. reflexivity.
  - unfold AesProvider_onDecrypt.
    rewrite (bind_ok _ _ _ _ _ Hget), (bind_ok _ _ _ _ _ Hderef).
    unfold AesCrypto_decrypt. rewrite Hclass, Hname. cbv zeta.
    change (("AES-GCM" =? "AES-CBC")%string) with false.
    change (("AES-GCM" =? "AES-CTR")%string) with false.
    change (("AES-GCM" =? "AES-GCM")%string) with true. cbv iota.
    unfold AesCrypto_decryptAesGCM, key_length. rewrite Ha, Hiv. cbn [rbind].
    change (default [] (Some iv)) with iv. cbv zeta.
    rewrite <- Htag.
    assert (Hlen : JS.len (ct ++ tag) - JS.len tag = JS.len ct)
      by (unfold JS.len; rewrite length_app; lia).
    rewrite Hlen.
    assert (Hin : 0 <= JS.len ct <= JS.len (ct ++ tag))
      by (unfold JS.len; rewrite length_app; lia).
    unfold Buffer_slice, Buffer_slice_from.
    rewrite (rel_index_nonneg _ (JS.len ct)) by done.
    rewrite (rel_index_nonneg _ 0) by (unfold JS.len; lia).
    change (Z.to_nat 0) with 0%nat. rewrite drop_0, Z.sub_0_r.
    unfold JS.len at 1 2. rewrite Nat2Z.id.
    rewrite take_app_length, drop_app_length. by rewrite Hopen.
Qed.

Lemma AesProvider_gcm_decrypt_encrypt_witness :
  AesProvider_onEncrypt test_cipher gcm_request aes_handle [10; 20; 30] aes_store
    = (Ok ([53; 63; 73] ++ replicate 12 3), aes_store) /\
  AesProvider_onDecrypt test_cipher gcm_request aes_handle ([53; 63; 73] ++ replicate 12 3)
    aes_store = (Ok [10; 20; 30], aes_store).
Proof.
  apply (AesProvider_gcm_decrypt_encrypt test_cipher gcm_request aes_handle [10; 20; 30]
           [9; 9; 9; 9; 9; 9; 9; 9; 9; 9; 9; 9] [53; 63; 73] (replicate 12 3) aes_store
           1%positive aes_material
           (mkAlgorithm "AES-CMAC" (Some 128) None None None None));
    reflexivity.
Defined.

(** X23: AES-GCM decryption of an input shorter than the tag.  The split
    point [data.length - tagLength] is negative and [slice] counts it from
    the end: with [n] input bytes and a [t]-byte tag, the first [2n - t]
    bytes (none when [2n <= t]) go to the decipher as ciphertext and the
    rest as the tag; the provider itself raises no error. *)
Theorem AesCrypto_decryptAesGCM_short_input (C : Cipher) (algorithm : AesParams)
    (key : InternalCryptoKey) (data : list Z) (a : Algorithm) :
  key_algorithm key = Some a ->
  JS.len data < gcm_tag_bytes algorithm ->
  AesCrypto_decryptAesGCM C algorithm key data
  = gcm_open C (alg_length a) (key_data key) (default [] (aes_iv algorithm))
      (aes_additionalData algorithm)
      (drop (Z.to_nat (2 * JS.len data - gcm_tag_bytes algorithm)) data)
      (take (Z.to_nat (2 * JS.len data - gcm_tag_bytes algorithm)) data).
Proof.
  intros Ha Hshort. unfold AesCrypto_decryptAesGCM, key_length. rewrite Ha.
  cbn [rbind]. cbv zeta.
  unfold Buffer_slice, Buffer_slice_from.
  rewrite (rel_index_neg _ (JS.len data - gcm_tag_bytes algorithm)) by lia.
  rewrite (rel_index_nonneg _ 0) by (unfold JS.len; lia).
  change (Z.to_nat 0) with 0%nat. rewrite drop_0, Z.sub_0_r.
  replace (Z.to_nat (Z.max (JS.len data + (JS.len data - gcm_tag_bytes algorithm)) 0))
    with (Z.to_nat (2 * JS.len data - gcm_tag_bytes algorithm)) by lia.
  reflexivity.
Qed.

Lemma AesCrypto_decryptAesGCM_short_input_witness :
  AesCrypto_decryptAesGCM test_cipher gcm_request aes_material [1; 2; 3; 4; 5; 6; 7; 8]
  = gcm_open test_cipher (Some 128) key16 [9; 9; 9; 9; 9; 9; 9; 9; 9; 9; 9; 9] (Some [4])
      [5; 6; 7; 8] [1; 2; 3; 4].
Proof.
  apply (AesCrypto_decryptAesGCM_short_input test_cipher gcm_request aes_material
           [1; 2; 3; 4; 5; 6; 7; 8]
           (mkAlgorithm "AES-CMAC" (Some 128) None None None None) eq_refl).
  reflexivity.
Defined.

(** X24: only decryption checks the class of the key material.  For
    material that is not an AesCryptoKey [decrypt] throws Error "key: Is
    not AesCryptoKey", before it looks at the algorithm name, while
    [encrypt] does what it does for AES material with the same fields;
    and for AES material an algorithm name that is none of the five
    modes, in any letter case, makes both throw OperationError. *)
Theorem AesCrypto_dispatch_checks (C : Cipher) (algorithm : AesParams)
    (key : InternalCryptoKey) (data : list Z) :
  (key_class key <> AesCryptoKey ->
   AesCrypto_decrypt C algorithm key data = Throw (Error "key: Is not AesCryptoKey") /\
   AesCrypto_encrypt C algorithm key data
   = AesCrypto_encrypt C algorithm
       (mkKey AesCryptoKey (key_data key) (key_algorithm key) (key_extractable key)
              (key_type key) (key_usages key) (key_pem key)) data) /\
  (key_class key = AesCryptoKey ->
   ~ In (toUpperCase (aes_name algorithm))
        ["AES-CBC"; "AES-CTR"; "AES-GCM"; "AES-KW"; "AES-ECB"] ->
   AesCrypto_decrypt C algorithm key data
     = Throw (OperationError "algorithm: Is not recognized") /\
   AesCrypto_encrypt C algorithm key data
     = Throw (OperationError "algorithm: Is not recognized")).
Proof.
  split.
  - intros Hclass. split.
    + unfold AesCrypto_decrypt. by destruct (key_class key).
    + reflexivity.
  - intros Hclass Hname.
    assert (H : forall s, In s ["AES-CBC"; "AES-CTR"; "AES-GCM"; "AES-KW"; "AES-ECB"] ->
                          (toUpperCase (aes_name algorithm) =? s)%string = false).
    { intros s Hs. apply String.eqb_neq. intros Heq. apply Hname. by rewrite Heq. }
    unfold AesCrypto_decrypt, AesCrypto_encrypt. rewrite Hclass. cbv zeta.
    rewrite !H by (cbn; auto 10). done.
Qed.

Lemma AesCrypto_dispatch_checks_witness :
  AesCrypto_decrypt test_cipher gcm_request hmac_material [1; 2; 3]
  = Throw (Error "key: Is not AesCryptoKey").
Proof.
  apply (AesCrypto_dispatch_checks test_cipher gcm_request hmac_material [1; 2; 3]).
  discriminate.
Defined.

(** ** The PEM cache *)

Lemma cache_pem_cached (E : Engine) (kind : string) (r : ref) (st st' : Store)
    (v : InternalCryptoKey) (pem : string) :
  heap st !! r = Some v ->
  cache_pem E kind r st = (Ok pem, st') ->
  pem = pem_of E kind v /\
  exists v', heap st' !! r = Some v' /\ key_algorithm v' = key_algorithm v /\
             key_data v' = key_data v /\
             forall kind', pem_of E kind' v' = pem.
Proof.
  intros Hv. unfold cache_pem, pem_of. rewrite Hv.
  destruct (negb (default "" (key_pem v) =? "")%string) eqn:Hc;
    intros H; inversion H; subst; clear H; (split; [reflexivity|]).
  - exists v. repeat split; try done. intros kind'. by rewrite Hc.
  - eexists. cbn [heap]. rewrite lookup_insert_eq. split; [reflexivity|].
    repeat split.
Qed.

(** X25: the cached PEM text belongs to the key material, not to the
    operation.  Once [verify] has run on material without a cached PEM, the
    text it stored, with the PUBLIC KEY armour, is what a later [sign] on
    the same material hands to the signer: [sign] writes its PRIVATE KEY
    armour only when nothing is cached. *)
Theorem EcCrypto_pem_cache_shared (E : Engine) (G : Signer) (algorithm : EcdsaParams)
    (key : ref) (signature data data' : list Z) (st st1 : Store) (res : Result bool)
    (v : InternalCryptoKey) (a : Algorithm) (h : string) :
  heap st !! key = Some v -> key_algorithm v = Some a -> key_pem v = None ->
  ecdsa_hash algorithm = Some h ->
  createVerify E (replace_dash h) = Ok tt ->
  createSign G (replace_dash h) = Ok tt ->
  EcCrypto_verify E algorithm key signature data st = (res, st1) ->
  EcCrypto_sign E G algorithm key data' st1
  = (der <~ signer_sign G (replace_dash h) data'
              ("-----BEGIN PUBLIC KEY-----" ++ newline ++ toBase64 E (key_data v)
               ++ newline ++ "-----END PUBLIC KEY-----")%string ;;
     ecSignature <~ AsnParser_parse_EcDsaSignature G der ;;
     pointSize <~ EcCrypto_getPointSize (alg_namedCurve a) ;;
     r <~ EcCrypto_addPadding pointSize (fst ecSignature) ;;
     s <~ EcCrypto_addPadding pointSize (snd ecSignature) ;;
     Ok (r ++ s),
     st1).
Proof.
  intros Hv Ha Hpem Hh Hcv Hcs Hver.
  destruct (cache_pem_pem E "PUBLIC" key st v Hv) as (st' & Hc & _).
  destruct (cache_pem_cached E "PUBLIC" key st st' v _ Hv Hc)
    as (_ & v' & Hv' & Ha' & _ & Hkinds).
  assert (Hst : st1 = st').
  { unfold EcCrypto_verify in Hver. rewrite Hh in Hver.
    unfold bind at 1, lift at 1 in Hver. rewrite Hcv in Hver.
    unfold bind at 1, lift at 1 in Hver.
    rewrite (bind_ok _ _ _ _ _ Hc) in Hver.
    assert (Hderef : deref key st' = (Ok v', st')) by (unfold deref; by rewrite Hv').
    rewrite (bind_ok _ _ _ _ _ Hderef) in Hver. rewrite Ha', Ha in Hver.
    unfold bind at 1, lift at 1 in Hver.
    destruct (EcCrypto_getPointSize (alg_namedCurve a)) as [ps|e];
      unfold bind, lift in Hver; by inversion Hver. }
  subst st'.
  destruct (cache_pem_pem E "PRIVATE" key st1 v' Hv') as (st2 & Hc2 & _).
  assert (Hcached : negb (default "" (key_pem v') =? "")%string = true).
  { unfold cache_pem in Hc. rewrite Hv, Hpem in Hc. cbn in Hc.
    inversion Hc as [[Hp Hs]]. rewrite <- Hs in Hv'. cbn [heap] in Hv'.
    rewrite lookup_insert_eq in Hv'. inversion Hv'. reflexivity. }
  assert (Hst2 : st2 = st1).
  { unfold cache_pem in Hc2. rewrite Hv', Hcached in Hc2. by inversion Hc2. }
  subst st2. rewrite (Hkinds "PRIVATE") in Hc2.
  assert (Harmour : pem_of E "PUBLIC" v
                    = ("-----BEGIN PUBLIC KEY-----" ++ newline ++ toBase64 E (key_data v)
                       ++ newline ++ "-----END PUBLIC KEY-----")%string).
  { unfold pem_of. rewrite Hpem. reflexivity. }
  rewrite Harmour in Hc2.
  unfold EcCrypto_sign. rewrite Hh.
  unfold bind at 1, lift at 1. rewrite Hcs. unfold bind at 1, lift at 1.
  rewrite (bind_ok _ _ _ _ _ Hc2).
  destruct (signer_sign G _ _ _) as [der|e]; [|reflexivity].
  unfold bind at 1, lift at 1. cbn [rbind].
  destruct (AsnParser_parse_EcDsaSignature G der) as [rs|e]; [|reflexivity].
  unfold bind at 1, lift at 1. cbn [rbind].
  assert (Hderef : deref key st1 = (Ok v', st1)) by (unfold deref; by rewrite Hv').
  rewrite (bind_ok _ _ _ _ _ Hderef). rewrite Ha', Ha.
  unfold bind at 1, lift at 1.
  destruct (EcCrypto_getPointSize (alg_namedCurve a)) as [ps|e]; [|reflexivity].
  unfold bind at 1, lift at 1. cbn [rbind].
  destruct (EcCrypto_addPadding ps rs.1) as [r|e]; [|reflexivity].
  unfold bind at 1, lift at 1. cbn [rbind].
  destruct (EcCrypto_addPadding ps rs.2) as [s|e]; reflexivity.
Qed.

Lemma EcCrypto_pem_cache_shared_witness :
  exists res st1,
    EcCrypto_verify TestEngine.engine (mkEcdsaParams (Some "SHA-256")) 3%positive
      raw_signature [5; 6] ec_pair_store = (res, st1) /\
    EcCrypto_sign TestEngine.engine test_signer (mkEcdsaParams (Some "SHA-256")) 3%positive
      [5; 6] st1 = (Ok raw_signature, st1).
Proof.
  do 2 eexists. split; [reflexivity|].
  rewrite (EcCrypto_pem_cache_shared TestEngine.engine test_signer
             (mkEcdsaParams (Some "SHA-256")) 3%positive raw_signature [5; 6] [5; 6]
             ec_pair_store _ _ ec_private_material
             (mkAlgorithm "ECDSA" None None (Some "P-256") None None) "SHA-256"
             eq_refl eq_refl eq_refl eq_refl eq_refl eq_refl eq_refl).
  reflexivity.
Defined.

(** ** Derived bits and random values *)

Lemma Buffer_slice_prefix (buf : list Z) (n : Z) :
  0 <= n -> Buffer_slice buf 0 n = take (Z.to_nat n) buf.
Proof.
  intros Hn. unfold Buffer_slice, rel_index.
  replace (0 <? 0) with false by reflexivity.
  replace (n <? 0) with false by (symmetry; apply Z.ltb_ge; lia).
  rewrite (Z.min_l 0) by (unfold JS.len; lia).
  change (Z.to_nat 0) with 0%nat. rewrite drop_0, Z.sub_0_r.
  destruct (Z_le_gt_dec n (JS.len buf)).
  - by rewrite (Z.min_l n) by lia.
  - rewrite Z.min_r by lia. unfold JS.len in *. rewrite Nat2Z.id.
    rewrite firstn_all. symmetry. apply take_ge. lia.
Qed.

(** X26: ECDH bit derivation cuts the shared secret and never pads or
    refuses.  When the engine and the parsers succeed with secret [bits],
    a request for [length] bits (below 2^31) returns the first
    [length / 8] bytes of the secret, rounding down, and the whole secret
    when it has fewer bytes than that. *)
Theorem EcCrypto_deriveBits_truncates (D : Ecdh) (public baseKey : InternalCryptoKey)
    (length : Z) (a : Algorithm) (c name : string) (p1 p2 q bits : list Z) :
  key_algorithm baseKey = Some a -> alg_namedCurve a = Some c ->
  EcCrypto_getOpenSSLNamedCurve c = Ok name ->
  createECDH D name = Ok tt ->
  AsnParser_parse_PrivateKeyInfo D (key_data baseKey) = Ok p1 ->
  AsnParser_parse_EcPrivateKey D p1 = Ok p2 ->
  ecdh_setPrivateKey D name p2 = Ok tt ->
  AsnParser_parse_PublicKeyInfo D (key_data public) = Ok q ->
  ecdh_computeSecret D name p2 q = Ok bits ->
  0 <= length < 2 ^ 31 ->
  exists out,
    EcCrypto_deriveBits D public baseKey length = Ok out /\
    out = take (Z.to_nat (length / 8)) bits /\
    JS.len out = Z.min (length / 8) (JS.len bits).
Proof.
  intros Ha Hc Hname Hcreate Hp1 Hp2 Hset Hq Hbits Hrange.
  unfold EcCrypto_deriveBits.
  rewrite Ha. cbn [rbind]. rewrite Hc, Hname. cbn [rbind].
  rewrite Hcreate. cbn [rbind]. rewrite Hp1. cbn [rbind]. rewrite Hp2. cbn [rbind].
  rewrite Hset. cbn [rbind]. rewrite Hq. cbn [rbind]. rewrite Hbits. cbn [rbind].
  rewrite shr3_small by done.
  assert (0 <= length / 8) by (apply Z.div_pos; lia).
  rewrite Buffer_slice_prefix by done.
  eexists. split; [reflexivity|]. split; [reflexivity|].
  unfold JS.len. rewrite length_take. lia.
Qed.

Lemma EcCrypto_deriveBits_truncates_witness :
  exists out,
    EcCrypto_deriveBits test_ecdh ec_public_material ec_private_material 521 = Ok out /\
    JS.len out = 32.
Proof.
  destruct (EcCrypto_deriveBits_truncates test_ecdh ec_public_material ec_private_material
              521 (mkAlgorithm "ECDSA" None None (Some "P-256") None None) "P-256"
              "prime256v1" [48; 129; 135; 2] [48; 129; 135; 2] [48; 89; 48; 19]
              (replicate 32 96)
              eq_refl eq_refl eq_refl eq_refl eq_refl eq_refl eq_refl eq_refl eq_refl
              ltac:(lia))
    as (out & H1 & _ & H3).
  exists out. split; [exact H1 | exact H3].
Defined.

(** X27: [getRandomValues] fills the whole underlying buffer, not only
    the part the view covers: every byte of the buffer, inside the view
    or not, is replaced by the generator's byte for its position, the
    buffer keeps its length and the view its offset and length, and one
    draw is taken from the generator. *)
Theorem Crypto_getRandomValues_fills_buffer (E : Engine) (array : ArrayBufferView)
    (st : Store) :
  exists array' st',
    Crypto_getRandomValues E array st = (Ok array', st') /\
    view_byteOffset array' = view_byteOffset array /\
    view_byteLength array' = view_byteLength array /\
    JS.len (view_buffer array') = JS.len (view_buffer array) /\
    (forall i, (i < length (view_buffer array))%nat ->
       view_buffer array' !! i = Some (JS.toUint8 (random_byte E (entropy st) i))) /\
    entropy st' = Datatypes.S (entropy st).
Proof.
  do 2 eexists. split; [reflexivity|]. cbn [view_byteOffset view_byteLength view_buffer entropy].
  repeat split.
  - unfold JS.len. by rewrite length_map, length_seq.
  - intros i Hi. rewrite list_lookup_fmap, lookup_seq_lt by done. reflexivity.
Qed.
